(** * A shallow embedding of the data-analysis backend

    The repository wraps a dataframe library, a charting library, two
    database drivers and a PDF reader behind a uniform result envelope.
    This development embeds the wrapper code of [tools/eda_tool.py],
    [tools/chart_tool.py], [tools/pdf_loader_tool.py],
    [tools/snowflake_tool.py], [tools/sqlserver_tool.py] and
    [app/routes.py], together with the few library operations the
    wrappers rely on (dropna, quantile, mean, std, corr, head), and proves
    the testable properties of the specification about them.

    Numbers.  Column values are 64-bit floats in the program.  They are
    idealised here as exact rationals extended with the two infinities
    and NaN: rounding is not modelled.  The range of a float is modelled
    in one place, Pearson's coefficient, whose divisor multiplies two
    sums of squares and leaves the range for columns of ordinary
    magnitude; elsewhere the statements that depend on the range are
    made for values of moderate magnitude.  The square root used by the
    library (std, Pearson's divisor) is a parameter of which only three
    facts are used. *)

From Stdlib Require Import QArith Qabs Qround Qminmax Lqa Lia ZArith Sorted.
From stdpp Require Import base list strings gmap pretty.

(** ** Python-level values and the result envelope *)

Module Py.

(** The exceptions the wrappers catch.  [LibraryError] stands for an
    exception whose class depends on the library version. *)
Inductive exn :=
  | ZeroDivisionError
  | TypeError
  | ValueError
  | KeyError
  | AttributeError
  | ImportError
  | LibraryError.

(** The [error] entry of a failure envelope: a literal written in the
    source, or [str(e)] of a caught exception. *)
Inductive error :=
  | Msg (s : string)
  | Raised (e : exn).

(** [{'success': True, ...payload}] or [{'success': False, 'error': ...}].
    The human-readable [message] entries are not part of the model. *)
Inductive envelope (A : Type) :=
  | Success (payload : A)
  | Failure (err : error).
Arguments Success {A} payload.
Arguments Failure {A} err.

Definition success {A} (r : envelope A) : bool :=
  match r with Success _ => true | Failure _ => false end.

(** The values that travel through keyword arguments and JSON bodies. *)
Inductive pyval :=
  | VNone
  | VStr (s : string)
  | VInt (z : Z)
  | VList (l : list string).

(** Python truthiness, as used by [if columns:] and [not conf.get(k)]. *)
Definition truthy (v : pyval) : bool :=
  match v with
  | VNone => false
  | VStr s => negb (String.eqb s "")
  | VInt z => negb (z =? 0)%Z
  | VList l => match l with [] => false | _ => true end
  end.

(** [needle in haystack] on strings. *)
Fixpoint contains (needle haystack : string) : bool :=
  String.prefix needle haystack ||
  match haystack with
  | EmptyString => false
  | String _ rest => contains needle rest
  end.

(** The failure every tool returns without a dataset. *)
Definition no_data_loaded {A} : envelope A := Failure (Msg "No data loaded").

(** Lookup in a dispatch table written as a dict literal. *)
Fixpoint assoc {A} (key : string) (table : list (string * A)) : option A :=
  match table with
  | [] => None
  | (k, v) :: rest => if String.eqb k key then Some v else assoc key rest
  end.

(** [str(v)], as interpolated by an f-string. *)
Definition py_str (v : pyval) : string :=
  match v with
  | VNone => "None"
  | VStr s => s
  | VInt z => pretty z
  | VList l =>
      "[" +:+ String.concat ", " (map (fun s => "'" +:+ s +:+ "'") l) +:+ "]"
  end.

(** [d.get(key, default)] and [d.get(key)] on a dict of values. *)
Definition get_or (d : gmap string pyval) (key : string) (dflt : pyval) : pyval :=
  default dflt (d !! key).

Definition get (d : gmap string pyval) (key : string) : pyval :=
  get_or d key VNone.

(** A response of the HTTP layer: a JSON envelope, or an exception that
    no handler catches. *)
Inductive response (A : Type) :=
  | Json (body : envelope A)
  | Uncaught (e : exn).
Arguments Json {A} body.
Arguments Uncaught {A} e.

End Py.
Export Py.

(** ** Floats, order statistics and moments *)

Module Numeric.

Local Open Scope Q_scope.

Inductive float :=
  | Fin (q : Q)
  | Inf (negative : bool)
  | NaN.

Definition Qltb (a b : Q) : bool := negb (Qle_bool b a).

Definition fneg (a : float) : float :=
  match a with
  | Fin q => Fin (- q)
  | Inf s => Inf (negb s)
  | NaN => NaN
  end.

Definition fadd (a b : float) : float :=
  match a, b with
  | Fin x, Fin y => Fin (x + y)
  | Inf s, Fin _ | Fin _, Inf s => Inf s
  | Inf s, Inf t => if Bool.eqb s t then Inf s else NaN
  | NaN, _ | _, NaN => NaN
  end.

Definition fsub (a b : float) : float := fadd a (fneg b).

Definition fmul (a b : float) : float :=
  match a, b with
  | Fin x, Fin y => Fin (x * y)
  | Inf s, Fin y | Fin y, Inf s =>
      if Qeq_bool y 0 then NaN else Inf (xorb s (Qltb y 0))
  | Inf s, Inf t => Inf (xorb s t)
  | NaN, _ | _, NaN => NaN
  end.

Definition fdiv (a b : float) : float :=
  match a, b with
  | Fin x, Fin y =>
      if Qeq_bool y 0
      then (if Qeq_bool x 0 then NaN else Inf (Qltb x 0))
      else Fin (x / y)
  | Fin _, Inf _ => Fin 0
  | Inf s, Fin y => Inf (xorb s (Qltb y 0))
  | Inf _, Inf _ => NaN
  | NaN, _ | _, NaN => NaN
  end.

Definition fabs (a : float) : float :=
  match a with
  | Fin q => Fin (Qabs q)
  | Inf _ => Inf false
  | NaN => NaN
  end.

(** [a < b]; every comparison with NaN is false. *)
Definition flt (a b : float) : bool :=
  match a, b with
  | Fin x, Fin y => Qltb x y
  | Fin _, Inf s => negb s
  | Inf s, Fin _ => s
  | Inf s, Inf t => s && negb t
  | NaN, _ | _, NaN => false
  end.

Definition fgt (a b : float) : bool := flt b a.

Definition isna (a : float) : bool :=
  match a with NaN => true | _ => false end.

(** *** The range of a 64-bit float

    A magnitude at or beyond [2^1024 - 2^970] rounds to an infinity, a
    magnitude at or below [2^-1075] rounds to zero. *)
Definition overflow_threshold : Q := inject_Z (2 ^ 1024 - 2 ^ 970).

Definition underflow_threshold : Q := 1 / inject_Z (2 ^ 1075).

Definition ranged (q : Q) : float :=
  if Qle_bool overflow_threshold (Qabs q) then Inf (Qltb q 0)
  else if Qle_bool (Qabs q) underflow_threshold then Fin 0
  else Fin q.

Definition fmul_ranged (a b : float) : float :=
  match fmul a b with
  | Fin q => ranged q
  | other => other
  end.

(** [d != 0] on floats: true of the infinities and of NaN. *)
Definition fnonzero (d : float) : bool :=
  match d with
  | Fin q => negb (Qeq_bool q 0)
  | _ => true
  end.

(** Values far from the ends of the range: no sum, difference or
    product of two of them overflows. *)
Definition moderate (data : list Q) : Prop :=
  Forall (fun x => Qabs x <= inject_Z (10 ^ 100)) data.

(** A sum of squares whose square is a normal float. *)
Definition squares_in_range (s : Q) : Prop :=
  1 / inject_Z (2 ^ 500) <= s /\ s <= inject_Z (2 ^ 500).

(** Python's [round(x, ndigits)] on an exact value: to the nearest
    multiple of [10^-ndigits], ties to even. *)
Definition py_round (x : Q) (ndigits : nat) : Q :=
  let scale := inject_Z (10 ^ Z.of_nat ndigits) in
  let y := x * scale in
  let f := Qfloor y in
  let r := y - inject_Z f in
  let up :=
    if Qltb r (1 # 2) then false
    else if Qltb (1 # 2) r then true
    else Z.odd f in
  inject_Z (if up then f + 1 else f)%Z / scale.

Definition fround (a : float) (ndigits : nat) : float :=
  match a with Fin q => Fin (py_round q ndigits) | _ => a end.

(** *** Sorting *)

Fixpoint insert_sorted (x : Q) (l : list Q) : list Q :=
  match l with
  | [] => [x]
  | y :: l' => if Qle_bool x y then x :: l else y :: insert_sorted x l'
  end.

Definition sort (l : list Q) : list Q := foldr insert_sorted [] l.

(** *** [Series.quantile(q)] with the default linear interpolation

    On [n] values sorted ascending the virtual index is [h = (n-1) q];
    the result interpolates between the order statistics at [floor h]
    and at the next index, clipped to [n-1].  An empty series gives
    NaN. *)
Definition lerp (a b t : Q) : Q := a + (b - a) * t.

Definition quantile_sorted (s : list Q) (q : Q) : Q :=
  let n := length s in
  let h := inject_Z (Z.of_nat n - 1) * q in
  let lo := Z.to_nat (Qfloor h) in
  let hi := Nat.min (S lo) (n - 1) in
  lerp (nth lo s 0) (nth hi s 0) (h - inject_Z (Qfloor h)).

Definition quantile (data : list Q) (q : Q) : float :=
  match data with
  | [] => NaN
  | _ => Fin (quantile_sorted (sort data) q)
  end.

(** Linear interpolation in the words of the specification: with
    [h = (n-1) p] and [k = floor h], the quantile is the combination of
    the order statistics [k] and [k+1] with weights [1 - (h-k)] and
    [h - k]. *)
Definition interpolated_quantile (data : list Q) (p : Q) : option Q :=
  match data with
  | [] => None
  | _ =>
      let s := sort data in
      let h := inject_Z (Z.of_nat (length s) - 1) * p in
      let k := Z.to_nat (Qfloor h) in
      let w := h - inject_Z (Qfloor h) in
      Some ((1 - w) * nth k s 0 + w * nth (S k) s 0)
  end.

(** Values in ascending order. *)
Definition ascending (s : list Q) : Prop :=
  forall i j, (i <= j)%nat -> (j < length s)%nat -> nth i s 0 <= nth j s 0.

(** *** Moments *)

Definition Qsum (l : list Q) : Q := foldr Qplus 0 l.

Definition Qlen (l : list Q) : Q := inject_Z (Z.of_nat (length l)).

Definition mean_of (l : list Q) : Q := Qsum l / Qlen l.

(** [Series.mean()]: NaN on an empty series. *)
Definition mean (data : list Q) : float :=
  match data with
  | [] => NaN
  | _ => Fin (mean_of data)
  end.

(** Sum of squared deviations from the mean. *)
Definition ssq (l : list Q) : Q :=
  Qsum (map (fun x => (x - mean_of l) * (x - mean_of l)) l).

(** [Series.var()] with the default [ddof=1]: NaN below two values. *)
Definition variance (data : list Q) : float :=
  match data with
  | [] | [_] => NaN
  | _ => Fin (ssq data / (Qlen data - 1))
  end.

Definition fsqrt_with (sqrt : Q -> Q) (a : float) : float :=
  match a with
  | Fin q => if Qltb q 0 then NaN else Fin (sqrt q)
  | Inf false => Inf false
  | Inf true => NaN
  | NaN => NaN
  end.

(** A series has nonzero variance when [var()] is a number other than
    zero. *)
Definition nonzero_variance (data : list Q) : Prop :=
  exists v, variance data = Fin v /\ ~ v == 0.

(** [Series.std()]: the square root of [var()]. *)
Definition std (sqrt : Q -> Q) (data : list Q) : float :=
  fsqrt_with sqrt (variance data).

(** *** Pairwise correlation, as [DataFrame.corr] computes one cell

    Only the rows where both columns are present take part. *)
Definition complete_pairs (x y : list (option Q)) : list (Q * Q) :=
  omap (fun p => match p with
                 | (Some a, Some b) => Some (a, b)
                 | _ => None
                 end) (combine x y).

Definition clip_unit (v : Q) : Q :=
  if Qltb 1 v then 1 else if Qltb v (- (1)) then - (1) else v.

(** [if val > 1: val = 1 elif val < -1: val = -1] *)
Definition fclip (a : float) : float :=
  match a with
  | Fin v => Fin (clip_unit v)
  | Inf negative => Fin (if negative then - (1) else 1)
  | NaN => NaN
  end.

(** The co-moment of paired observations over the square root of the
    product of the two sums of squares; NaN without observations or
    with a zero divisor.  This is the ratio on exact numbers, which the
    library forms on ranks. *)
Definition comoment_ratio (sqrt : Q -> Q) (ps : list (Q * Q)) : float :=
  match ps with
  | [] => NaN
  | _ =>
      let xs := map fst ps in
      let ys := map snd ps in
      let covxy :=
        Qsum (map (fun p => (fst p - mean_of xs) * (snd p - mean_of ys)) ps) in
      let divisor := sqrt (ssq xs * ssq ys) in
      if Qeq_bool divisor 0 then NaN else Fin (covxy / divisor)
  end.

(** A value paired with itself: a column observed against itself. *)
Definition twice (x : Q) : Q * Q := (x, x).

(** Pearson's coefficient as the library accumulates it on the column
    values: the co-moment [covxy] and the two sums of squared deviations
    are floats, and so is the product under the square root.  A product
    that overflows makes the divisor infinite and the coefficient 0.0;
    one that underflows makes the divisor zero and the coefficient NaN.
    The quotient is clipped to [-1, 1]. *)
Definition pearson (sqrt : Q -> Q) (x y : list (option Q)) : float :=
  let ps := complete_pairs x y in
  match ps with
  | [] => NaN
  | _ =>
      let xs := map fst ps in
      let ys := map snd ps in
      let covxy :=
        ranged (Qsum (map (fun p => (fst p - mean_of xs) * (snd p - mean_of ys)) ps)) in
      let ssqdm_x := ranged (ssq xs) in
      let ssqdm_y := ranged (ssq ys) in
      let divisor := fsqrt_with sqrt (fmul_ranged ssqdm_x ssqdm_y) in
      if fnonzero divisor then fclip (fdiv covxy divisor) else NaN
  end.

(** Average ranks: the rank of a value is the number of smaller values
    plus half of one more than the number of equal values. *)
Definition count_if (f : Q -> bool) (l : list Q) : Q :=
  inject_Z (Z.of_nat (length (List.filter f l))).

Definition rank_in (l : list Q) (x : Q) : Q :=
  count_if (fun y => Qltb y x) l + (count_if (Qeq_bool x) l + 1) / 2.

Definition ranks (l : list Q) : list Q := map (rank_in l) l.

(** Spearman's coefficient: the ratio on the ranks of the complete
    pairs.  Ranks are at most the number of rows, so their sums of
    squares stay in the range of a float. *)
Definition spearman (sqrt : Q -> Q) (x y : list (option Q)) : float :=
  let ps := complete_pairs x y in
  comoment_ratio sqrt (combine (ranks (map fst ps)) (ranks (map snd ps))).

(** A square root on the rationals that is exact on squares of
    rationals and rounds down to the denominator otherwise; it is one
    instance of the parameter [sqrt] of the development. *)
Definition Qsqrt (q : Q) : Q :=
  Z.sqrt (Qnum q * Zpos (Qden q)) # Qden q.

(** The three facts about the square root that proofs rely on. *)
Record sqrt_ok (sqrt : Q -> Q) : Prop := {
  sqrt_pos : forall v, 0 < v -> 0 < sqrt v;
  sqrt_zero : forall v, v == 0 -> sqrt v == 0;
  sqrt_square : forall a, 0 <= a -> sqrt (a * a) == a
}.

End Numeric.
Export Numeric.

(** ** The dataframe *)

Module Frame.

(** A column is numeric (selected by [select_dtypes(include=[np.number])])
    or holds objects (strings).  [None] is the missing value. *)
Inductive column :=
  | NumCol (values : list (option Q))
  | ObjCol (values : list (option string)).

(** Labelled columns in order, and the length of the row index.  Labels
    may repeat (a query may return the same label twice). *)
Record DataFrame := {
  df_columns : list (string * column);
  df_len : nat
}.

Definition column_names (df : DataFrame) : list string :=
  map fst (df_columns df).

Definition has_label (name : string) (p : string * column) : bool :=
  String.eqb (fst p) name.

(** [df[name]]: every column carrying the label.  One column is a
    Series, several are a DataFrame, none raises KeyError. *)
Definition getitem (df : DataFrame) (name : string) : list column :=
  map snd (List.filter (has_label name) (df_columns df)).

(** [name in df.columns] *)
Definition has_column (df : DataFrame) (name : string) : bool :=
  existsb (String.eqb name) (column_names df).

(** [Series.dropna()] *)
Definition dropna {A} (values : list (option A)) : list A :=
  omap id values.

(** [df.select_dtypes(include=[np.number])] *)
Definition select_numeric (df : DataFrame) : list (string * list (option Q)) :=
  omap (fun p => match snd p with
                 | NumCol v => Some (fst p, v)
                 | ObjCol _ => None
                 end) (df_columns df).

(** [numeric_df.empty]: no column, or no row. *)
Definition numeric_empty (df : DataFrame) : bool :=
  match select_numeric df with [] => true | _ => Nat.eqb (df_len df) 0 end.

(** Cells and rows, for [df.duplicated()], [nunique()], [value_counts()]
    and [to_dict('records')]. *)
Inductive cell :=
  | CNum (q : Q)
  | CStr (s : string)
  | CNull.

Definition cell_eqb (a b : cell) : bool :=
  match a, b with
  | CNum x, CNum y => Qeq_bool x y
  | CStr s, CStr t => String.eqb s t
  | CNull, CNull => true
  | _, _ => false
  end.

Definition cells (c : column) : list cell :=
  match c with
  | NumCol v => map (fun o => match o with Some q => CNum q | None => CNull end) v
  | ObjCol v => map (fun o => match o with Some s => CStr s | None => CNull end) v
  end.

Definition cell_at (c : column) (r : nat) : cell := nth r (cells c) CNull.

Definition row (df : DataFrame) (r : nat) : list (string * cell) :=
  map (fun p => (fst p, cell_at (snd p) r)) (df_columns df).

Definition rows (df : DataFrame) : list (list (string * cell)) :=
  map (row df) (seq 0 (df_len df)).

(** [df.head(n).to_dict('records')] *)
Definition head_records (df : DataFrame) (n : nat) : list (list (string * cell)) :=
  take n (rows df).

Definition row_eqb (a b : list (string * cell)) : bool :=
  Nat.eqb (length a) (length b) &&
  forallb (fun p => cell_eqb (snd (fst p)) (snd (snd p))) (combine a b).

(** The values of a list in order of first appearance. *)
Definition distinct {A} (eqb : A -> A -> bool) (l : list A) : list A :=
  foldl (fun seen x => if existsb (eqb x) seen then seen else seen ++ [x]) [] l.

(** [int(df.duplicated().sum())]: rows equal to an earlier row. *)
Definition duplicated_count (df : DataFrame) : nat :=
  df_len df - length (distinct row_eqb (rows df)).

Definition is_null (c : cell) : bool :=
  match c with CNull => true | _ => false end.

Definition null_count (c : column) : nat :=
  length (List.filter is_null (cells c)).

Definition non_null (c : column) : list cell :=
  List.filter (fun x => negb (is_null x)) (cells c).

(** [Series.nunique()]: distinct values, missing ones excluded. *)
Definition nunique (c : column) : nat :=
  length (distinct cell_eqb (non_null c)).

(** Labels occurring once each: [df[label]] is then always a Series. *)
Fixpoint unique_labels (l : list string) : bool :=
  match l with
  | [] => true
  | x :: t => negb (existsb (String.eqb x) t) && unique_labels t
  end.

End Frame.
Export Frame.

(** ** [tools/eda_tool.py] *)

Module EDA.

Section WithLibrary.

Variable sqrt : Q -> Q.

(** [self.current_data] *)
Definition state := option DataFrame.

Definition no_data {A} : envelope A := no_data_loaded.

(** *** [detect_outliers] *)

Record outlier_report := {
  o_column : string;
  o_method : string;
  outlier_count : nat;
  outlier_percentage : Q;
  lower_bound : float;
  upper_bound : float
}.

(** The return statement: [len(outliers) / len(data)] is a division of
    Python integers and raises on an empty series. *)
Definition outlier_result (column method : string) (data outliers : list Q)
    (lower upper : float) : envelope outlier_report :=
  match data with
  | [] => Failure (Raised ZeroDivisionError)
  | _ =>
      Success {|
        o_column := column;
        o_method := method;
        outlier_count := length outliers;
        outlier_percentage :=
          py_round (inject_Z (Z.of_nat (length outliers))
                    / inject_Z (Z.of_nat (length data)) * 100) 2;
        lower_bound := lower;
        upper_bound := upper
      |}
  end.

(** A value strictly outside the closed interval [[lo, hi]]. *)
Definition strictly_outside (lo hi : float) (x : Q) : bool :=
  flt (Fin x) lo || flt hi (Fin x).

Definition iqr_outliers (column : string) (data : list Q) : envelope outlier_report :=
  let q1 := quantile data (1 # 4) in
  let q3 := quantile data (3 # 4) in
  let iqr := fsub q3 q1 in
  let lower := fsub q1 (fmul (Fin (3 # 2)) iqr) in
  let upper := fadd q3 (fmul (Fin (3 # 2)) iqr) in
  let outliers :=
    List.filter (fun x => flt (Fin x) lower || fgt (Fin x) upper) data in
  outlier_result column "iqr" data outliers lower upper.

Definition zscore_outliers (column : string) (data : list Q) : envelope outlier_report :=
  let mean := mean data in
  let std := std sqrt data in
  let z_score x := fdiv (fsub (Fin x) mean) std in
  let outliers := List.filter (fun x => fgt (fabs (z_score x)) (Fin 3)) data in
  let lower := fsub mean (fmul (Fin 3) std) in
  let upper := fadd mean (fmul (Fin 3) std) in
  outlier_result column "zscore" data outliers lower upper.

Definition unknown_method {A} (method : string) : envelope A :=
  Failure (Msg ("Unknown method: " +:+ method)).

Definition detect_outliers (st : state) (column method : string)
    : envelope outlier_report :=
  match st with
  | None => no_data
  | Some df =>
      if negb (has_column df column)
      then Failure (Msg ("Column not found: " +:+ column))
      else
        match getitem df column with
        | [NumCol values] =>
            let data := dropna values in
            if String.eqb method "iqr" then iqr_outliers column data
            else if String.eqb method "zscore" then zscore_outliers column data
            else unknown_method method
        | [ObjCol _] =>
            (* quantile and mean raise on strings *)
            if String.eqb method "iqr" || String.eqb method "zscore"
            then Failure (Raised TypeError)
            else unknown_method method
        | _ =>
            (* a repeated label selects a frame: float(bound) raises *)
            if String.eqb method "iqr" || String.eqb method "zscore"
            then Failure (Raised LibraryError)
            else unknown_method method
        end
  end.

(** *** [load_data] *)

Record load_report := {
  l_rows : nat;
  l_columns : nat;
  l_column_names : list string
}.

(** [data] is [None] when the keyword is absent: the assignment happens,
    then [len(None)] raises inside the try block. *)
Definition load_data (data : option DataFrame) : state * envelope load_report :=
  match data with
  | None => (None, Failure (Raised TypeError))
  | Some df =>
      (Some df,
       Success {| l_rows := df_len df;
                  l_columns := length (df_columns df);
                  l_column_names := column_names df |})
  end.

(** *** [get_basic_info] *)

Definition fnat (n : nat) : float := Fin (inject_Z (Z.of_nat n)).

(** [round(part / whole * 100, 2)] on library integers: a zero divisor
    gives NaN, not an exception. *)
Definition percentage (part whole : nat) : float :=
  fround (fmul (fdiv (fnat part) (fnat whole)) (Fin 100)) 2.

Record column_info := {
  ci_name : string;
  ci_non_null : nat;
  ci_null_count : nat;
  ci_null_percentage : float;
  ci_unique_values : nat
}.

Record basic_info := {
  bi_rows : nat;
  bi_columns : nat;
  bi_column_info : list column_info;
  bi_duplicates : nat
}.

(** With a repeated label [df[col]] is a frame, which has no [dtype]:
    the loop raises.  The entries [memory_usage] and [dtype] are not
    modelled. *)
Definition get_basic_info (st : state) : envelope basic_info :=
  match st with
  | None => no_data
  | Some df =>
      if negb (unique_labels (column_names df))
      then Failure (Raised AttributeError)
      else
        Success {|
          bi_rows := df_len df;
          bi_columns := length (df_columns df);
          bi_column_info :=
            map (fun p =>
                   {| ci_name := fst p;
                      ci_non_null := length (non_null (snd p));
                      ci_null_count := null_count (snd p);
                      ci_null_percentage := percentage (null_count (snd p)) (df_len df);
                      ci_unique_values := nunique (snd p) |})
                (df_columns df);
          bi_duplicates := duplicated_count df
        |}
  end.

(** *** [get_statistics] *)

(** [float(v) if not pd.isna(v) else None] *)
Definition opt_float (v : float) : option float :=
  if isna v then None else Some v.

Definition Qmin_list (l : list Q) : float :=
  match l with [] => NaN | x :: t => Fin (foldl Qmin x t) end.

Definition Qmax_list (l : list Q) : float :=
  match l with [] => NaN | x :: t => Fin (foldl Qmax x t) end.

(** The entries [skewness] and [kurtosis], two further library calls on
    the same series, are not modelled. *)
Record column_stats := {
  cs_count : nat;
  cs_mean : option float;
  cs_std : option float;
  cs_min : option float;
  cs_max : option float;
  cs_median : option float;
  cs_q25 : option float;
  cs_q75 : option float
}.

Definition describe (values : list (option Q)) : column_stats :=
  let data := dropna values in
  {| cs_count := length data;
     cs_mean := opt_float (mean data);
     cs_std := opt_float (std sqrt data);
     cs_min := opt_float (Qmin_list data);
     cs_max := opt_float (Qmax_list data);
     cs_median := opt_float (quantile data (1 # 2));
     cs_q25 := opt_float (quantile data (1 # 4));
     cs_q75 := opt_float (quantile data (3 # 4)) |}.

Record statistics_report := {
  sr_statistics : list (string * column_stats);
  sr_columns_analyzed : list string
}.

Definition numeric_labels (df : DataFrame) : list string :=
  map fst (select_numeric df).

(** One entry per analysed column; a label that selects more than one
    column makes [int(df[col].count())] raise. *)
Fixpoint column_statistics (df : DataFrame) (cols : list string)
    : exn + list (string * column_stats) :=
  match cols with
  | [] => inr []
  | c :: rest =>
      match getitem df c with
      | [NumCol values] =>
          match column_statistics df rest with
          | inl e => inl e
          | inr l => inr ((c, describe values) :: l)
          end
      | _ => inl TypeError
      end
  end.

Definition get_statistics (st : state) (columns : option (list string))
    : envelope statistics_report :=
  match st with
  | None => no_data
  | Some df =>
      let requested :=
        match columns with
        | Some (c :: cs) => Some (c :: cs)
        | _ => None
        end in
      let numeric_cols :=
        match requested with
        | Some cols =>
            List.filter (fun c => existsb (String.eqb c) (numeric_labels df)) cols
        | None => numeric_labels df
        end in
      match numeric_cols with
      | [] => Failure (Msg "No numeric columns found")
      | _ =>
          match column_statistics df numeric_cols with
          | inl e => Failure (Raised e)
          | inr stats =>
              Success {| sr_statistics := stats;
                         sr_columns_analyzed := numeric_cols |}
          end
      end
  end.

(** *** [get_correlations] *)

(** Kendall's coefficient of two complete series is computed by a
    statistics package and is a parameter here. *)
Variable kendalltau : list Q -> list Q -> float.

Inductive corr_method := Pearson | Spearman | Kendall.

(** Any other method string makes [DataFrame.corr] raise. *)
Definition parse_method (method : string) : option corr_method :=
  if String.eqb method "pearson" then Some Pearson
  else if String.eqb method "spearman" then Some Spearman
  else if String.eqb method "kendall" then Some Kendall
  else None.

(** The cell the library computes for the index pair [lo <= hi]; it is
    stored at both (lo, hi) and (hi, lo).  For Kendall the diagonal is
    set to 1.0 whenever the column has a value. *)
Definition corr_pair (m : corr_method) (lo hi : nat)
    (clo chi : list (option Q)) : float :=
  match m with
  | Pearson => pearson sqrt chi clo
  | Spearman => spearman sqrt chi clo
  | Kendall =>
      let ps := complete_pairs clo chi in
      match ps with
      | [] => NaN
      | _ => if Nat.eqb lo hi then Fin 1
             else kendalltau (map fst ps) (map snd ps)
      end
  end.

Definition corr_cell (m : corr_method) (cols : list (string * list (option Q)))
    (i j : nat) : float :=
  let lo := Nat.min i j in
  let hi := Nat.max i j in
  corr_pair m lo hi (nth lo (map snd cols) []) (nth hi (map snd cols) []).

(** Position of the first column carrying a label. *)
Fixpoint index_of (name : string) (labels : list string) : nat :=
  match labels with
  | [] => 0
  | l :: rest => if String.eqb l name then 0 else S (index_of name rest)
  end.

(** [corr_matrix.loc[row, col]] for labels that occur once. *)
Definition loc (m : corr_method) (cols : list (string * list (option Q)))
    (r c : string) : float :=
  corr_cell m cols (index_of r (map fst cols)) (index_of c (map fst cols)).

(** [corr_matrix.to_dict()]: column label, then row label. *)
Definition to_dict (m : corr_method) (cols : list (string * list (option Q)))
    : gmap string (gmap string float) :=
  list_to_map
    (imap (fun j c =>
             (fst c, list_to_map (imap (fun i r => (fst r, corr_cell m cols i j)) cols)))
          cols).

Record high_correlation := {
  column1 : string;
  column2 : string;
  correlation : float
}.

Definition enumerate {A} (l : list A) : list (nat * A) := imap pair l.

(** The body of the two nested loops, at [(i, col1)] and [(j, col2)]. *)
Definition loop_body (m : corr_method) (cols : list (string * list (option Q)))
    (ic1 jc2 : nat * string) : list high_correlation :=
  if Nat.ltb (fst ic1) (fst jc2) then
    let corr_val := loc m cols (snd ic1) (snd jc2) in
    if fgt (fabs corr_val) (Fin (7 # 10))
    then [ {| column1 := snd ic1; column2 := snd jc2;
              correlation := fround corr_val 4 |} ]
    else []
  else [].

(** The two nested loops over [enumerate(corr_matrix.columns)]. *)
Definition high_correlations (m : corr_method)
    (cols : list (string * list (option Q))) : list high_correlation :=
  flat_map (fun ic1 => flat_map (loop_body m cols ic1) (enumerate (map fst cols)))
           (enumerate (map fst cols)).

(** [correlations[a][b]] in the returned dict of dicts. *)
Definition matrix_entry (d : gmap string (gmap string float)) (a b : string)
    : option float :=
  match d !! a with
  | Some inner => inner !! b
  | None => None
  end.

(** Whether an entry of [high_correlations] reports the unordered pair
    of [a] and [b]. *)
Definition same_pair (a b : string) (e : high_correlation) : bool :=
  (String.eqb (column1 e) a && String.eqb (column2 e) b)
  || (String.eqb (column1 e) b && String.eqb (column2 e) a).

Record correlation_report := {
  correlation_matrix : gmap string (gmap string float);
  cr_high_correlations : list high_correlation;
  cr_method : string
}.

(** With a repeated numeric label [corr_matrix.loc[col1, col2]] is not a
    scalar for the pair of its two occurrences and the comparison
    raises. *)
Definition get_correlations (st : state) (method : string)
    : envelope correlation_report :=
  match st with
  | None => no_data
  | Some df =>
      if numeric_empty df
      then Failure (Msg "No numeric columns for correlation")
      else
        match parse_method method with
        | None => Failure (Raised ValueError)
        | Some m =>
            let cols := select_numeric df in
            if negb (unique_labels (map fst cols))
            then Failure (Raised ValueError)
            else
              Success {| correlation_matrix := to_dict m cols;
                         cr_high_correlations := high_correlations m cols;
                         cr_method := method |}
        end
  end.

(** *** [get_value_counts] *)

Definition occurrences (x : cell) (l : list cell) : nat :=
  length (List.filter (cell_eqb x) l).

(** Insertion by decreasing count, before the entries of the same
    count. *)
Fixpoint insert_count (p : cell * nat) (l : list (cell * nat)) : list (cell * nat) :=
  match l with
  | [] => [p]
  | q :: rest =>
      if Nat.leb (snd q) (snd p) then p :: l else q :: insert_count p rest
  end.

(** [Series.value_counts()]: the distinct present values with their
    counts, most frequent first; values of the same count stay in the
    order of their first appearance. *)
Definition value_counts (c : column) : list (cell * nat) :=
  let present := non_null c in
  foldr insert_count []
        (map (fun x => (x, occurrences x present)) (distinct cell_eqb present)).

(** [.head(n)]: the first [n] entries, or all but the last [-n]. *)
Definition head {A} (n : Z) (l : list A) : list A :=
  if (0 <=? n)%Z then take (Z.to_nat n) l
  else take (length l - Z.to_nat (- n)) l.

Record value_counts_report := {
  vc_column : string;
  vc_value_counts : list (cell * nat);
  vc_total_unique : nat
}.

Definition get_value_counts (st : state) (column : string) (top_n : Z)
    : envelope value_counts_report :=
  match st with
  | None => no_data
  | Some df =>
      if negb (has_column df column)
      then Failure (Msg ("Column not found: " +:+ column))
      else
        match getitem df column with
        | [c] =>
            Success {| vc_column := column;
                       vc_value_counts := head top_n (value_counts c);
                       vc_total_unique := nunique c |}
        | _ =>
            (* a repeated label: int(nunique()) of a frame raises *)
            Failure (Raised TypeError)
        end
  end.

(** *** [get_data_quality_report] *)

Record column_quality := {
  cq_name : string;
  cq_missing : nat;
  cq_missing_pct : float;
  cq_unique : nat;
  cq_unique_pct : float
}.

Record quality_report := {
  qr_total_rows : nat;
  qr_total_columns : nat;
  qr_total_cells : nat;
  qr_missing_cells : nat;
  qr_missing_percentage : float;
  qr_duplicate_rows : nat;
  qr_duplicate_percentage : float;
  qr_column_quality : list column_quality
}.

Definition missing_cells (df : DataFrame) : nat :=
  foldr (fun p acc => null_count (snd p) + acc)%nat 0%nat (df_columns df).

(** The loop over the columns stops at the first one it cannot
    describe: a repeated label selects a frame, which has no [dtype];
    without rows [nunique() / len(df)] divides an integer by zero. *)
Fixpoint column_quality_error (rows : nat) (all labels : list string) : option exn :=
  match labels with
  | [] => None
  | l :: rest =>
      if Nat.ltb 1 (length (List.filter (String.eqb l) all)) then Some AttributeError
      else if Nat.eqb rows 0 then Some ZeroDivisionError
      else column_quality_error rows all rest
  end.

Definition get_data_quality_report (st : state) : envelope quality_report :=
  match st with
  | None => no_data
  | Some df =>
      match column_quality_error (df_len df) (column_names df) (column_names df) with
      | Some e => Failure (Raised e)
      | None =>
        let cells := (df_len df * length (df_columns df))%nat in
        Success {|
          qr_total_rows := df_len df;
          qr_total_columns := length (df_columns df);
          qr_total_cells := cells;
          qr_missing_cells := missing_cells df;
          qr_missing_percentage := percentage (missing_cells df) cells;
          qr_duplicate_rows := duplicated_count df;
          qr_duplicate_percentage := percentage (duplicated_count df) (df_len df);
          qr_column_quality :=
            map (fun p =>
                   {| cq_name := fst p;
                      cq_missing := null_count (snd p);
                      cq_missing_pct := percentage (null_count (snd p)) (df_len df);
                      cq_unique := nunique (snd p);
                      cq_unique_pct := percentage (nunique (snd p)) (df_len df) |})
                (df_columns df)
        |}
      end
  end.

(** *** [get_full_eda_report] *)

Record full_report := {
  fr_basic_info : envelope basic_info;
  fr_statistics : envelope statistics_report;
  fr_correlations : envelope correlation_report;
  fr_data_quality : envelope quality_report
}.

Definition get_full_eda_report (st : state) : envelope full_report :=
  match st with
  | None => no_data
  | Some _ =>
      Success {| fr_basic_info := get_basic_info st;
                 fr_statistics := get_statistics st None;
                 fr_correlations := get_correlations st "pearson";
                 fr_data_quality := get_data_quality_report st |}
  end.

(** *** [run]: the string-keyed action table *)

Record kwargs := {
  kw_data : option DataFrame;
  kw_columns : option (list string);
  kw_method : option string;
  kw_column : option string;
  kw_top_n : option Z
}.

Inductive payload :=
  | PLoad (r : load_report)
  | PInfo (r : basic_info)
  | PStatistics (r : statistics_report)
  | PCorrelations (r : correlation_report)
  | PValueCounts (r : value_counts_report)
  | POutliers (r : outlier_report)
  | PQuality (r : quality_report)
  | PFull (r : full_report).

Definition lift {A} (f : A -> payload) (r : envelope A) : envelope payload :=
  match r with
  | Success a => Success (f a)
  | Failure e => Failure e
  end.

(** The keys of [actions], with the call each one is bound to. *)
Definition actions (st : state) (kw : kwargs)
    : list (string * (state * envelope payload)) :=
  [ ("load", let r := load_data (kw_data kw) in (fst r, lift PLoad (snd r)));
    ("info", (st, lift PInfo (get_basic_info st)));
    ("statistics", (st, lift PStatistics (get_statistics st (kw_columns kw))));
    ("correlations",
      (st, lift PCorrelations
             (get_correlations st (default "pearson" (kw_method kw)))));
    ("value_counts",
      (st, lift PValueCounts
             (get_value_counts st (default "" (kw_column kw))
                               (default 10%Z (kw_top_n kw)))));
    ("outliers",
      (st, lift POutliers
             (detect_outliers st (default "" (kw_column kw))
                              (default "iqr" (kw_method kw)))));
    ("quality", (st, lift PQuality (get_data_quality_report st)));
    ("full_report", (st, lift PFull (get_full_eda_report st))) ].

Definition run (st : state) (action : string) (kw : kwargs)
    : state * envelope payload :=
  match assoc action (actions st kw) with
  | None => (st, Failure (Msg ("Unknown action: " +:+ action)))
  | Some result => result
  end.

End WithLibrary.

End EDA.

(** ** [tools/chart_tool.py] *)

Module Chart.

(** A call into the charting library: the constructor used and its
    keyword arguments. *)
Record px_call := {
  px_kind : string;
  px_args : list (string * pyval)
}.

Record chart_report := {
  chart_type : string;
  filepath : string;
  chart_json : string
}.

(** What an operation returns, and the library calls it made. *)
Definition outcome : Type := envelope chart_report * list px_call.

Section WithPlotly.

(** Building the figure, saving it under the given file name and
    serialising it: either an exception, or the path and the JSON. *)
Variable plotly : px_call -> string -> DataFrame -> exn + (string * string).

Definition state := option DataFrame.

Definition no_data : outcome := (no_data_loaded, []).

Definition raised (e : exn) : outcome := (Failure (Raised e), []).

(** The body shared by the chart methods: build, save, report. *)
Definition plot (df : DataFrame) (call : px_call) (filename kind : string) : outcome :=
  (match plotly call filename df with
   | inl e => Failure (Raised e)
   | inr (path, json) =>
       Success {| chart_type := kind; filepath := path; chart_json := json |}
   end, [call]).

Definition load_data (data : option DataFrame) : state * envelope unit :=
  match data with
  | None => (None, Failure (Raised TypeError))
  | Some df => (Some df, Success tt)
  end.

Definition bar_chart (st : state) (x y title color orientation : pyval) : outcome :=
  match st with
  | None => no_data
  | Some df =>
      plot df {| px_kind := "bar";
                 px_args := [("x", x); ("y", y); ("color", color);
                             ("title", title); ("orientation", orientation)] |}
           ("bar_chart_" +:+ py_str x +:+ "_" +:+ py_str y +:+ ".html") "bar"
  end.

Definition line_chart (st : state) (x y title color : pyval) : outcome :=
  match st with
  | None => no_data
  | Some df =>
      plot df {| px_kind := "line";
                 px_args := [("x", x); ("y", y); ("color", color); ("title", title)] |}
           ("line_chart_" +:+ py_str x +:+ "_" +:+ py_str y +:+ ".html") "line"
  end.

Definition scatter_plot (st : state) (x y title color size : pyval) : outcome :=
  match st with
  | None => no_data
  | Some df =>
      plot df {| px_kind := "scatter";
                 px_args := [("x", x); ("y", y); ("color", color);
                             ("size", size); ("title", title)] |}
           ("scatter_" +:+ py_str x +:+ "_" +:+ py_str y +:+ ".html") "scatter"
  end.

Definition histogram (st : state) (column title bins color : pyval) : outcome :=
  match st with
  | None => no_data
  | Some df =>
      plot df {| px_kind := "histogram";
                 px_args := [("x", column); ("color", color);
                             ("title", title); ("nbins", bins)] |}
           ("histogram_" +:+ py_str column +:+ ".html") "histogram"
  end.

Definition box_plot (st : state) (y x title : pyval) : outcome :=
  match st with
  | None => no_data
  | Some df =>
      plot df {| px_kind := "box";
                 px_args := [("x", x); ("y", y); ("title", title)] |}
           ("boxplot_" +:+ py_str y +:+ ".html") "box"
  end.

(** The correlation matrix handed to [imshow] is computed by the
    library from the numeric columns of the frame. *)
Definition heatmap (st : state) (title : pyval) : outcome :=
  match st with
  | None => no_data
  | Some df =>
      if numeric_empty df
      then (Failure (Msg "No numeric columns for heatmap"), [])
      else
        plot df {| px_kind := "imshow"; px_args := [("title", title)] |}
             "correlation_heatmap.html" "heatmap"
  end.

Definition pie_chart (st : state) (values names title : pyval) : outcome :=
  match st with
  | None => no_data
  | Some df =>
      plot df {| px_kind := "pie";
                 px_args := [("values", values); ("names", names); ("title", title)] |}
           ("pie_chart_" +:+ py_str names +:+ ".html") "pie"
  end.

(** Iterating a value: a list yields its items, a string its
    characters; [len] of anything else raises. *)
Definition iterate (v : pyval) : option (list string) :=
  match v with
  | VList l => Some l
  | VStr s => Some (map (fun c => String c EmptyString) (String.list_ascii_of_string s))
  | _ => None
  end.

Definition distribution_plot (st : state) (columns title : pyval) : outcome :=
  match st with
  | None => no_data
  | Some df =>
      match iterate columns with
      | None => raised TypeError
      | Some cols =>
          if forallb (has_column df) cols
          then plot df {| px_kind := "distribution";
                          px_args := [("columns", VList cols); ("title", title)] |}
                    "distribution_plot.html" "distribution"
          else
            (* df[col] raises in the loop, after make_subplots *)
            (Failure (Raised KeyError),
             [ {| px_kind := "make_subplots";
                  px_args := [("subplot_titles", VList cols)] |} ])
      end
  end.

(** [df[columns].columns]: the labels of the selected frame.  A missing
    label raises KeyError; a single label that selects one column gives
    a Series, which has no [columns]. *)
Definition selected_labels (df : DataFrame) (columns : pyval) : exn + list string :=
  match columns with
  | VList l =>
      if forallb (has_column df) l
      then inr (flat_map (fun n => List.filter (String.eqb n) (column_names df)) l)
      else inl KeyError
  | VStr s =>
      match List.filter (String.eqb s) (column_names df) with
      | [] => inl KeyError
      | [_] => inl AttributeError
      | labels => inr labels
      end
  | _ => inl KeyError
  end.

(** The labels of [plot_df] as first selected: the caller's columns, or
    all numeric columns. *)
Definition pair_plot_selection (df : DataFrame) (columns : pyval)
    : exn + list string :=
  if truthy columns then selected_labels df columns
  else inr (map fst (select_numeric df)).

(** [plot_df.columns.tolist()] after the cap at six columns. *)
Definition pair_plot_dimensions (df : DataFrame) (columns : pyval)
    : exn + list string :=
  match pair_plot_selection df columns with
  | inl e => inl e
  | inr labels =>
      inr (if Nat.ltb 6 (length labels) then take 6 labels else labels)
  end.

Definition pair_plot (st : state) (columns color : pyval) : outcome :=
  match st with
  | None => no_data
  | Some df =>
      match pair_plot_dimensions df columns with
      | inl e => raised e
      | inr dims =>
          plot df {| px_kind := "scatter_matrix";
                     px_args := [("dimensions", VList dims); ("color", color);
                                 ("title", VStr "Pair Plot")] |}
               "pair_plot.html" "pair_plot"
      end
  end.

(** *** [custom_chart]: dispatch on [chart_config['type']] *)

(** Binding [**params] to a method signature: every required name must
    be given and no other name than the parameters may appear. *)
Definition binds (params : gmap string pyval) (required optional : list string) : bool :=
  forallb (fun k => bool_decide (is_Some (params !! k))) required &&
  forallb (fun k => existsb (String.eqb k) (required ++ optional))
          (map fst (map_to_list params)).

Definition call_with (params : gmap string pyval) (required optional : list string)
    (method : outcome) : outcome :=
  if binds params required optional then method else raised TypeError.

Definition chart_methods (st : state) (params : gmap string pyval)
    : list (string * outcome) :=
  [ ("bar", call_with params ["x"; "y"] ["title"; "color"; "orientation"]
              (bar_chart st (get params "x") (get params "y")
                 (get_or params "title" (VStr "Bar Chart")) (get params "color")
                 (get_or params "orientation" (VStr "v"))));
    ("line", call_with params ["x"; "y"] ["title"; "color"]
               (line_chart st (get params "x") (get params "y")
                  (get_or params "title" (VStr "Line Chart")) (get params "color")));
    ("scatter", call_with params ["x"; "y"] ["title"; "color"; "size"]
                  (scatter_plot st (get params "x") (get params "y")
                     (get_or params "title" (VStr "Scatter Plot"))
                     (get params "color") (get params "size")));
    ("histogram", call_with params ["column"] ["title"; "bins"; "color"]
                    (histogram st (get params "column")
                       (get_or params "title" (VStr "Histogram"))
                       (get_or params "bins" (VInt 30)) (get params "color")));
    ("box", call_with params ["y"] ["x"; "title"]
              (box_plot st (get params "y") (get params "x")
                 (get_or params "title" (VStr "Box Plot"))));
    ("heatmap", call_with params [] ["title"]
                  (heatmap st (get_or params "title" (VStr "Correlation Heatmap"))));
    ("pie", call_with params ["values"; "names"] ["title"]
              (pie_chart st (get params "values") (get params "names")
                 (get_or params "title" (VStr "Pie Chart")))) ].

(** A list is not hashable: looking it up in a dict raises. *)
Definition hashable (v : pyval) : bool :=
  match v with VList _ => false | _ => true end.

Definition custom_chart (st : state) (chart_config : gmap string pyval) : outcome :=
  match st with
  | None => no_data
  | Some _ =>
      let chart_type := get_or chart_config "type" (VStr "bar") in
      if negb (hashable chart_type) then raised TypeError
      else
        match chart_type with
        | VStr t =>
            match assoc t (chart_methods st (delete "type" chart_config)) with
            | Some result => result
            | None => (Failure (Msg ("Unknown chart type: " +:+ t)), [])
            end
        | other => (Failure (Msg ("Unknown chart type: " +:+ py_str other)), [])
        end
  end.

(** *** [run]: the string-keyed action table *)

Record kwargs := {
  kw_data : option DataFrame;
  kw_config : option (gmap string pyval);
  kw : gmap string pyval
}.

(** [run] returns the load acknowledgement or a chart. *)
Definition run_outcome : Type := envelope (option chart_report) * list px_call.

Definition drawn (o : outcome) : run_outcome :=
  (match fst o with
   | Success r => Success (Some r)
   | Failure e => Failure e
   end, snd o).

Definition actions (st : state) (k : kwargs) : list (string * (state * run_outcome)) :=
  let a := kw k in
  ("load", let r := load_data (kw_data k) in
           (fst r, (match snd r with
                    | Success _ => Success None
                    | Failure e => Failure e
                    end, [])))
  :: map (fun p => (fst p, (fst (snd p), drawn (snd (snd p)))))
  [ ("bar", (st, bar_chart st (get_or a "x" (VStr "")) (get_or a "y" (VStr ""))
                   (get_or a "title" (VStr "Bar Chart")) (get a "color")
                   (get_or a "orientation" (VStr "v"))));
    ("line", (st, line_chart st (get_or a "x" (VStr "")) (get_or a "y" (VStr ""))
                    (get_or a "title" (VStr "Line Chart")) (get a "color")));
    ("scatter", (st, scatter_plot st (get_or a "x" (VStr "")) (get_or a "y" (VStr ""))
                       (get_or a "title" (VStr "Scatter Plot"))
                       (get a "color") (get a "size")));
    ("histogram", (st, histogram st (get_or a "column" (VStr ""))
                         (get_or a "title" (VStr "Histogram"))
                         (get_or a "bins" (VInt 30)) (get a "color")));
    ("box", (st, box_plot st (get_or a "y" (VStr "")) (get a "x")
                   (get_or a "title" (VStr "Box Plot"))));
    ("heatmap", (st, heatmap st (get_or a "title" (VStr "Correlation Heatmap"))));
    ("pie", (st, pie_chart st (get_or a "values" (VStr "")) (get_or a "names" (VStr ""))
                   (get_or a "title" (VStr "Pie Chart"))));
    ("distribution", (st, distribution_plot st (get_or a "columns" (VList []))
                            (get_or a "title" (VStr "Distribution Plot"))));
    ("pair_plot", (st, pair_plot st (get a "columns") (get a "color")));
    ("custom", (st, custom_chart st (default ∅ (kw_config k)))) ].

Definition run (st : state) (action : string) (k : kwargs) : state * run_outcome :=
  match assoc action (actions st k) with
  | None => (st, (Failure (Msg ("Unknown action: " +:+ action)), []))
  | Some result => result
  end.

End WithPlotly.

End Chart.

(** ** [tools/pdf_loader_tool.py] *)

Module PDF.

Section WithReader.

(** [os.path.exists] and the PDF reader: for a path, either an
    exception (from opening the file or from extracting a page), or the
    extracted text of each page in order. *)
Variable path_exists : string -> bool.
Variable read_pages : string -> exn + list string.

(** [self.loaded_documents] *)
Definition state := gmap string string.

Record pdf_report := {
  pr_filename : string;
  pr_page_count : nat;
  pr_character_count : nat;
  pr_content : string
}.

Definition newline : string := String (Ascii.ascii_of_nat 10) EmptyString.

(** [os.path.basename]: what follows the last slash. *)
Fixpoint basename_from (acc s : string) : string :=
  match s with
  | EmptyString => acc
  | String c rest =>
      if Ascii.eqb c (Ascii.ascii_of_nat 47) then basename_from rest rest else basename_from acc rest
  end.

Definition basename (path : string) : string := basename_from path path.

(** The pages with text, each under its header; empty pages are
    skipped but keep their number. *)
Definition page_texts (pages : list string) : list string :=
  flat_map (fun p =>
              if String.eqb (snd p) "" then []
              else ["--- Page " +:+ pretty (S (fst p)) +:+ " ---"
                    +:+ newline +:+ snd p])
           (imap pair pages).

Definition load_pdf (st : state) (file_path : string) : state * envelope pdf_report :=
  if negb (path_exists file_path)
  then (st, Failure (Msg ("File not found: " +:+ file_path)))
  else
    match read_pages file_path with
    | inl e => (st, Failure (Raised e))
    | inr pages =>
        let full_text := String.concat (newline +:+ newline) (page_texts pages) in
        let filename := basename file_path in
        (<[filename := full_text]> st,
         Success {| pr_filename := filename;
                    pr_page_count := length pages;
                    pr_character_count := String.length full_text;
                    pr_content := full_text |})
    end.

Record file_result := {
  fr_file : string;
  fr_success : bool
}.

Record batch_report := {
  b_success : bool;
  b_total : nat;
  b_successful : nat;
  b_failed : nat;
  b_results : list file_result
}.

(** The loop state of [load_multiple_pdfs]. *)
Record batch := {
  docs : state;
  results : list file_result;
  successful : nat;
  failed : nat
}.

Definition batch_step (b : batch) (file_path : string) : batch :=
  let r := load_pdf (docs b) file_path in
  let ok := success (snd r) in
  {| docs := fst r;
     results := results b ++ [ {| fr_file := file_path; fr_success := ok |} ];
     successful := if ok then S (successful b) else successful b;
     failed := if ok then failed b else S (failed b) |}.

(** The aggregate is returned as a plain dict: its [success] entry is
    [failed == 0]. *)
Definition load_multiple_pdfs (st : state) (file_paths : list string)
    : state * batch_report :=
  let b := foldl batch_step
                 {| docs := st; results := []; successful := 0; failed := 0 |}
                 file_paths in
  (docs b,
   {| b_success := Nat.eqb (failed b) 0;
      b_total := length file_paths;
      b_successful := successful b;
      b_failed := failed b;
      b_results := results b |}).

(** Whether a file loads: this does not depend on the documents
    already held. *)
Definition loads (file_path : string) : bool :=
  success (snd (load_pdf ∅ file_path)).

Definition count_ok (l : list file_result) : nat :=
  length (List.filter fr_success l).

Definition count_failed (l : list file_result) : nat :=
  length (List.filter (fun r => negb (fr_success r)) l).

(** The loop invariant of [load_multiple_pdfs]: the two counters count
    the recorded results. *)
Definition consistent (b : batch) : Prop :=
  successful b = count_ok (results b) /\
  failed b = count_failed (results b).

End WithReader.

End PDF.

(** ** [tools/snowflake_tool.py] and [tools/sqlserver_tool.py] *)

Module Connectors.

Section WithDriver.

(** An open connection, and the driver: importing it may fail, and its
    [connect] either raises or returns a connection. *)
Variable connection : Type.
Variable driver_available : bool.
Variable driver_connect : list (string * pyval) -> exn + connection.

(** The connector object: [self.connection] and [self.config]. *)
Record tool := {
  conn : option connection;
  config : gmap string pyval
}.

(** What [connect] returns, the connector afterwards, and the calls to
    the driver, each with its keyword arguments. *)
Definition outcome : Type := tool * envelope unit * list (list (string * pyval)).

(** [config if config else self.config]: an empty dict is falsy. *)
Definition effective_config (t : tool) (cfg : option (gmap string pyval))
    : gmap string pyval :=
  match cfg with
  | Some c => if bool_decide (c = ∅) then config t else c
  | None => config t
  end.

(** [not conf.get(key)]: absent, [None] or empty. *)
Definition missing (conf : gmap string pyval) (key : string) : bool :=
  negb (truthy (get conf key)).

(** The keyword arguments [name=conf[key]]; a key that is not in the
    dict raises before the driver is called. *)
Fixpoint keyword_args (conf : gmap string pyval) (names : list (string * string))
    : option (list (string * pyval)) :=
  match names with
  | [] => Some []
  | (name, key) :: rest =>
      match conf !! key, keyword_args conf rest with
      | Some v, Some args => Some ((name, v) :: args)
      | _, _ => None
      end
  end.

Definition connect_with (required : string) (error_text : string)
    (names : list (string * string))
    (t : tool) (cfg : option (gmap string pyval)) : outcome :=
  if negb driver_available then (t, Failure (Raised ImportError), [])
  else
    let conn_config := effective_config t cfg in
    if missing conn_config required || missing conn_config "user"
    then (t, Failure (Msg error_text), [])
    else
      match keyword_args conn_config names with
      | None => (t, Failure (Raised KeyError), [])
      | Some args =>
          match driver_connect args with
          | inl e => (t, Failure (Raised e), [args])
          | inr c => ({| conn := Some c; config := config t |}, Success tt, [args])
          end
      end.

(** [SnowflakeTool.connect] *)
Definition snowflake_connect : tool -> option (gmap string pyval) -> outcome :=
  connect_with "account"
    "Missing required Snowflake configuration (account, user)"
    [("account", "account"); ("user", "user"); ("password", "password");
     ("warehouse", "warehouse"); ("database", "database"); ("schema", "schema")].

(** [SQLServerTool.connect] *)
Definition sqlserver_connect : tool -> option (gmap string pyval) -> outcome :=
  connect_with "host"
    "Missing required SQL Server configuration (host, user)"
    [("server", "host"); ("port", "port"); ("database", "database");
     ("user", "user"); ("password", "password")].

End WithDriver.

End Connectors.

(** ** [app/routes.py] *)

Module Routes.

(** *** [allowed_file] *)

(** [filename.rsplit('.', 1)[1]]: what follows the last dot, if there
    is a dot. *)
Fixpoint extension (filename : string) : option string :=
  match filename with
  | EmptyString => None
  | String c rest =>
      match extension rest with
      | Some e => Some e
      | None => if Ascii.eqb c (Ascii.ascii_of_nat 46) then Some rest else None
      end
  end.

(** [str.lower()] on ASCII letters. *)
Definition lower_char (c : Ascii.ascii) : Ascii.ascii :=
  let n := Ascii.nat_of_ascii c in
  if Nat.leb 65 n && Nat.leb n 90 then Ascii.ascii_of_nat (n + 32) else c.

Fixpoint lower (s : string) : string :=
  match s with
  | EmptyString => EmptyString
  | String c rest => String (lower_char c) (lower rest)
  end.

Definition allowed_file (filename : string) (allowed_extensions : list string) : bool :=
  match extension filename with
  | Some e => existsb (String.eqb (lower e)) allowed_extensions
  | None => false
  end.

Definition tabular_extensions : list string := ["csv"; "xlsx"; "xls"; "json"].

(** [str.endswith] *)
Definition endswith (s suffix : string) : bool :=
  let n := String.length s in
  let k := String.length suffix in
  Nat.leb k n && String.eqb (String.substring (n - k) k s) suffix.

(** An ASCII rendering of the upload library's [secure_filename]:
    characters outside ASCII are dropped (their normalisation is not
    modelled), slashes become blanks, blank-separated pieces are joined
    with underscores, every character outside [A-Za-z0-9_.-] is dropped
    and leading and trailing dots and underscores are stripped. *)
Definition is_ascii (c : Ascii.ascii) : bool :=
  Nat.ltb (Ascii.nat_of_ascii c) 128.

Definition is_blank (c : Ascii.ascii) : bool :=
  let n := Ascii.nat_of_ascii c in
  Nat.eqb n 32 || (Nat.leb 9 n && Nat.leb n 13) || Nat.eqb n 47.

Definition is_safe (c : Ascii.ascii) : bool :=
  let n := Ascii.nat_of_ascii c in
  (Nat.leb 65 n && Nat.leb n 90) || (Nat.leb 97 n && Nat.leb n 122)
  || (Nat.leb 48 n && Nat.leb n 57)
  || Nat.eqb n 95 || Nat.eqb n 46 || Nat.eqb n 45.

Definition is_dot_or_underscore (c : Ascii.ascii) : bool :=
  let n := Ascii.nat_of_ascii c in Nat.eqb n 46 || Nat.eqb n 95.

(** Blank runs collapse to one underscore between pieces. *)
Fixpoint join_pieces (pending started : bool) (l : list Ascii.ascii) : list Ascii.ascii :=
  match l with
  | [] => []
  | c :: rest =>
      if is_blank c then join_pieces started started rest
      else (if pending then [Ascii.ascii_of_nat 95] else [])
           ++ c :: join_pieces false true rest
  end.

Fixpoint lstrip (l : list Ascii.ascii) : list Ascii.ascii :=
  match l with
  | c :: rest => if is_dot_or_underscore c then lstrip rest else l
  | [] => []
  end.

Definition ascii_secure_filename (filename : string) : string :=
  let chars := String.list_ascii_of_string filename in
  let kept :=
    List.filter is_safe (join_pieces false false (List.filter is_ascii chars)) in
  String.string_of_list_ascii (rev (lstrip (rev (lstrip kept)))).

Record upload := {
  filename : string;
  content : string
}.

Record upload_report := {
  u_rows : nat;
  u_columns : list string;
  u_data : list (list (string * cell))
}.

(** The module-level objects of the routes: the global frame, the
    frame held by each tool, and the files on disk. *)
Record app := {
  current_dataframe : option DataFrame;
  eda_data : option DataFrame;
  chart_data : option DataFrame;
  report_data : option DataFrame;
  disk : gmap string string
}.

Section WithLibraries.

Variable secure_filename : string -> string.
Variable read_csv read_excel read_json : string -> exn + DataFrame.
Variable plotly : Chart.px_call -> string -> DataFrame -> exn + (string * string).

(** [file.save(filepath)] *)
Definition save (a : app) (filepath data : string) : app :=
  {| current_dataframe := current_dataframe a;
     eda_data := eda_data a;
     chart_data := chart_data a;
     report_data := report_data a;
     disk := <[filepath := data]> (disk a) |}.

(** The three [load_data] calls: each tool takes the frame, also when
    it is [None] (their failure envelopes are discarded). *)
Definition load_tools (a : app) (df : option DataFrame) : app :=
  {| current_dataframe := df;
     eda_data := df;
     chart_data := df;
     report_data := df;
     disk := disk a |}.

(** The reader chosen by the suffix of the sanitised name; no suffix
    matching leaves the global frame as it was. *)
Definition parse (a : app) (name data : string) : exn + option DataFrame :=
  let read (reader : string -> exn + DataFrame) :=
    match reader data with
    | inl e => inl e
    | inr df => inr (Some df)
    end in
  if endswith name ".csv" then read read_csv
  else if endswith name ".xlsx" || endswith name ".xls" then read read_excel
  else if endswith name ".json" then read read_json
  else inr (current_dataframe a).

(** [data_upload]; [file] is [request.files.get('file')]. *)
Definition data_upload (a : app) (file : option upload)
    : app * envelope upload_report :=
  match file with
  | None => (a, Failure (Msg "No file provided"))
  | Some f =>
      if String.eqb (filename f) ""
      then (a, Failure (Msg "No file selected"))
      else if negb (allowed_file (filename f) tabular_extensions)
      then (a, Failure (Msg "Only CSV, Excel, and JSON files are allowed"))
      else
        let name := secure_filename (filename f) in
        let a1 := save a ("uploads/" +:+ name) (content f) in
        match parse a1 name (content f) with
        | inl e => (a1, Failure (Raised e))
        | inr current =>
            let a2 := load_tools a1 current in
            match current with
            | None => (a2, Failure (Raised TypeError))
            | Some df =>
                (a2, Success {| u_rows := df_len df;
                                u_columns := column_names df;
                                u_data := head_records df 100 |})
            end
        end
  end.

(** *** [chart_create] *)

Definition chart_methods (st : Chart.state) (data : gmap string pyval)
    : list (string * Chart.outcome) :=
  [ ("bar", Chart.bar_chart plotly st (get data "x") (get data "y")
              (get_or data "title" (VStr "Bar Chart")) (get data "color")
              (get_or data "orientation" (VStr "v")));
    ("line", Chart.line_chart plotly st (get data "x") (get data "y")
               (get_or data "title" (VStr "Line Chart")) (get data "color"));
    ("scatter", Chart.scatter_plot plotly st (get data "x") (get data "y")
                  (get_or data "title" (VStr "Scatter Plot"))
                  (get data "color") (get data "size"));
    ("histogram", Chart.histogram plotly st (get data "column")
                    (get_or data "title" (VStr "Histogram"))
                    (get_or data "bins" (VInt 30)) (get data "color"));
    ("box", Chart.box_plot plotly st (get data "y") (get data "x")
              (get_or data "title" (VStr "Box Plot")));
    ("heatmap", Chart.heatmap plotly st
                  (get_or data "title" (VStr "Correlation Heatmap")));
    ("pie", Chart.pie_chart plotly st (get data "values") (get data "names")
              (get_or data "title" (VStr "Pie Chart")));
    ("distribution", Chart.distribution_plot plotly st
                       (get_or data "columns" (VList []))
                       (get_or data "title" (VStr "Distribution Plot")));
    ("pair_plot", Chart.pair_plot plotly st (get data "columns") (get data "color")) ].

(** The handler has no try block: the membership test on an unhashable
    [type] raises out of it. *)
Definition chart_create (st : Chart.state) (data : gmap string pyval)
    : response Chart.chart_report * list Chart.px_call :=
  let chart_type := get_or data "type" (VStr "bar") in
  if negb (Chart.hashable chart_type) then (Uncaught TypeError, [])
  else
    match chart_type with
    | VStr t =>
        match assoc t (chart_methods st data) with
        | Some result => (Json (fst result), snd result)
        | None => (Json (Failure (Msg ("Unknown chart type: " +:+ t))), [])
        end
    | other =>
        (Json (Failure (Msg ("Unknown chart type: " +:+ py_str other))), [])
    end.

End WithLibraries.

End Routes.

(** ** Example data *)

Module Examples.

Definition prices : DataFrame :=
  {| df_columns :=
       [("price", NumCol [Some 1%Q; Some 1%Q; Some 1%Q; Some 1%Q; Some 5%Q]);
        ("qty", NumCol [Some 4%Q; Some 2%Q; Some 3%Q; Some 1%Q; Some 10%Q]);
        ("city", ObjCol [Some "Oslo"; Some "Rome"; None; Some "Oslo"; Some "Oslo"])];
     df_len := 5 |}.

Definition seven_columns : DataFrame :=
  {| df_columns := map (fun n => (n, NumCol [Some 1%Q; Some 2%Q]))
                       ["a"; "b"; "c"; "d"; "e"; "f"; "g"];
     df_len := 2 |}.

Definition one_row : DataFrame :=
  {| df_columns := [("id", NumCol [Some 7%Q])]; df_len := 1 |}.

(** Two measurements far apart, and two close together. *)
Definition far_apart : DataFrame :=
  {| df_columns := [("mass", NumCol [Some 0%Q; Some (inject_Z (10 ^ 80))])];
     df_len := 2 |}.

Definition close_together : DataFrame :=
  {| df_columns := [("mass", NumCol [Some 0%Q; Some (1 / inject_Z (10 ^ 90))%Q])];
     df_len := 2 |}.

(** Stand-ins for the libraries. *)
Definition no_kendall : list Q -> list Q -> float := fun _ _ => NaN.

Definition no_plotly : Chart.px_call -> string -> DataFrame -> exn + (string * string) :=
  fun _ _ _ => inl LibraryError.

Definition draw_anything : Chart.px_call -> string -> DataFrame -> exn + (string * string) :=
  fun _ name _ => inr ("static/charts/" +:+ name, "{}").

Definition read_one_row : string -> exn + DataFrame := fun _ => inr one_row.

Definition eda_kwargs : EDA.kwargs :=
  {| EDA.kw_data := None; EDA.kw_columns := None; EDA.kw_method := None;
     EDA.kw_column := None; EDA.kw_top_n := None |}.

Definition chart_kwargs : Chart.kwargs :=
  {| Chart.kw_data := None; Chart.kw_config := None; Chart.kw := ∅ |}.

Definition prices_loaded : Routes.app :=
  {| Routes.current_dataframe := Some prices;
     Routes.eda_data := Some prices;
     Routes.chart_data := Some prices;
     Routes.report_data := Some prices;
     Routes.disk := ∅ |}.

Definition upper_case_upload : Routes.upload :=
  {| Routes.filename := "DATA.CSV"; Routes.content := "id" |}.

End Examples.
Export Examples.

(** ** Frames of a regular shape *)

Module Shape.

Definition column_length (c : column) : nat := length (cells c).

(** Every column has one cell per row, as in every frame the dataframe
    library builds. *)
Definition well_formed (df : DataFrame) : Prop :=
  Forall (fun p => column_length (snd p) = df_len df) (df_columns df).

(** Entries in non-increasing order of their counts. *)
Definition by_count (a b : cell * nat) : Prop := snd b <= snd a.

End Shape.

(** ** [tools/chart_tool.py]: the signatures of the chart methods *)

Module Signatures.

(** For each chart type of [custom_chart], the parameters its method
    requires and those with a default. *)
Definition parameters : list (string * (list string * list string)) :=
  [ ("bar", (["x"; "y"], ["title"; "color"; "orientation"]));
    ("line", (["x"; "y"], ["title"; "color"]));
    ("scatter", (["x"; "y"], ["title"; "color"; "size"]));
    ("histogram", (["column"], ["title"; "bins"; "color"]));
    ("box", (["y"], ["x"; "title"]));
    ("heatmap", ([], ["title"]));
    ("pie", (["values"; "names"], ["title"])) ].

End Signatures.

(** ** [tools/pdf_loader_tool.py]: the documents in their order *)

(** [loaded_documents] is a dict: besides the map from names to texts
    that [PDF.state] keeps, it remembers the order in which the names
    were first stored, which [get_loaded_documents] and
    [get_combined_context] show. *)

Module Documents.

Definition documents := list (string * string).

(** [d[name] = text]: a name already there keeps its place. *)
Fixpoint store (name text : string) (docs : documents) : documents :=
  match docs with
  | [] => [(name, text)]
  | (k, v) :: rest =>
      if String.eqb k name then (k, text) :: rest
      else (k, v) :: store name text rest
  end.

(** The dict without its order. *)
Definition view (docs : documents) : gmap string string := list_to_map docs.

Record listing := {
  l_documents : list string;
  l_count : nat
}.

Record content_report := {
  c_filename : string;
  c_content : string;
  c_character_count : nat
}.

Record context_report := {
  x_documents_included : list string;
  x_content : string;
  x_character_count : nat
}.

Section WithReader.

Variable path_exists : string -> bool.
Variable read_pages : string -> exn + list string.

Definition load_pdf (docs : documents) (file_path : string)
    : documents * envelope PDF.pdf_report :=
  if negb (path_exists file_path)
  then (docs, Failure (Msg ("File not found: " +:+ file_path)))
  else
    match read_pages file_path with
    | inl e => (docs, Failure (Raised e))
    | inr pages =>
        let full_text :=
          String.concat (PDF.newline +:+ PDF.newline) (PDF.page_texts pages) in
        let filename := PDF.basename file_path in
        (store filename full_text docs,
         Success {| PDF.pr_filename := filename;
                    PDF.pr_page_count := length pages;
                    PDF.pr_character_count := String.length full_text;
                    PDF.pr_content := full_text |})
    end.

(** The loop state of [load_multiple_pdfs]. *)
Record batch := {
  docs : documents;
  results : list PDF.file_result;
  successful : nat;
  failed : nat
}.

Definition batch_step (b : batch) (file_path : string) : batch :=
  let r := load_pdf (docs b) file_path in
  let ok := success (snd r) in
  {| docs := fst r;
     results := results b
                ++ [ {| PDF.fr_file := file_path; PDF.fr_success := ok |} ];
     successful := if ok then S (successful b) else successful b;
     failed := if ok then failed b else S (failed b) |}.

Definition load_multiple_pdfs (d : documents) (file_paths : list string)
    : documents * PDF.batch_report :=
  let b := foldl batch_step
                 {| docs := d; results := []; successful := 0; failed := 0 |}
                 file_paths in
  (docs b,
   {| PDF.b_success := Nat.eqb (failed b) 0;
      PDF.b_total := length file_paths;
      PDF.b_successful := successful b;
      PDF.b_failed := failed b;
      PDF.b_results := results b |}).

Definition get_loaded_documents (d : documents) : envelope listing :=
  Success {| l_documents := map fst d; l_count := length d |}.

Definition get_document_content (d : documents) (filename : string)
    : envelope content_report :=
  match assoc filename d with
  | None => Failure (Msg ("Document not loaded: " +:+ filename))
  | Some content =>
      Success {| c_filename := filename;
                 c_content := content;
                 c_character_count := String.length content |}
  end.

(** [{k: v for k, v in d.items() if k in filenames}] when [filenames]
    is truthy, the whole dict otherwise.  [k in filenames] looks for an
    item in a list and for a substring in a string; on a number it
    raises, when there is a document to test. *)
Definition docs_to_combine (d : documents) (filenames : pyval) : exn + documents :=
  if truthy filenames then
    match filenames with
    | VList l => inr (List.filter (fun p => existsb (String.eqb (fst p)) l) d)
    | VStr s => inr (List.filter (fun p => contains (fst p) s) d)
    | _ => match d with [] => inr [] | _ => inl TypeError end
    end
  else inr d.

Definition combined_part (p : string * string) : string :=
  "=== Document: " +:+ fst p +:+ " ===" +:+ PDF.newline +:+ snd p.

Definition get_combined_context (d : documents) (filenames : pyval)
    : envelope context_report :=
  match docs_to_combine d filenames with
  | inl e => Failure (Raised e)
  | inr [] => Failure (Msg "No documents available to combine")
  | inr chosen =>
      let combined_content :=
        String.concat (PDF.newline +:+ PDF.newline) (map combined_part chosen) in
      Success {| x_documents_included := map fst chosen;
                 x_content := combined_content;
                 x_character_count := String.length combined_content |}
  end.

Definition clear_documents (d : documents) : documents * envelope unit :=
  ([], Success tt).

(** *** [run] *)

Record kwargs := {
  kw_file_path : option string;
  kw_file_paths : option (list string);
  kw_filename : option string;
  kw_filenames : pyval
}.

(** What the actions return. *)
Inductive reply :=
  | Loaded (r : envelope PDF.pdf_report)
  | Batch (r : PDF.batch_report)
  | Listed (r : envelope listing)
  | Content (r : envelope content_report)
  | Context (r : envelope context_report)
  | Cleared (r : envelope unit)
  | Refused (err : error).

(** The [success] entry of a reply. *)
Definition succeeded (r : reply) : bool :=
  match r with
  | Loaded e => success e
  | Batch b => PDF.b_success b
  | Listed e => success e
  | Content e => success e
  | Context e => success e
  | Cleared e => success e
  | Refused _ => false
  end.

Definition actions (d : documents) (k : kwargs) : list (string * (documents * reply)) :=
  [ ("load", let r := load_pdf d (default "" (kw_file_path k)) in
             (fst r, Loaded (snd r)));
    ("load_multiple",
     let r := load_multiple_pdfs d (default [] (kw_file_paths k)) in
     (fst r, Batch (snd r)));
    ("list", (d, Listed (get_loaded_documents d)));
    ("get_content",
     (d, Content (get_document_content d (default "" (kw_filename k)))));
    ("get_context", (d, Context (get_combined_context d (kw_filenames k))));
    ("clear", let r := clear_documents d in (fst r, Cleared (snd r))) ].

Definition run (d : documents) (action : string) (k : kwargs) : documents * reply :=
  match assoc action (actions d k) with
  | None => (d, Refused (Msg ("Unknown action: " +:+ action)))
  | Some result => result
  end.

End WithReader.

End Documents.

(** ** [tools/snowflake_tool.py] and [tools/sqlserver_tool.py]: queries *)

Module Queries.

Inductive connector := Snowflake | SQLServer.

(** What the driver is asked to do. *)
Inductive event :=
  | Connected (args : list (string * pyval))
  | Queried (query : string)
  | Closed.

Record query_report := {
  q_data : DataFrame;
  q_row_count : nat;
  q_columns : list string
}.

Definition nl : string := PDF.newline.
Definition indent12 : string := "            ".
Definition indent16 : string := "                ".
Definition indent20 : string := "                    ".

Section WithDriver.

Variable connection : Type.
Variable driver_available : bool.
Variable driver_connect : list (string * pyval) -> exn + connection.

(** Running a query on an open connection: the cursor, [execute], the
    column names of [description], [fetchall] and the frame built from
    the rows; whatever raises on the way is one exception. *)
Variable driver_query : connection -> string -> exn + DataFrame.

(** [connection.close()], which may raise. *)
Variable driver_close : connection -> option exn.

Local Abbreviation tool := (Connectors.tool connection).

Definition outcome (A : Type) : Type := tool * envelope A * list event.

Definition connect (k : connector) (t : tool) (cfg : option (gmap string pyval))
    : outcome unit :=
  let r :=
    match k with
    | Snowflake =>
        Connectors.snowflake_connect connection driver_available driver_connect t cfg
    | SQLServer =>
        Connectors.sqlserver_connect connection driver_available driver_connect t cfg
    end in
  (fst (fst r), snd (fst r), map Connected (snd r)).

Definition disconnect (t : tool) : outcome unit :=
  match Connectors.conn connection t with
  | None => (t, Success tt, [])
  | Some c =>
      match driver_close c with
      | Some e => (t, Failure (Raised e), [Closed])
      | None =>
          ({| Connectors.conn := None;
              Connectors.config := Connectors.config connection t |},
           Success tt, [Closed])
      end
  end.

(** The part of [execute_query] after the connection test. *)
Definition fetch (t : tool) (query : string) (log : list event)
    : outcome query_report :=
  match Connectors.conn connection t with
  | None => (t, Failure (Raised AttributeError), log)
  | Some c =>
      match driver_query c query with
      | inl e => (t, Failure (Raised e), log ++ [Queried query])
      | inr df =>
          (t, Success {| q_data := df;
                         q_row_count := df_len df;
                         q_columns := column_names df |},
           log ++ [Queried query])
      end
  end.

Definition execute_query (k : connector) (t : tool) (query : string)
    : outcome query_report :=
  match Connectors.conn connection t with
  | Some _ => fetch t query []
  | None =>
      let connect_result := connect k t None in
      match snd (fst connect_result) with
      | Failure e => (fst (fst connect_result), Failure e, snd connect_result)
      | Success _ => fetch (fst (fst connect_result)) query (snd connect_result)
      end
  end.

(** [value or self.config[key]]; a key that is not in the dict raises. *)
Definition or_config (t : tool) (value : pyval) (key : string) : option pyval :=
  if truthy value then Some value else Connectors.config connection t !! key.

Definition snowflake_tables_query (db sch : pyval) : string :=
  nl +:+ indent16 +:+ "SELECT TABLE_NAME, TABLE_TYPE, ROW_COUNT, CREATED"
  +:+ nl +:+ indent16 +:+ "FROM " +:+ py_str db +:+ ".INFORMATION_SCHEMA.TABLES"
  +:+ nl +:+ indent16 +:+ "WHERE TABLE_SCHEMA = '" +:+ py_str sch +:+ "'"
  +:+ nl +:+ indent16 +:+ "ORDER BY TABLE_NAME"
  +:+ nl +:+ indent12.

Definition sqlserver_tables_query : string :=
  nl +:+ indent16 +:+ "SELECT "
  +:+ nl +:+ indent20 +:+ "TABLE_SCHEMA,"
  +:+ nl +:+ indent20 +:+ "TABLE_NAME,"
  +:+ nl +:+ indent20 +:+ "TABLE_TYPE"
  +:+ nl +:+ indent16 +:+ "FROM INFORMATION_SCHEMA.TABLES"
  +:+ nl +:+ indent16 +:+ "WHERE TABLE_TYPE = 'BASE TABLE'"
  +:+ nl +:+ indent16 +:+ "ORDER BY TABLE_SCHEMA, TABLE_NAME"
  +:+ nl +:+ indent12.

Definition get_tables (k : connector) (t : tool) (database schema : pyval)
    : outcome query_report :=
  match k with
  | Snowflake =>
      match or_config t database "database", or_config t schema "schema" with
      | Some db, Some sch => execute_query k t (snowflake_tables_query db sch)
      | _, _ => (t, Failure (Raised KeyError), [])
      end
  | SQLServer => execute_query k t sqlserver_tables_query
  end.

Definition snowflake_schema_query (table_name : pyval) : string :=
  nl +:+ indent16 +:+ "SELECT COLUMN_NAME, DATA_TYPE, IS_NULLABLE, COLUMN_DEFAULT"
  +:+ nl +:+ indent16 +:+ "FROM INFORMATION_SCHEMA.COLUMNS"
  +:+ nl +:+ indent16 +:+ "WHERE TABLE_NAME = '" +:+ py_str table_name +:+ "'"
  +:+ nl +:+ indent16 +:+ "ORDER BY ORDINAL_POSITION"
  +:+ nl +:+ indent12.

Definition sqlserver_schema_query (table_name schema : pyval) : string :=
  nl +:+ indent16 +:+ "SELECT "
  +:+ nl +:+ indent20 +:+ "COLUMN_NAME,"
  +:+ nl +:+ indent20 +:+ "DATA_TYPE,"
  +:+ nl +:+ indent20 +:+ "CHARACTER_MAXIMUM_LENGTH,"
  +:+ nl +:+ indent20 +:+ "IS_NULLABLE,"
  +:+ nl +:+ indent20 +:+ "COLUMN_DEFAULT"
  +:+ nl +:+ indent16 +:+ "FROM INFORMATION_SCHEMA.COLUMNS"
  +:+ nl +:+ indent16 +:+ "WHERE TABLE_NAME = '" +:+ py_str table_name +:+ "'"
  +:+ nl +:+ indent16 +:+ "AND TABLE_SCHEMA = '" +:+ py_str schema +:+ "'"
  +:+ nl +:+ indent16 +:+ "ORDER BY ORDINAL_POSITION"
  +:+ nl +:+ indent12.

(** The SQL Server tool takes the schema as a second argument, [dbo]
    by default; the Snowflake tool has no such argument. *)
Definition get_table_schema (k : connector) (t : tool) (table_name schema : pyval)
    : outcome query_report :=
  execute_query k t
    match k with
    | Snowflake => snowflake_schema_query table_name
    | SQLServer => sqlserver_schema_query table_name schema
    end.

Definition preview_query (k : connector) (table_name schema limit : pyval) : string :=
  match k with
  | Snowflake =>
      "SELECT * FROM " +:+ py_str table_name +:+ " LIMIT " +:+ py_str limit
  | SQLServer =>
      "SELECT TOP " +:+ py_str limit +:+ " * FROM [" +:+ py_str schema
      +:+ "].[" +:+ py_str table_name +:+ "]"
  end.

Definition preview_table (k : connector) (t : tool) (table_name schema limit : pyval)
    : outcome query_report :=
  execute_query k t (preview_query k table_name schema limit).

(** *** [run] *)

Record kwargs := {
  kw_query : option string;
  kw : gmap string pyval
}.

Definition acknowledged (o : outcome unit) : outcome (option query_report) :=
  (fst (fst o),
   match snd (fst o) with
   | Success _ => Success None
   | Failure e => Failure e
   end,
   snd o).

Definition retrieved (o : outcome query_report) : outcome (option query_report) :=
  (fst (fst o),
   match snd (fst o) with
   | Success r => Success (Some r)
   | Failure e => Failure e
   end,
   snd o).

Definition actions (k : connector) (t : tool) (a : kwargs)
    : list (string * outcome (option query_report)) :=
  [ ("connect", acknowledged (connect k t None));
    ("disconnect", acknowledged (disconnect t));
    ("query", retrieved (execute_query k t (default "" (kw_query a))));
    ("tables",
     retrieved (get_tables k t (get (kw a) "database") (get (kw a) "schema")));
    ("schema",
     retrieved (get_table_schema k t (get_or (kw a) "table_name" (VStr ""))
                  (get_or (kw a) "schema" (VStr "dbo"))));
    ("preview",
     retrieved (preview_table k t (get_or (kw a) "table_name" (VStr ""))
                  (get_or (kw a) "schema" (VStr "dbo"))
                  (get_or (kw a) "limit" (VInt 100)))) ].

Definition run (k : connector) (t : tool) (action : string) (a : kwargs)
    : outcome (option query_report) :=
  match assoc action (actions k t a) with
  | None => (t, Failure (Msg ("Unknown action: " +:+ action)), [])
  | Some result => result
  end.

End WithDriver.

End Queries.

(** ** [app/routes.py]: the handlers around the tools *)

Module Handlers.

Import Queries.

Record query_response := {
  qs_data : list (list (string * cell));
  qs_row_count : nat;
  qs_columns : list string
}.

(** The three tools analyse the frame the routes call current. *)
Definition in_sync (a : Routes.app) : Prop :=
  Routes.eda_data a = Routes.current_dataframe a /\
  Routes.chart_data a = Routes.current_dataframe a /\
  Routes.report_data a = Routes.current_dataframe a.

(** The configuration the connect routes build from the JSON body. *)
Definition connect_config (k : connector) (data : gmap string pyval)
    : gmap string pyval :=
  match k with
  | Snowflake =>
      {[ "account" := get_or data "account" (VStr "");
         "user" := get_or data "user" (VStr "");
         "password" := get_or data "password" (VStr "");
         "warehouse" := get_or data "warehouse" (VStr "");
         "database" := get_or data "database" (VStr "");
         "schema" := get_or data "schema" (VStr "") ]}
  | SQLServer =>
      {[ "host" := get_or data "host" (VStr "");
         "port" := get_or data "port" (VStr "1433");
         "database" := get_or data "database" (VStr "");
         "user" := get_or data "user" (VStr "");
         "password" := get_or data "password" (VStr "") ]}
  end.

Section WithLibraries.

(** Each connector has its own driver. *)
Variable connection : Type.
Variable driver_available : connector -> bool.
Variable driver_connect : connector -> list (string * pyval) -> exn + connection.
Variable driver_query : connector -> connection -> string -> exn + DataFrame.

Variable secure_filename : string -> string.
Variable read_csv read_excel read_json : string -> exn + DataFrame.

(** The PDF reader on the contents of a file. *)
Variable parse_pdf : string -> exn + list string.

Variable sqrt : Q -> Q.
Variable kendalltau : list Q -> list Q -> float.

(** [int(text)] *)
Variable py_int : string -> option Z.

Local Abbreviation tool := (Connectors.tool connection).

(** The module-level objects of the routes. *)
Record site := {
  app : Routes.app;
  snowflake_tool : tool;
  sqlserver_tool : tool;
  pdf_tool : Documents.documents
}.

Definition the_tool (k : connector) (s : site) : tool :=
  match k with
  | Snowflake => snowflake_tool s
  | SQLServer => sqlserver_tool s
  end.

Definition with_tool (k : connector) (s : site) (t : tool) : site :=
  match k with
  | Snowflake =>
      {| app := app s; snowflake_tool := t;
         sqlserver_tool := sqlserver_tool s; pdf_tool := pdf_tool s |}
  | SQLServer =>
      {| app := app s; snowflake_tool := snowflake_tool s;
         sqlserver_tool := t; pdf_tool := pdf_tool s |}
  end.

Definition with_app (s : site) (a : Routes.app) : site :=
  {| app := a; snowflake_tool := snowflake_tool s;
     sqlserver_tool := sqlserver_tool s; pdf_tool := pdf_tool s |}.

Definition with_documents (s : site) (d : Documents.documents) : site :=
  {| app := app s; snowflake_tool := snowflake_tool s;
     sqlserver_tool := sqlserver_tool s; pdf_tool := d |}.

(** *** [snowflake_connect], [sqlserver_connect] *)

Definition connect_route (k : connector) (s : site) (data : gmap string pyval)
    : site * response unit * list event :=
  let result :=
    Queries.connect connection (driver_available k) (driver_connect k)
      k (the_tool k s) (Some (connect_config k data)) in
  (with_tool k s (fst (fst result)), Json (snd (fst result)), snd result).

(** *** [snowflake_query], [sqlserver_query] *)

Definition query_route (k : connector) (s : site) (query : option string)
    : site * response query_response * list event :=
  let result :=
    Queries.execute_query connection (driver_available k) (driver_connect k)
      (driver_query k) k (the_tool k s) (default "" query) in
  let s1 := with_tool k s (fst (fst result)) in
  match snd (fst result) with
  | Success r =>
      (with_app s1 (Routes.load_tools (app s1) (Some (q_data r))),
       Json (Success {| qs_data := head_records (q_data r) 100;
                        qs_row_count := q_row_count r;
                        qs_columns := column_names (q_data r) |}),
       snd result)
  | Failure e => (s1, Json (Failure e), snd result)
  end.

(** *** [snowflake_tables], [sqlserver_tables] *)

Definition tables_route (k : connector) (s : site)
    : site * response query_response * list event :=
  let result :=
    Queries.get_tables connection (driver_available k) (driver_connect k)
      (driver_query k) k (the_tool k s) VNone VNone in
  (with_tool k s (fst (fst result)),
   Json match snd (fst result) with
        | Success r =>
            Success {| qs_data := rows (q_data r);
                       qs_row_count := q_row_count r;
                       qs_columns := q_columns r |}
        | Failure e => Failure e
        end,
   snd result).

(** *** The PDF routes *)

(** [os.path.exists] and the reader, on the files the routes saved. *)
Definition on_disk (a : Routes.app) (path : string) : bool :=
  bool_decide (is_Some (Routes.disk a !! path)).

Definition read_from_disk (a : Routes.app) (path : string) : exn + list string :=
  match Routes.disk a !! path with
  | Some data => parse_pdf data
  | None => inl LibraryError
  end.

Definition pdf_upload (s : site) (file : option Routes.upload)
    : site * response PDF.pdf_report :=
  match file with
  | None => (s, Json (Failure (Msg "No file provided")))
  | Some f =>
      if String.eqb (Routes.filename f) ""
      then (s, Json (Failure (Msg "No file selected")))
      else if negb (Routes.allowed_file (Routes.filename f) ["pdf"])
      then (s, Json (Failure (Msg "Only PDF files are allowed")))
      else
        let filename := secure_filename (Routes.filename f) in
        let filepath := "uploads/" +:+ filename in
        let a1 := Routes.save (app s) filepath (Routes.content f) in
        let result :=
          Documents.load_pdf (on_disk a1) (read_from_disk a1) (pdf_tool s) filepath in
        (with_documents (with_app s a1) (fst result), Json (snd result))
  end.

Definition pdf_list (s : site) : response Documents.listing :=
  Json (Documents.get_loaded_documents (pdf_tool s)).

(** [filenames if filenames else None] *)
Definition pdf_context (s : site) (files : list string)
    : response Documents.context_report :=
  Json (Documents.get_combined_context (pdf_tool s)
          match files with [] => VNone | _ => VList files end).

Definition pdf_clear (s : site) : site * response unit :=
  let result := Documents.clear_documents (pdf_tool s) in
  (with_documents s (fst result), Json (snd result)).

(** *** [data_upload], [data_current] *)

Definition data_upload (s : site) (file : option Routes.upload)
    : site * response Routes.upload_report :=
  let result :=
    Routes.data_upload secure_filename read_csv read_excel read_json (app s) file in
  (with_app s (fst result), Json (snd result)).

(** The entry [dtypes] is not modelled. *)
Definition data_current (s : site) : response Routes.upload_report :=
  match Routes.current_dataframe (app s) with
  | None => Json (Failure (Msg "No data loaded"))
  | Some df =>
      Json (Success {| Routes.u_rows := df_len df;
                       Routes.u_columns := column_names df;
                       Routes.u_data := head_records df 100 |})
  end.

(** *** The analysis routes *)

Definition eda_info (s : site) : response EDA.basic_info :=
  Json (EDA.get_basic_info (Routes.eda_data (app s))).

(** [columns if columns else None] *)
Definition eda_statistics (s : site) (columns : list string)
    : response EDA.statistics_report :=
  Json (EDA.get_statistics sqrt (Routes.eda_data (app s))
          match columns with [] => None | _ => Some columns end).

Definition eda_correlations (s : site) (method : option string)
    : response EDA.correlation_report :=
  Json (EDA.get_correlations sqrt kendalltau (Routes.eda_data (app s))
          (default "pearson" method)).

(** [int(...)] is outside any try block. *)
Definition eda_value_counts (s : site) (column top_n : option string)
    : response EDA.value_counts_report :=
  match match top_n with None => Some 10%Z | Some text => py_int text end with
  | None => Uncaught ValueError
  | Some n =>
      Json (EDA.get_value_counts (Routes.eda_data (app s)) (default "" column) n)
  end.

Definition eda_outliers (s : site) (column method : option string)
    : response EDA.outlier_report :=
  Json (EDA.detect_outliers sqrt (Routes.eda_data (app s))
          (default "" column) (default "iqr" method)).

Definition eda_quality (s : site) : response EDA.quality_report :=
  Json (EDA.get_data_quality_report (Routes.eda_data (app s))).

Definition eda_full_report (s : site) : response EDA.full_report :=
  Json (EDA.get_full_eda_report sqrt kendalltau (Routes.eda_data (app s))).

(** *** The requests that change the module-level objects *)

Inductive request :=
  | Connect (k : connector) (data : gmap string pyval)
  | Query (k : connector) (query : option string)
  | Tables (k : connector)
  | PdfUpload (file : option Routes.upload)
  | PdfClear
  | DataUpload (file : option Routes.upload).

Definition serve (s : site) (r : request) : site :=
  match r with
  | Connect k data => fst (fst (connect_route k s data))
  | Query k query => fst (fst (query_route k s query))
  | Tables k => fst (fst (tables_route k s))
  | PdfUpload file => fst (pdf_upload s file)
  | PdfClear => fst (pdf_clear s)
  | DataUpload file => fst (data_upload s file)
  end.

(** The objects as the module creates them; the connectors take their
    configuration from the environment. *)
Definition start (snowflake_env sqlserver_env : gmap string pyval) : site :=
  {| app := {| Routes.current_dataframe := None;
               Routes.eda_data := None;
               Routes.chart_data := None;
               Routes.report_data := None;
               Routes.disk := ∅ |};
     snowflake_tool := {| Connectors.conn := None;
                          Connectors.config := snowflake_env |};
     sqlserver_tool := {| Connectors.conn := None;
                          Connectors.config := sqlserver_env |};
     pdf_tool := [] |}.

(** What holds of the objects whatever requests were served: the tools
    hold the current frame, no document is listed twice, and the
    connectors keep the configuration they started with. *)
Definition steady (snowflake_env sqlserver_env : gmap string pyval) (s : site) : Prop :=
  in_sync (app s) /\
  List.NoDup (map fst (pdf_tool s)) /\
  Connectors.config connection (snowflake_tool s) = snowflake_env /\
  Connectors.config connection (sqlserver_tool s) = sqlserver_env.

End WithLibraries.

End Handlers.

(** ** Further example data *)

Module Samples.

(** A frame without numeric columns. *)
Definition cities : DataFrame :=
  {| df_columns := [("city", ObjCol [Some "Oslo"; Some "Rome"; None])];
     df_len := 3 |}.

(** A frame with one label used twice. *)
Definition twins : DataFrame :=
  {| df_columns := [("a", ObjCol [Some "x"]); ("a", ObjCol [Some "y"])];
     df_len := 1 |}.

(** A numeric column without spread. *)
Definition flat : DataFrame :=
  {| df_columns := [("level", NumCol [Some 2%Q; Some 2%Q; None; Some 2%Q])];
     df_len := 4 |}.

(** A disk without [missing.pdf], and a reader that fails on
    [torn.pdf] and finds three pages, the second one empty, in every
    other file. *)
Definition on_disk : string -> bool :=
  fun p => negb (String.eqb p "missing.pdf").

Definition three_pages : string -> exn + list string :=
  fun p => if String.eqb p "torn.pdf" then inl LibraryError
           else inr ["one"; ""; "three"].

Definition shelf : Documents.documents :=
  [("a.pdf", "first"); ("b.pdf", "second")].

Definition pdf_kwargs : Documents.kwargs :=
  {| Documents.kw_file_path := None; Documents.kw_file_paths := None;
     Documents.kw_filename := None; Documents.kw_filenames := VNone |}.

(** A driver that connects at once, answers every query but the empty
    one with one row, and closes without complaint. *)
Definition connect_at_once : list (string * pyval) -> exn + unit :=
  fun _ => inr tt.

Definition answer_one_row : unit -> string -> exn + DataFrame :=
  fun _ query => if String.eqb query "" then inl LibraryError else inr one_row.

Definition close_quietly : unit -> option exn := fun _ => None.

Definition settings : gmap string pyval :=
  {[ "account" := VStr "acme"; "host" := VStr "db.local"; "port" := VStr "1433";
     "user" := VStr "analyst"; "password" := VStr "secret";
     "warehouse" := VStr "main"; "database" := VStr "sales";
     "schema" := VStr "public" ]}.

Definition offline : Connectors.tool unit :=
  {| Connectors.conn := None; Connectors.config := settings |}.

Definition online : Connectors.tool unit :=
  {| Connectors.conn := Some tt; Connectors.config := settings |}.

Definition query_kwargs : Queries.kwargs :=
  {| Queries.kw_query := Some "SELECT 1"; Queries.kw := ∅ |}.

(** A reader that finds one page holding the whole file, unless the
    file is empty. *)
Definition one_page : string -> exn + list string :=
  fun data => if String.eqb data "" then inl LibraryError else inr [data].

(** The objects of the routes before any request, with both drivers
    installed. *)
Definition fresh : Handlers.site unit := Handlers.start unit settings settings.

End Samples.
Export Samples.

(** * Properties *)

(** * The model on small inputs *)

Section Checks.

Local Open Scope Q_scope.

Example quantile_of_four : quantile [1; 2; 3; 4] (1 # 4) = Fin (7 # 4).
Proof. vm_compute. reflexivity. Qed.

Example quantile_unsorted : quantile [4; 2; 3; 1; 10] (3 # 4) = Fin (16 # 4).
Proof. vm_compute. reflexivity. Qed.

Example quantile_of_nothing : quantile [] (1 # 4) = NaN.
Proof. reflexivity. Qed.

Example round_ties_to_even : py_round (1 # 8) 2 == 12 # 100.
Proof. vm_compute. reflexivity. Qed.

Example variance_of_prices : variance [1; 1; 1; 1; 5] = Fin (125000000 # 39062500).
Proof. vm_compute. reflexivity. Qed.

Example variance_of_one_value : variance [3] = NaN.
Proof. reflexivity. Qed.

(** A single value has no standard deviation: the z-score bounds are
    NaN and nothing is flagged. *)
Example zscore_of_one_value :
  EDA.zscore_outliers Qsqrt "x" [3]
  = Success {| EDA.o_column := "x"; EDA.o_method := "zscore";
               EDA.outlier_count := 0; EDA.outlier_percentage := 0 # 100;
               EDA.lower_bound := NaN; EDA.upper_bound := NaN |}.
Proof. vm_compute. reflexivity. Qed.

Example outliers_of_nothing :
  EDA.iqr_outliers "x" [] = Failure (Raised ZeroDivisionError).
Proof. reflexivity. Qed.

Example allowed_upper_case :
  Routes.allowed_file "DATA.CSV" Routes.tabular_extensions = true.
Proof. reflexivity. Qed.

Example rejected_executable :
  Routes.allowed_file "setup.exe" Routes.tabular_extensions = false.
Proof. reflexivity. Qed.

Example rejected_without_dot :
  Routes.allowed_file "csv" Routes.tabular_extensions = false.
Proof. reflexivity. Qed.

Example stored_name_keeps_case : Routes.ascii_secure_filename "DATA.CSV" = "DATA.CSV".
Proof. reflexivity. Qed.

Example stored_name_of_path :
  Routes.ascii_secure_filename "../../etc/my file .csv" = "etc_my_file_.csv".
Proof. reflexivity. Qed.

Example stored_name_loses_leading_dot : Routes.ascii_secure_filename ".csv" = "csv".
Proof. reflexivity. Qed.

Example basename_of_path : PDF.basename "uploads/2024/report.pdf" = "report.pdf".
Proof. reflexivity. Qed.

Example empty_config_uses_defaults :
  Connectors.effective_config unit
    {| Connectors.conn := None; Connectors.config := {[ "user" := VStr "u" ]} |}
    (Some ∅)
  = {[ "user" := VStr "u" ]}.
Proof. reflexivity. Qed.

End Checks.

(** * Dispatch on unknown strings *)

Lemma prefix_refl s : String.prefix s s = true.
Proof.
  induction s as [|c s IH]; simpl; [reflexivity|].
  destruct (Ascii.ascii_dec c c); [exact IH | congruence].
Qed.

Lemma contains_refl s : contains s s = true.
Proof.
  destruct s as [|c s]; [reflexivity|].
  change (String.prefix (String c s) (String c s) || contains (String c s) s = true).
  now rewrite prefix_refl.
Qed.

(** A message that ends with a value names it. *)
Lemma contains_append p v : contains v (p +:+ v) = true.
Proof.
  induction p as [|c p IH].
  - apply contains_refl.
  - change (String.prefix v (String c (p +:+ v)) || contains v (p +:+ v) = true).
    rewrite IH. apply orb_true_r.
Qed.

Lemma assoc_None {A} key (table : list (string * A)) :
  ~ In key (map fst table) -> assoc key table = None.
Proof.
  induction table as [|[k v] table IH]; simpl; [reflexivity|].
  intros H. destruct (String.eqb_spec k key) as [->|Hne].
  - exfalso. apply H. now left.
  - apply IH. intros Hin. apply H. now right.
Qed.

Lemma get_or_lookup (d : gmap string pyval) key dflt v :
  d !! key = Some v -> get_or d key dflt = v.
Proof. unfold get_or. now intros ->. Qed.

Section UnknownStrings.

Variable sqrt : Q -> Q.
Variable kendalltau : list Q -> list Q -> float.
Variable plotly : Chart.px_call -> string -> DataFrame -> exn + (string * string).

Lemma detect_outliers_unknown_method df column method :
  has_column df column = true ->
  method <> "iqr" -> method <> "zscore" ->
  EDA.detect_outliers sqrt (Some df) column method
  = Failure (Msg ("Unknown method: " +:+ method)).
Proof.
  intros Hc H1 H2. unfold EDA.detect_outliers. rewrite Hc. simpl.
  apply String.eqb_neq in H1, H2. rewrite H1, H2. simpl.
  destruct (getitem df column) as [|[v|v] [|c l]]; reflexivity.
Qed.

(** C6, as amended.  A string that is not a key of the dispatch table
    gives a failure envelope whose error names the string, and nothing is
    raised: [Unknown action: s] from the action tables of the statistics
    and chart tools, [Unknown chart type: s] from the chart route and,
    once a dataset is loaded, from [custom_chart]; an unknown outlier
    method gives [Unknown method: s] once a dataset is loaded and the
    column exists.  (Without a dataset, or for an absent column, the
    guards that come first in [detect_outliers] and [custom_chart]
    answer instead.) *)
Theorem unknown_dispatch_string_is_named :
  (forall st action kw,
     ~ In action (map fst (EDA.actions sqrt kendalltau st kw)) ->
     EDA.run sqrt kendalltau st action kw
     = (st, Failure (Msg ("Unknown action: " +:+ action)))) /\
  (forall st action k,
     ~ In action (map fst (Chart.actions plotly st k)) ->
     Chart.run plotly st action k
     = (st, (Failure (Msg ("Unknown action: " +:+ action)), []))) /\
  (forall st data t,
     data !! "type" = Some (VStr t) ->
     ~ In t (map fst (Routes.chart_methods plotly st data)) ->
     Routes.chart_create plotly st data
     = (Json (Failure (Msg ("Unknown chart type: " +:+ t))), [])) /\
  (forall df config t,
     config !! "type" = Some (VStr t) ->
     ~ In t (map fst (Chart.chart_methods plotly (Some df) (delete "type" config))) ->
     Chart.custom_chart plotly (Some df) config
     = (Failure (Msg ("Unknown chart type: " +:+ t)), [])) /\
  (forall df column method,
     has_column df column = true ->
     method <> "iqr" -> method <> "zscore" ->
     EDA.detect_outliers sqrt (Some df) column method
     = Failure (Msg ("Unknown method: " +:+ method))) /\
  (forall label value, contains value (label +:+ value) = true).
Proof.
  repeat split.
  - intros st action kw H. unfold EDA.run. now rewrite assoc_None.
  - intros st action k H. unfold Chart.run. now rewrite assoc_None.
  - intros st data t Ht H. unfold Routes.chart_create.
    rewrite (get_or_lookup _ _ _ _ Ht). cbv beta iota delta [Chart.hashable negb].
    now rewrite assoc_None.
  - intros df config t Ht H. unfold Chart.custom_chart.
    rewrite (get_or_lookup _ _ _ _ Ht). cbv beta iota delta [Chart.hashable negb].
    now rewrite assoc_None.
  - apply detect_outliers_unknown_method.
  - apply contains_append.
Qed.

End UnknownStrings.

(** * Rational arithmetic, sorting and quantiles *)

Section NumericFacts.

Local Open Scope Q_scope.

Lemma Qltb_lt a b : Qltb a b = true <-> a < b.
Proof.
  unfold Qltb. rewrite negb_true_iff, <- not_true_iff_false, Qle_bool_iff.
  split; [apply Qnot_le_lt | apply Qlt_not_le].
Qed.

Lemma Qltb_ge a b : Qltb a b = false <-> b <= a.
Proof.
  unfold Qltb. rewrite negb_false_iff. apply Qle_bool_iff.
Qed.

Lemma Qeq_bool_false a b : Qeq_bool a b = false <-> ~ a == b.
Proof.
  rewrite <- not_true_iff_false, Qeq_bool_iff. tauto.
Qed.

Lemma Qsum_nonneg l : Forall (fun x => 0 <= x) l -> 0 <= Qsum l.
Proof.
  induction 1 as [|x l Hx _ IH]; simpl; lra.
Qed.

Lemma Qsum_zero l :
  Forall (fun x => 0 <= x) l -> Qsum l == 0 -> Forall (fun x => x == 0) l.
Proof.
  induction 1 as [|x l Hx Hl IH]; simpl; intros Hs; constructor.
  - pose proof (Qsum_nonneg l Hl). lra.
  - apply IH. pose proof (Qsum_nonneg l Hl). lra.
Qed.

Lemma sq_nonneg (a : Q) : 0 <= a * a.
Proof. nra. Qed.

Lemma ssq_terms_nonneg m l :
  Forall (fun x => 0 <= x) (map (fun x => (x - m) * (x - m)) l).
Proof.
  apply Forall_map, Forall_forall. intros x _. simpl. apply sq_nonneg.
Qed.

Lemma ssq_nonneg l : 0 <= ssq l.
Proof. apply Qsum_nonneg, ssq_terms_nonneg. Qed.

Lemma ssq_zero l x : ssq l == 0 -> In x l -> x == mean_of l.
Proof.
  intros Hs Hx. unfold ssq in Hs.
  apply Qsum_zero in Hs; [|apply ssq_terms_nonneg].
  rewrite Forall_map, Forall_forall in Hs.
  specialize (Hs x). simpl in Hs.
  assert (Hx' : x ∈ l) by (apply list_elem_of_In; exact Hx).
  specialize (Hs Hx'). nra.
Qed.

Lemma Qlen_pos2 (x y : Q) l : 0 < Qlen (x :: y :: l) - 1.
Proof.
  unfold Qlen. simpl length.
  rewrite !Nat2Z.inj_succ. unfold Z.succ.
  rewrite !inject_Z_plus. 
  assert (0 <= inject_Z (Z.of_nat (length l))).
  { change 0 with (inject_Z 0). rewrite <- Zle_Qle. lia. }
  change (inject_Z 1) with 1. lra.
Qed.

Lemma Qle_bool_false a b : Qle_bool a b = false -> b <= a.
Proof.
  intros H. destruct (Qlt_le_dec a b) as [Hl|Hl]; [|exact Hl].
  apply Qlt_le_weak, Qle_bool_iff in Hl. congruence.
Qed.

Lemma insert_sorted_In x y l : In y (insert_sorted x l) -> y = x \/ In y l.
Proof.
  induction l as [|z l IH]; simpl.
  - intros [->|[]]. now left.
  - destruct (Qle_bool x z); simpl.
    + intros [->|[->|H]]; auto.
    + intros [->|H]; auto. destruct (IH H); auto.
Qed.

Lemma insert_sorted_Sorted x l :
  StronglySorted Qle l -> StronglySorted Qle (insert_sorted x l).
Proof.
  induction 1 as [|y l Hl IH Hy]; simpl.
  - repeat constructor.
  - destruct (Qle_bool x y) eqn:E.
    + apply Qle_bool_iff in E. constructor.
      * now constructor.
      * constructor; [exact E|].
        rewrite List.Forall_forall in *. intros z Hz.
        apply Qle_trans with y; auto.
    + apply Qle_bool_false in E. constructor; [exact IH|].
      rewrite List.Forall_forall in *. intros z Hz.
      destruct (insert_sorted_In _ _ _ Hz) as [->|Hz']; auto.
Qed.

Lemma sort_Sorted l : StronglySorted Qle (sort l).
Proof.
  induction l as [|x l IH]; simpl.
  - constructor.
  - now apply insert_sorted_Sorted.
Qed.

Lemma insert_sorted_length x l : length (insert_sorted x l) = S (length l).
Proof.
  induction l as [|y l IH]; simpl; [reflexivity|].
  destruct (Qle_bool x y); simpl; congruence.
Qed.

Lemma sort_length l : length (sort l) = length l.
Proof.
  induction l as [|x l IH]; simpl; [reflexivity|].
  now rewrite insert_sorted_length, IH.
Qed.

Lemma Sorted_ascending s : StronglySorted Qle s -> ascending s.
Proof.
  induction 1 as [|x s Hs IH Hx]; intros i j Hij Hj; simpl in Hj.
  - lia.
  - destruct j as [|j].
    + assert (i = 0)%nat as -> by lia. simpl. lra.
    + destruct i as [|i]; simpl.
      * rewrite List.Forall_forall in Hx. apply Hx, nth_In. lia.
      * apply IH; lia.
Qed.

Lemma sort_ascending l : ascending (sort l).
Proof. apply Sorted_ascending, sort_Sorted. Qed.

(** The interpolated value lies between its two neighbours. *)
Lemma lerp_between a b t : a <= b -> 0 <= t <= 1 -> a <= lerp a b t <= b.
Proof. unfold lerp. intros Hab [H0 H1]. split; nra. Qed.

Lemma lerp_mono a b t u : a <= b -> t <= u -> lerp a b t <= lerp a b u.
Proof. unfold lerp. intros. nra. Qed.

Section Quantile.
Variable s : list Q.
Hypothesis Hasc : ascending s.
Hypothesis Hne : (0 < length s)%nat.

Let n1 : Q := inject_Z (Z.of_nat (length s) - 1).

Lemma n1_nonneg : 0 <= n1.
Proof.
  unfold n1. change 0 with (inject_Z 0). rewrite <- Zle_Qle. lia.
Qed.

Lemma floor_bounds q :
  0 <= q <= 1 ->
  (0 <= Qfloor (n1 * q) <= Z.of_nat (length s) - 1)%Z.
Proof.
  intros [H0 H1]. pose proof n1_nonneg as Hn. split.
  - change 0%Z with (Qfloor 0). apply Qfloor_resp_le. nra.
  - rewrite <- (Qfloor_Z (Z.of_nat (length s) - 1)).
    apply Qfloor_resp_le. fold n1. nra.
Qed.

Lemma frac_bounds (h : Q) : 0 <= h - inject_Z (Qfloor h) <= 1.
Proof.
  pose proof (Qfloor_le h). pose proof (Qlt_floor h) as H2.
  rewrite inject_Z_plus in H2. change (inject_Z 1) with 1 in H2. lra.
Qed.

Lemma quantile_sorted_bounds q :
  0 <= q <= 1 ->
  let lo := Z.to_nat (Qfloor (n1 * q)) in
  nth lo s 0 <= quantile_sorted s q <= nth (Nat.min (S lo) (length s - 1)) s 0.
Proof.
  intros Hq lo. unfold quantile_sorted. fold n1. fold lo.
  pose proof (floor_bounds q Hq).
  apply lerp_between; [|apply frac_bounds].
  apply Hasc; lia.
Qed.

Lemma quantile_sorted_mono q1 q2 :
  0 <= q1 -> q1 <= q2 -> q2 <= 1 ->
  quantile_sorted s q1 <= quantile_sorted s q2.
Proof.
  intros H0 H12 H1.
  assert (Hq1 : 0 <= q1 <= 1) by lra.
  assert (Hq2 : 0 <= q2 <= 1) by lra.
  pose proof (floor_bounds q1 Hq1) as B1.
  pose proof (floor_bounds q2 Hq2) as B2.
  pose proof n1_nonneg as Hn.
  assert (Hh : n1 * q1 <= n1 * q2) by nra.
  pose proof (Qfloor_resp_le _ _ Hh) as Hf.
  destruct (Z.eq_dec (Qfloor (n1 * q1)) (Qfloor (n1 * q2))) as [E|E].
  - unfold quantile_sorted. fold n1. rewrite E.
    apply lerp_mono; [ | unfold n1 in *; lra].
    generalize dependent (Qfloor (n1 * q2)). intros f **. apply Hasc; lia.
  - pose proof (quantile_sorted_bounds q1 Hq1) as [_ U].
    pose proof (quantile_sorted_bounds q2 Hq2) as [L _].
    cbv zeta in U, L.
    eapply Qle_trans; [exact U|]. eapply Qle_trans; [|exact L].
    apply Hasc; lia.
Qed.

End Quantile.

Lemma quantile_Fin (data : list Q) q :
  data <> [] -> quantile data q = Fin (quantile_sorted (sort data) q).
Proof. destruct data; [congruence | reflexivity]. Qed.

Lemma quartiles_ordered (data : list Q) a b :
  quantile data (1 # 4) = Fin a -> quantile data (3 # 4) = Fin b -> a <= b.
Proof.
  destruct (decide (data = [])) as [->|Hne]; [discriminate|].
  rewrite !quantile_Fin by exact Hne.
  intros [= <-] [= <-].
  apply quantile_sorted_mono; try lra.
  - apply sort_ascending.
  - rewrite sort_length. destruct data; [congruence | simpl; lia].
Qed.

End NumericFacts.

(** * Outlier detection *)

Section Outliers.

Local Open Scope Q_scope.

Variable sqrt : Q -> Q.

(** A successful call ran one of the two policies on the present values
    of a single numeric column. *)
Lemma detect_outliers_success df column method r :
  EDA.detect_outliers sqrt (Some df) column method = Success r ->
  exists values,
    getitem df column = [NumCol values] /\
    dropna values <> [] /\
    ((method = "iqr" /\ EDA.iqr_outliers column (dropna values) = Success r) \/
     (method = "zscore" /\ EDA.zscore_outliers sqrt column (dropna values) = Success r)).
Proof.
  unfold EDA.detect_outliers.
  destruct (negb (has_column df column)); [discriminate|].
  destruct (getitem df column) as [|[values|values] [|c l]];
    try (destruct (String.eqb method "iqr" || String.eqb method "zscore");
         discriminate).
  destruct (String.eqb_spec method "iqr") as [->|H1].
  - intros H. exists values. split; [reflexivity|]. split; [|left; now split].
    intros E. unfold EDA.iqr_outliers in H. rewrite E in H. discriminate.
  - destruct (String.eqb_spec method "zscore") as [->|H2]; [|discriminate].
    intros H. exists values. split; [reflexivity|]. split; [|right; now split].
    intros E. unfold EDA.zscore_outliers in H. rewrite E in H. discriminate.
Qed.

Lemma outlier_result_fields column method data outliers lower upper r :
  EDA.outlier_result column method data outliers lower upper = Success r ->
  EDA.outlier_count r = length outliers /\
  EDA.lower_bound r = lower /\ EDA.upper_bound r = upper.
Proof.
  unfold EDA.outlier_result. destruct data; [discriminate|].
  intros [= <-]. repeat split.
Qed.

(** The combination form of the specification and the form the library
    evaluates agree. *)
Lemma quantile_sorted_weights (s : list Q) (p : Q) :
  (0 < length s)%nat -> 0 <= p <= 1 ->
  let h := inject_Z (Z.of_nat (length s) - 1) * p in
  let k := Z.to_nat (Qfloor h) in
  let w := h - inject_Z (Qfloor h) in
  quantile_sorted s p == (1 - w) * nth k s 0 + w * nth (S k) s 0.
Proof.
  intros Hne Hp h k w. unfold quantile_sorted, lerp. fold h. fold k. fold w.
  pose proof (floor_bounds s Hne p Hp) as [Hlo Hhi]. fold h in Hlo, Hhi.
  destruct (Nat.le_gt_cases (S k) (length s - 1)) as [Hk|Hk].
  - rewrite Nat.min_l by exact Hk. ring.
  - rewrite Nat.min_r by lia.
    assert (Ek : k = (length s - 1)%nat) by (unfold k in *; lia).
    rewrite (nth_overflow s (n := S k)) by lia.
    (* the virtual index is the last index: the weight is zero *)
    assert (Hw : w == 0).
    { unfold w. pose proof (Qfloor_le h) as Hfl.
      assert (Hf : Qfloor h = (Z.of_nat (length s) - 1)%Z) by (unfold k in Ek; lia).
      rewrite Hf in *.
      assert (Hh : h <= inject_Z (Z.of_nat (length s) - 1)).
      { unfold h. pose proof (n1_nonneg s Hne). nra. }
      lra. }
    rewrite Ek, Hw. ring.
Qed.

Lemma quantile_is_interpolated data p q :
  0 <= p <= 1 ->
  quantile data p = Fin q ->
  exists q', interpolated_quantile data p = Some q' /\ q == q'.
Proof.
  intros Hp. unfold quantile, interpolated_quantile.
  destruct (decide (data = [])) as [->|Hne]; [discriminate|].
  destruct data as [|x l] eqn:E; [congruence|]. rewrite <- E in *.
  intros [= <-]. eexists. split; [reflexivity|].
  apply quantile_sorted_weights; [|exact Hp].
  rewrite sort_length, E. simpl. lia.
Qed.

Lemma quantile_nonempty data p : data <> [] -> exists q, quantile data p = Fin q.
Proof. intros H. rewrite quantile_Fin by exact H. eauto. Qed.

(** The bounds the IQR policy reports, in terms of the two quartiles. *)
Lemma iqr_outliers_bounds column data r :
  EDA.iqr_outliers column data = Success r ->
  exists q1 q3 lo hi,
    quantile data (1 # 4) = Fin q1 /\
    quantile data (3 # 4) = Fin q3 /\
    EDA.lower_bound r = Fin lo /\
    EDA.upper_bound r = Fin hi /\
    lo == q1 - (3 # 2) * (q3 - q1) /\
    hi == q3 + (3 # 2) * (q3 - q1).
Proof.
  intros H.
  assert (Hne : data <> []).
  { intros ->. discriminate. }
  destruct (quantile_nonempty _ (1 # 4) Hne) as [q1 E1].
  destruct (quantile_nonempty _ (3 # 4) Hne) as [q3 E3].
  unfold EDA.iqr_outliers in H. rewrite E1, E3 in H.
  apply outlier_result_fields in H. destruct H as (_ & Hlo & Hhi).
  exists q1, q3. eexists. eexists.
  split; [exact E1|]. split; [exact E3|].
  split; [exact Hlo|]. split; [exact Hhi|].
  split; ring.
Qed.

(** C2.  For every successful [detect_outliers] call with method
    ['iqr'], the bounds are [Q1 - 1.5 (Q3 - Q1)] and [Q3 + 1.5 (Q3 - Q1)],
    where [Q1] and [Q3] are the 0.25 and 0.75 quantiles of the non-null
    values of the column, computed with linear interpolation. *)
Theorem iqr_bounds_from_interpolated_quartiles df column r :
  EDA.detect_outliers sqrt (Some df) column "iqr" = Success r ->
  exists values q1 q3 lo hi,
    getitem df column = [NumCol values] /\
    (exists q1', interpolated_quantile (dropna values) (1 # 4) = Some q1' /\ q1 == q1') /\
    (exists q3', interpolated_quantile (dropna values) (3 # 4) = Some q3' /\ q3 == q3') /\
    quantile (dropna values) (1 # 4) = Fin q1 /\
    quantile (dropna values) (3 # 4) = Fin q3 /\
    EDA.lower_bound r = Fin lo /\
    EDA.upper_bound r = Fin hi /\
    lo == q1 - (3 # 2) * (q3 - q1) /\
    hi == q3 + (3 # 2) * (q3 - q1).
Proof.
  intros H. apply detect_outliers_success in H.
  destruct H as [values [Hcol [Hne [[_ H]|[Hm _]]]]]; [|discriminate].
  destruct (iqr_outliers_bounds _ _ _ H) as (q1 & q3 & lo & hi & E1 & E3 & Hrest).
  exists values, q1, q3, lo, hi.
  split; [exact Hcol|].
  split; [apply quantile_is_interpolated; [lra | exact E1]|].
  split; [apply quantile_is_interpolated; [lra | exact E3]|].
  split; [exact E1|]. split; [exact E3|]. exact Hrest.
Qed.

Hypothesis sqrt_facts : sqrt_ok sqrt.

Lemma variance_two (x y : Q) l :
  variance (x :: y :: l) = Fin (ssq (x :: y :: l) / (Qlen (x :: y :: l) - 1)).
Proof. reflexivity. Qed.

Lemma variance_nonneg data v : variance data = Fin v -> 0 <= v.
Proof.
  destruct data as [|x [|y l]]; try discriminate.
  rewrite variance_two. intros [= <-].
  apply Qle_shift_div_l; [apply Qlen_pos2|].
  pose proof (ssq_nonneg (x :: y :: l)). lra.
Qed.

Lemma sqrt_nonneg v : 0 <= v -> 0 <= sqrt v.
Proof.
  intros Hv. destruct (Qlt_le_dec 0 v) as [Hp|Hn].
  - apply Qlt_le_weak. now apply sqrt_pos.
  - assert (Hz : v == 0) by lra.
    pose proof (sqrt_zero sqrt sqrt_facts v Hz). lra.
Qed.


End Outliers.

(** The rounded-down square root is an instance of the parameter. *)
Lemma Qsqrt_ok : sqrt_ok Qsqrt.
Proof.
  split.
  - intros [n d]. unfold Qlt, Qsqrt. simpl. rewrite !Z.mul_1_r. intros Hn.
    apply Z.sqrt_pos. nia.
  - intros [n d]. unfold Qeq, Qsqrt. simpl. rewrite !Z.mul_1_r. intros ->.
    reflexivity.
  - intros [n d]. unfold Qle, Qeq, Qsqrt. simpl. rewrite !Z.mul_1_r. intros Hn.
    replace (n * n * Z.pos (d * d))%Z with ((n * Z.pos d) * (n * Z.pos d))%Z
      by (rewrite Pos2Z.inj_mul; ring).
    rewrite Z.sqrt_square by nia.
    rewrite Pos2Z.inj_mul. ring.
Qed.


Section OutlierExamples.

Local Open Scope Q_scope.

Lemma iqr_bounds_witness :
  exists r,
    EDA.detect_outliers Qsqrt (Some prices) "qty" "iqr" = Success r /\
    exists values q1 q3 lo hi,
      getitem prices "qty" = [NumCol values] /\
      (exists q1', interpolated_quantile (dropna values) (1 # 4) = Some q1' /\ q1 == q1') /\
      (exists q3', interpolated_quantile (dropna values) (3 # 4) = Some q3' /\ q3 == q3') /\
      quantile (dropna values) (1 # 4) = Fin q1 /\
      quantile (dropna values) (3 # 4) = Fin q3 /\
      EDA.lower_bound r = Fin lo /\
      EDA.upper_bound r = Fin hi /\
      lo == q1 - (3 # 2) * (q3 - q1) /\
      hi == q3 + (3 # 2) * (q3 - q1).
Proof.
  destruct (EDA.detect_outliers Qsqrt (Some prices) "qty" "iqr") as [r|e] eqn:E;
    [|vm_compute in E; discriminate].
  exists r. split; [reflexivity|].
  exact (iqr_bounds_from_interpolated_quartiles Qsqrt prices "qty" r E).
Defined.

(** On the quantities 4, 2, 3, 1, 10 the quartiles are 2 and 4 and the
    bounds are -1 and 7. *)
Example iqr_bounds_qty :
  exists r lo hi,
    EDA.detect_outliers Qsqrt (Some prices) "qty" "iqr" = Success r /\
    EDA.outlier_count r = 1%nat /\
    EDA.lower_bound r = Fin lo /\ EDA.upper_bound r = Fin hi /\
    lo == - (1) /\ hi == 7.
Proof.
  eexists. eexists. eexists.
  split; [vm_compute; reflexivity|]. simpl.
  repeat split; reflexivity.
Qed.



End OutlierExamples.

(** * The correlation matrix *)

Section Labels.

Lemma unique_labels_NoDup (l : list string) : unique_labels l = true -> NoDup l.
Proof.
  induction l as [|x l IH]; simpl; [constructor|].
  rewrite andb_true_iff, negb_true_iff. intros [Hx Hl].
  constructor; [|auto].
  intros Hin. apply list_elem_of_In in Hin.
  assert (existsb (String.eqb x) l = true).
  { apply existsb_exists. exists x. split; [exact Hin | apply String.eqb_refl]. }
  congruence.
Qed.

Lemma index_of_lookup (l : list string) i c :
  NoDup l -> l !! i = Some c -> EDA.index_of c l = i.
Proof.
  intros Hnd. revert i. induction Hnd as [|x l Hx Hnd IH]; intros i; [discriminate|].
  destruct i as [|i]; simpl.
  - intros [= ->]. now rewrite String.eqb_refl.
  - intros Hi. destruct (String.eqb_spec x c) as [->|Hne].
    + exfalso. apply Hx. eapply list_elem_of_lookup_2. exact Hi.
    + f_equal. now apply IH.
Qed.

Lemma enumerate_lookup {A} (l : list A) i x :
  In (i, x) (EDA.enumerate l) <-> l !! i = Some x.
Proof.
  unfold EDA.enumerate. rewrite <- list_elem_of_In, elem_of_lookup_imap.
  split.
  - intros (j & y & [= -> ->] & H). exact H.
  - intros H. exists i, x. now split.
Qed.

Lemma enumerate_NoDup {A} (l : list A) : NoDup (EDA.enumerate l).
Proof.
  apply NoDup_alt. intros i j [a x] Hi Hj.
  unfold EDA.enumerate in *. rewrite list_lookup_imap in Hi, Hj.
  destruct (l !! i) eqn:Ei; [|discriminate].
  destruct (l !! j) eqn:Ej; [|discriminate].
  simpl in *. congruence.
Qed.

End Labels.

Section Matrix.

Variable sqrt : Q -> Q.
Variable kendalltau : list Q -> list Q -> float.

Local Abbreviation corr_cell := (EDA.corr_cell sqrt kendalltau).
Local Abbreviation loc := (EDA.loc sqrt kendalltau).
Local Abbreviation to_dict := (EDA.to_dict sqrt kendalltau).

(** One triangle is computed and mirrored. *)
Lemma corr_cell_sym m cols i j : corr_cell m cols i j = corr_cell m cols j i.
Proof. unfold EDA.corr_cell. now rewrite Nat.min_comm, Nat.max_comm. Qed.

Lemma loc_sym m cols a b : loc m cols a b = loc m cols b a.
Proof. unfold EDA.loc. apply corr_cell_sym. Qed.

Lemma imap_keys {A B} (g : nat -> string * A -> string * B) (l : list (string * A)) :
  (forall i p, fst (g i p) = fst p) -> (imap g l).*1 = l.*1.
Proof.
  intros Hg. apply list_eq. intros i.
  rewrite !list_lookup_fmap, list_lookup_imap.
  destruct (l !! i); simpl; [|reflexivity]. now rewrite Hg.
Qed.

Lemma to_dict_entry m (cols : list (string * list (option Q))) i j a b va vb :
  NoDup (map fst cols) ->
  cols !! i = Some (a, va) -> cols !! j = Some (b, vb) ->
  EDA.matrix_entry (to_dict m cols) a b = Some (corr_cell m cols j i).
Proof.
  intros Hnd Hi Hj. unfold EDA.matrix_entry, EDA.to_dict.
  erewrite elem_of_list_to_map_1; cycle 1.
  - rewrite imap_keys; [exact Hnd | reflexivity].
  - apply elem_of_lookup_imap. exists i, (a, va). split; [reflexivity | exact Hi].
  - simpl. apply elem_of_list_to_map_1.
    + rewrite imap_keys; [exact Hnd | reflexivity].
    + apply elem_of_lookup_imap. exists j, (b, vb). split; [reflexivity | exact Hj].
Qed.

End Matrix.

(** * A column against itself *)

Section SelfCorrelation.

Local Open Scope Q_scope.

Variable sqrt : Q -> Q.
Hypothesis sqrt_facts : sqrt_ok sqrt.

Lemma complete_pairs_self (v : list (option Q)) :
  complete_pairs v v = map twice (dropna v).
Proof.
  unfold complete_pairs, dropna.
  induction v as [|[x|] v IH]; simpl; [reflexivity| |exact IH].
  f_equal. exact IH.
Qed.

Lemma combine_self (l : list Q) : combine l l = map twice l.
Proof. induction l as [|x l IH]; simpl; [reflexivity|]. now rewrite IH. Qed.

Lemma map_fst_twice (l : list Q) : map fst (map twice l) = l.
Proof. induction l as [|x l IH]; simpl; [reflexivity|]. now rewrite IH. Qed.

Lemma map_snd_twice (l : list Q) : map snd (map twice l) = l.
Proof. induction l as [|x l IH]; simpl; [reflexivity|]. now rewrite IH. Qed.

(** The ratio of a series with itself is one whenever its sum of
    squares is positive. *)
Lemma comoment_ratio_self (l : list Q) :
  0 < ssq l ->
  exists v, comoment_ratio sqrt (map twice l) = Fin v /\ v == 1.
Proof.
  intros Hpos.
  assert (Hform : comoment_ratio sqrt (map twice l)
                  = if Qeq_bool (sqrt (ssq l * ssq l)) 0 then NaN
                    else Fin (ssq l / sqrt (ssq l * ssq l))).
  { unfold comoment_ratio.
    rewrite map_fst_twice, map_snd_twice, List.map_map.
    destruct l as [|x l]; [vm_compute in Hpos; discriminate|].
    change (map twice (x :: l)) with (twice x :: map twice l). cbv iota.
    reflexivity. }
  rewrite Hform. set (d := l) in *.
  pose proof (sqrt_square sqrt sqrt_facts (ssq d) (Qlt_le_weak _ _ Hpos)) as Hs.
  destruct (Qeq_bool (sqrt (ssq d * ssq d)) 0) eqn:E.
  - apply Qeq_bool_iff in E. lra.
  - eexists. split; [reflexivity|]. rewrite Hs. field. lra.
Qed.

Lemma nonzero_variance_ssq data : nonzero_variance data -> 0 < ssq data.
Proof.
  intros [v [Ev Hv]].
  destruct data as [|a [|b l]]; try discriminate.
  rewrite variance_two in Ev. injection Ev as <-.
  pose proof (ssq_nonneg (a :: b :: l)) as H0.
  destruct (Qlt_le_dec 0 (ssq (a :: b :: l))) as [Hp|Hn]; [exact Hp|].
  exfalso. apply Hv.
  assert (Hz : ssq (a :: b :: l) == 0) by lra.
  rewrite Hz. pose proof (Qlen_pos2 a b l). field. lra.
Qed.

Lemma clip_unit_one v : v == 1 -> clip_unit v == 1.
Proof.
  intros Hv. unfold clip_unit.
  rewrite (proj2 (Qltb_ge 1 v)) by lra.
  rewrite (proj2 (Qltb_ge v (- (1)))) by lra. exact Hv.
Qed.

(** *** Sums of squares within the range *)

Lemma underflow_threshold_pos : 0 < underflow_threshold.
Proof. vm_compute. reflexivity. Qed.

Lemma range_contains_squares :
  underflow_threshold < (1 / inject_Z (2 ^ 500)) * (1 / inject_Z (2 ^ 500)) /\
  inject_Z (2 ^ 500) * inject_Z (2 ^ 500) < overflow_threshold /\
  underflow_threshold < 1 / inject_Z (2 ^ 500) /\
  inject_Z (2 ^ 500) < overflow_threshold /\
  0 < 1 / inject_Z (2 ^ 500).
Proof. repeat split. Qed.

Lemma ranged_Fin q :
  underflow_threshold < q -> q < overflow_threshold -> ranged q = Fin q.
Proof.
  intros Hlo Hhi. pose proof underflow_threshold_pos as H0.
  assert (Ha : Qabs q == q) by (apply Qabs_pos; lra).
  unfold ranged.
  destruct (Qle_bool overflow_threshold (Qabs q)) eqn:E1.
  { apply Qle_bool_iff in E1. rewrite Ha in E1. lra. }
  destruct (Qle_bool (Qabs q) underflow_threshold) eqn:E2.
  { apply Qle_bool_iff in E2. rewrite Ha in E2. lra. }
  reflexivity.
Qed.

Lemma squares_in_range_ranged s :
  squares_in_range s ->
  0 < s /\ ranged s = Fin s /\ ranged (s * s) = Fin (s * s).
Proof.
  intros [Hlo Hhi].
  destruct range_contains_squares as (H1 & H2 & H3 & H4 & H5).
  revert Hlo Hhi H1 H2 H3 H4 H5.
  generalize (1 / inject_Z (2 ^ 500)) (inject_Z (2 ^ 500)).
  intros a b Hlo Hhi H1 H2 H3 H4 H5.
  split; [lra|]. split; apply ranged_Fin; nra.
Qed.

(** Pearson's coefficient of a column with itself is one whenever the
    square of its sum of squared deviations is a normal float. *)
Lemma pearson_self (values : list (option Q)) :
  squares_in_range (ssq (dropna values)) ->
  exists v, pearson sqrt values values = Fin v /\ v == 1.
Proof.
  intros H. apply squares_in_range_ranged in H. destruct H as (Hpos & Hr & Hrr).
  set (d := dropna values) in *.
  assert (Hform : pearson sqrt values values
                  = let divisor :=
                      fsqrt_with sqrt (fmul_ranged (ranged (ssq d)) (ranged (ssq d))) in
                    if fnonzero divisor then fclip (fdiv (ranged (ssq d)) divisor)
                    else NaN).
  { unfold pearson. rewrite complete_pairs_self. fold d.
    rewrite map_fst_twice, map_snd_twice, List.map_map.
    destruct d as [|x l]; [vm_compute in Hpos; discriminate|].
    change (map twice (x :: l)) with (twice x :: map twice l). cbv iota.
    reflexivity. }
  rewrite Hform. cbv zeta. rewrite Hr. unfold fmul_ranged, fmul. rewrite Hrr.
  pose proof (sqrt_square sqrt sqrt_facts (ssq d) (Qlt_le_weak _ _ Hpos)) as Hs.
  unfold fsqrt_with.
  assert (Hsq : Qltb (ssq d * ssq d) 0 = false) by (apply Qltb_ge; nra).
  rewrite Hsq. unfold fnonzero, fdiv, fclip.
  destruct (Qeq_bool (sqrt (ssq d * ssq d)) 0) eqn:E.
  { apply Qeq_bool_iff in E. lra. }
  simpl negb. cbv iota.
  eexists. split; [reflexivity|]. apply clip_unit_one. rewrite Hs. field. lra.
Qed.

(** *** Ranks *)

Lemma Qsum_const (l : list Q) a :
  (forall x, In x l -> x == a) -> Qsum l == Qlen l * a.
Proof.
  unfold Qlen. induction l as [|x l IH]; intros H.
  - simpl. ring.
  - change (Qsum (x :: l)) with (x + Qsum l).
    rewrite IH by (intros y Hy; apply H; now right).
    rewrite (H x) by (now left).
    assert (E : inject_Z (Z.of_nat (length (x :: l)))
                == inject_Z (Z.of_nat (length l)) + 1).
    { simpl length. rewrite Nat2Z.inj_succ. unfold Z.succ.
      rewrite inject_Z_plus. reflexivity. }
    rewrite E. ring.
Qed.

Lemma Qlen_pos x (l : list Q) : 0 < Qlen (x :: l).
Proof.
  unfold Qlen. change 0 with (inject_Z 0). rewrite <- Zlt_Qlt. simpl. lia.
Qed.

Lemma ssq_const (l : list Q) a : (forall x, In x l -> x == a) -> ssq l == 0.
Proof.
  intros H. destruct l as [|y l]; [reflexivity|].
  assert (Hm : mean_of (y :: l) == a).
  { unfold mean_of. rewrite (Qsum_const _ a H).
    pose proof (Qlen_pos y l). field. lra. }
  unfold ssq.
  rewrite (Qsum_const _ 0); [ring|].
  intros t Ht. apply in_map_iff in Ht. destruct Ht as [x [<- Hx]].
  rewrite (H x Hx), Hm. ring.
Qed.

Lemma all_equal_or_not (l : list Q) a :
  (forall x, In x l -> x == a) \/ (exists x, In x l /\ ~ x == a).
Proof.
  induction l as [|y l [IH|[x [Hx Hne]]]].
  - left. intros x [].
  - destruct (Qeq_dec y a) as [E|E].
    + left. intros x [<-|Hx]; auto.
    + right. exists y. split; [now left | exact E].
  - right. exists x. split; [now right | exact Hne].
Qed.

Lemma ssq_pos_differ (l : list Q) :
  0 < ssq l -> exists x y, In x l /\ In y l /\ x < y.
Proof.
  intros Hpos. destruct l as [|a l]; [vm_compute in Hpos; discriminate|].
  destruct (all_equal_or_not (a :: l) a) as [H|[x [Hx Hne]]].
  - apply ssq_const in H. lra.
  - destruct (Q_dec x a) as [[Hlt|Hgt]|E]; [| |contradiction].
    + exists x, a. repeat split; [exact Hx | now left | exact Hlt].
    + exists a, x. repeat split; [now left | exact Hx | exact Hgt].
Qed.

Lemma differ_ssq_pos (l : list Q) x y :
  In x l -> In y l -> ~ x == y -> 0 < ssq l.
Proof.
  intros Hx Hy Hne. pose proof (ssq_nonneg l) as H0.
  destruct (Qlt_le_dec 0 (ssq l)) as [Hp|Hn]; [exact Hp|].
  exfalso. apply Hne.
  assert (Hz : ssq l == 0) by lra.
  rewrite (ssq_zero l x Hz Hx), (ssq_zero l y Hz Hy). reflexivity.
Qed.

(** Everything below or tied with [x] is below a larger [y]. *)
Lemma count_below (l : list Q) x y :
  x < y ->
  (length (List.filter (fun z => Qltb z x) l)
   + length (List.filter (Qeq_bool x) l)
   <= length (List.filter (fun z => Qltb z y) l))%nat.
Proof.
  intros Hxy. induction l as [|z l IH]; simpl; [lia|].
  destruct (Qltb z x) eqn:E1, (Qeq_bool x z) eqn:E2, (Qltb z y) eqn:E3; simpl;
    try lia; exfalso;
    repeat match goal with
    | H : Qltb _ _ = true |- _ => apply Qltb_lt in H
    | H : Qltb _ _ = false |- _ => apply Qltb_ge in H
    | H : Qeq_bool _ _ = true |- _ => apply Qeq_bool_iff in H
    | H : Qeq_bool _ _ = false |- _ => apply Qeq_bool_false in H
    end; lra.
Qed.

Lemma count_tied (l : list Q) x :
  In x l -> (1 <= length (List.filter (Qeq_bool x) l))%nat.
Proof.
  intros Hx.
  assert (Hin : In x (List.filter (Qeq_bool x) l)).
  { apply List.filter_In. split; [exact Hx|]. apply Qeq_bool_iff. reflexivity. }
  destruct (List.filter (Qeq_bool x) l); [destruct Hin | simpl; lia].
Qed.

Lemma rank_in_lt (l : list Q) x y :
  In x l -> In y l -> x < y -> rank_in l x < rank_in l y.
Proof.
  intros Hx Hy Hxy. unfold rank_in, count_if.
  pose proof (count_below l x y Hxy) as Hb.
  pose proof (count_tied l x Hx) as Hcx.
  pose proof (count_tied l y Hy) as Hcy.
  set (bx := length (List.filter (fun z => Qltb z x) l)) in *.
  set (by_ := length (List.filter (fun z => Qltb z y) l)) in *.
  set (ex := length (List.filter (Qeq_bool x) l)) in *.
  set (ey := length (List.filter (Qeq_bool y) l)) in *.
  assert (HbQ : inject_Z (Z.of_nat bx) + inject_Z (Z.of_nat ex)
                <= inject_Z (Z.of_nat by_)).
  { rewrite <- inject_Z_plus, <- Zle_Qle. lia. }
  assert (HxQ : 1 <= inject_Z (Z.of_nat ex)).
  { change 1 with (inject_Z 1). rewrite <- Zle_Qle. lia. }
  assert (HyQ : 1 <= inject_Z (Z.of_nat ey)).
  { change 1 with (inject_Z 1). rewrite <- Zle_Qle. lia. }
  clearbody bx by_ ex ey.
  generalize dependent (inject_Z (Z.of_nat bx)).
  generalize dependent (inject_Z (Z.of_nat by_)).
  generalize dependent (inject_Z (Z.of_nat ex)).
  generalize dependent (inject_Z (Z.of_nat ey)).
  intros ey' Hey ex' Hex by' bx' Hbx.
  assert (Ex : (ex' + 1) / 2 == (ex' + 1) * (1 # 2)) by (field; lra).
  assert (Ey : (ey' + 1) / 2 == (ey' + 1) * (1 # 2)) by (field; lra).
  rewrite Ex, Ey. lra.
Qed.

Lemma ranks_ssq_pos (l : list Q) : 0 < ssq l -> 0 < ssq (ranks l).
Proof.
  intros H. destruct (ssq_pos_differ l H) as (x & y & Hx & Hy & Hxy).
  apply (differ_ssq_pos _ (rank_in l x) (rank_in l y)).
  - unfold ranks. now apply in_map.
  - unfold ranks. now apply in_map.
  - pose proof (rank_in_lt l x y Hx Hy Hxy). lra.
Qed.

Lemma spearman_self (values : list (option Q)) :
  nonzero_variance (dropna values) ->
  exists v, spearman sqrt values values = Fin v /\ v == 1.
Proof.
  intros H. apply nonzero_variance_ssq, ranks_ssq_pos in H.
  unfold spearman. rewrite complete_pairs_self, map_fst_twice, map_snd_twice.
  rewrite combine_self. now apply comoment_ratio_self.
Qed.

End SelfCorrelation.

(** * Counting in nested loops *)

Section Counting.

Context {A B : Type}.
Variable P : B -> bool.
Variable f : A -> list B.

Lemma filter_flat_map_none (l : list A) :
  (forall x, In x l -> List.filter P (f x) = []) ->
  List.filter P (flat_map f l) = [].
Proof.
  induction l as [|y l IH]; intros H; simpl; [reflexivity|].
  rewrite List.filter_app, (H y) by (now left).
  apply IH. intros x Hx. apply H. now right.
Qed.

(** When a single iteration contributes, the loop yields what that
    iteration yields. *)
Lemma filter_flat_map_single (l : list A) x0 :
  NoDup l -> In x0 l ->
  (forall x, In x l -> x <> x0 -> List.filter P (f x) = []) ->
  List.filter P (flat_map f l) = List.filter P (f x0).
Proof.
  induction 1 as [|y l Hy Hnd IH]; intros Hin H; [destruct Hin|].
  simpl. rewrite List.filter_app.
  destruct Hin as [->|Hin].
  - rewrite filter_flat_map_none; [apply app_nil_r|].
    intros x Hx. apply H; [now right|].
    intros ->. apply Hy. now apply list_elem_of_In.
  - rewrite (H y); [|now left|].
    + simpl. apply IH; [exact Hin|]. intros x Hx. apply H. now right.
    + intros ->. apply Hy. now apply list_elem_of_In.
Qed.

End Counting.

Section Correlations.

Local Open Scope Q_scope.

Variable sqrt : Q -> Q.
Variable kendalltau : list Q -> list Q -> float.
Hypothesis sqrt_facts : sqrt_ok sqrt.

Local Abbreviation corr_cell := (EDA.corr_cell sqrt kendalltau).
Local Abbreviation loc := (EDA.loc sqrt kendalltau).
Local Abbreviation to_dict := (EDA.to_dict sqrt kendalltau).
Local Abbreviation loop_body := (EDA.loop_body sqrt kendalltau).
Local Abbreviation high_correlations := (EDA.high_correlations sqrt kendalltau).

Lemma nth_values (cols : list (string * list (option Q))) i a values :
  cols !! i = Some (a, values) -> nth i (map snd cols) [] = values.
Proof.
  intros H. rewrite nth_lookup.
  change (map snd cols) with (snd <$> cols).
  now rewrite list_lookup_fmap, H.
Qed.

Lemma corr_cell_diagonal m cols i a values :
  cols !! i = Some (a, values) ->
  nonzero_variance (dropna values) ->
  (m = EDA.Pearson -> squares_in_range (ssq (dropna values))) ->
  exists v, corr_cell m cols i i = Fin v /\ v == 1.
Proof.
  intros Hi Hv Hr. unfold EDA.corr_cell.
  rewrite Nat.min_id, Nat.max_id, (nth_values _ _ _ _ Hi).
  destruct m; simpl.
  - apply pearson_self; [exact sqrt_facts | now apply Hr].
  - now apply spearman_self.
  - rewrite complete_pairs_self, Nat.eqb_refl.
    apply nonzero_variance_ssq in Hv.
    destruct (dropna values); [vm_compute in Hv; discriminate|].
    simpl. exists 1. split; reflexivity.
Qed.

Lemma high_correlations_loops m cols :
  high_correlations m cols
  = flat_map (fun ic1 => flat_map (loop_body m cols ic1)
                                  (EDA.enumerate (map fst cols)))
             (EDA.enumerate (map fst cols)).
Proof. reflexivity. Qed.

Lemma high_correlations_member m cols e :
  In e (high_correlations m cols) <->
  exists i j c1 c2,
    map fst cols !! i = Some c1 /\ map fst cols !! j = Some c2 /\ (i < j)%nat /\
    fgt (fabs (loc m cols c1 c2)) (Fin (7 # 10)) = true /\
    e = {| EDA.column1 := c1; EDA.column2 := c2;
           EDA.correlation := fround (loc m cols c1 c2) 4 |}.
Proof.
  rewrite high_correlations_loops, in_flat_map. split.
  - intros [[i c1] [Hi Hin]]. apply in_flat_map in Hin.
    destruct Hin as [[j c2] [Hj Hin]].
    apply enumerate_lookup in Hi, Hj. unfold EDA.loop_body in Hin. cbn [fst snd] in Hin.
    destruct (Nat.ltb_spec i j) as [Hlt|]; [|destruct Hin].
    destruct (fgt _ _) eqn:Ht; [|destruct Hin].
    destruct Hin as [<-|[]]. exists i, j, c1, c2. repeat split; assumption.
  - intros (i & j & c1 & c2 & Hi & Hj & Hlt & Ht & ->).
    exists (i, c1). split; [now apply enumerate_lookup|].
    apply in_flat_map. exists (j, c2). split; [now apply enumerate_lookup|].
    unfold EDA.loop_body. cbn [fst snd].
    rewrite (proj2 (Nat.ltb_lt i j) Hlt), Ht. now left.
Qed.

Lemma same_pair_sym a b e : EDA.same_pair a b e = EDA.same_pair b a e.
Proof. unfold EDA.same_pair. apply orb_comm. Qed.

(** An iteration other than (i, j) reports another pair. *)
Lemma loop_body_other m cols i j a b i' j' c d :
  NoDup (map fst cols) ->
  map fst cols !! i = Some a -> map fst cols !! j = Some b -> (i < j)%nat ->
  map fst cols !! i' = Some c -> map fst cols !! j' = Some d ->
  (i', j') <> (i, j) ->
  List.filter (EDA.same_pair a b) (loop_body m cols (i', c) (j', d)) = [].
Proof.
  intros Hnd Hi Hj Hlt Hi' Hj' Hne. unfold EDA.loop_body. cbn [fst snd].
  destruct (Nat.ltb_spec i' j') as [Hlt'|]; [|reflexivity].
  destruct (fgt _ _); [|reflexivity].
  simpl. unfold EDA.same_pair. simpl.
  destruct (String.eqb_spec c a) as [->|Hca];
    destruct (String.eqb_spec d b) as [->|Hdb]; simpl.
  - exfalso. apply Hne. f_equal; eapply NoDup_lookup; eauto.
  - destruct (String.eqb_spec a b) as [->|Hab]; [|reflexivity].
    exfalso. assert (i = j) by (eapply NoDup_lookup; eauto). lia.
  - destruct (String.eqb_spec c b) as [->|Hcb]; [|reflexivity].
    destruct (String.eqb_spec b a) as [->|Hba]; [|reflexivity].
    exfalso. assert (i = j) by (eapply NoDup_lookup; eauto). lia.
  - destruct (String.eqb_spec c b) as [->|Hcb]; [|reflexivity].
    destruct (String.eqb_spec d a) as [->|Hda]; [|reflexivity].
    exfalso.
    assert (i' = j) by (eapply NoDup_lookup; eauto).
    assert (j' = i) by (eapply NoDup_lookup; eauto). lia.
Qed.

Lemma high_correlations_once_ordered m cols i j a b :
  NoDup (map fst cols) ->
  map fst cols !! i = Some a -> map fst cols !! j = Some b -> (i < j)%nat ->
  fgt (fabs (loc m cols a b)) (Fin (7 # 10)) = true ->
  length (List.filter (EDA.same_pair a b) (high_correlations m cols)) = 1%nat.
Proof.
  intros Hnd Hi Hj Hlt Ht. rewrite high_correlations_loops.
  rewrite (filter_flat_map_single _ _ _ (i, a)).
  - rewrite (filter_flat_map_single _ _ _ (j, b)).
    + unfold EDA.loop_body. cbn [fst snd]. rewrite (proj2 (Nat.ltb_lt i j) Hlt), Ht.
      simpl. unfold EDA.same_pair. simpl. now rewrite !String.eqb_refl.
    + apply enumerate_NoDup.
    + now apply enumerate_lookup.
    + intros [j' d] Hin Hne. apply enumerate_lookup in Hin.
      eapply loop_body_other; eauto. congruence.
  - apply enumerate_NoDup.
  - now apply enumerate_lookup.
  - intros [i' c] Hin Hne. apply enumerate_lookup in Hin.
    apply filter_flat_map_none. intros [j' d] Hin'.
    apply enumerate_lookup in Hin'.
    eapply loop_body_other; eauto.
    intros [= -> ->]. apply Hne. f_equal. congruence.
Qed.

Lemma high_correlations_once m cols a b :
  NoDup (map fst cols) ->
  In a (map fst cols) -> In b (map fst cols) -> a <> b ->
  fgt (fabs (loc m cols a b)) (Fin (7 # 10)) = true ->
  length (List.filter (EDA.same_pair a b) (high_correlations m cols)) = 1%nat.
Proof.
  intros Hnd Ha Hb Hne Ht.
  apply list_elem_of_In, list_elem_of_lookup in Ha, Hb.
  destruct Ha as [i Hi], Hb as [j Hj].
  destruct (Nat.lt_total i j) as [Hlt|[->|Hgt]].
  - eapply high_correlations_once_ordered; eauto.
  - congruence.
  - erewrite List.filter_ext by (intros e; apply same_pair_sym).
    eapply high_correlations_once_ordered; eauto.
    now rewrite loc_sym.
Qed.

Lemma label_lookup (cols : list (string * list (option Q))) i a :
  map fst cols !! i = Some a -> exists values, cols !! i = Some (a, values).
Proof.
  change (map fst cols) with (fst <$> cols). rewrite list_lookup_fmap.
  destruct (cols !! i) as [[a' v]|]; [|discriminate].
  intros [= <-]. eauto.
Qed.

(** With labels that occur once, the dict of dicts holds at [a][b] the
    cell that [loc] selects. *)
Lemma matrix_entry_loc m cols a b :
  NoDup (map fst cols) -> In a (map fst cols) -> In b (map fst cols) ->
  EDA.matrix_entry (to_dict m cols) a b = Some (loc m cols a b).
Proof.
  intros Hnd Ha Hb.
  apply list_elem_of_In, list_elem_of_lookup in Ha, Hb.
  destruct Ha as [i Hi], Hb as [j Hj].
  destruct (label_lookup _ _ _ Hi) as [va Hva].
  destruct (label_lookup _ _ _ Hj) as [vb Hvb].
  rewrite (to_dict_entry sqrt kendalltau m cols i j a b va vb Hnd Hva Hvb).
  unfold EDA.loc.
  rewrite (index_of_lookup _ _ _ Hnd Hi), (index_of_lookup _ _ _ Hnd Hj).
  f_equal. apply corr_cell_sym.
Qed.

Lemma get_correlations_success df method r :
  EDA.get_correlations sqrt kendalltau (Some df) method = Success r ->
  exists m,
    EDA.parse_method method = Some m /\
    NoDup (map fst (select_numeric df)) /\
    EDA.correlation_matrix r = to_dict m (select_numeric df) /\
    EDA.cr_high_correlations r = high_correlations m (select_numeric df).
Proof.
  unfold EDA.get_correlations.
  destruct (numeric_empty df); [discriminate|].
  destruct (EDA.parse_method method) as [m|]; [|discriminate].
  destruct (unique_labels (map fst (select_numeric df))) eqn:Hu; [|discriminate].
  simpl. intros [= <-]. exists m. repeat split.
  now apply unique_labels_NoDup.
Qed.

Lemma parse_method_pearson method :
  EDA.parse_method method = Some EDA.Pearson -> method = "pearson".
Proof.
  unfold EDA.parse_method.
  destruct (String.eqb_spec method "pearson") as [->|_]; [reflexivity|].
  destruct (String.eqb method "spearman"); [discriminate|].
  destruct (String.eqb method "kendall"); discriminate.
Qed.


End Correlations.


Section CorrelationExamples.

Local Open Scope Q_scope.



(** On the column 0, 10^-90 the square underflows and the diagonal
    entry is NaN. *)
Example pearson_diagonal_underflow :
  exists r,
    EDA.get_correlations Qsqrt no_kendall (Some close_together) "pearson" = Success r /\
    EDA.matrix_entry (EDA.correlation_matrix r) "mass" "mass" = Some NaN.
Proof.
  eexists. split; [vm_compute; reflexivity|]. vm_compute. reflexivity.
Qed.

End CorrelationExamples.

(** * Absent columns *)

Section AbsentColumns.

Variable sqrt : Q -> Q.

Lemma numeric_label_has_column df c :
  existsb (String.eqb c) (EDA.numeric_labels df) = true -> has_column df c = true.
Proof.
  unfold EDA.numeric_labels, has_column, column_names, select_numeric.
  rewrite !existsb_exists. intros [x [Hin Hx]]. exists x. split; [|exact Hx].
  apply in_map_iff in Hin. destruct Hin as [[n v] [<- Hin]].
  apply list_elem_of_In, list_elem_of_omap in Hin.
  destruct Hin as [[n' col] [Hin Hsome]]. simpl in Hsome.
  destruct col; [|discriminate]. injection Hsome as -> ->.
  apply in_map_iff. exists (n, NumCol v). split; [reflexivity|].
  now apply list_elem_of_In.
Qed.

Lemma filter_not_numeric df columns :
  Forall (fun c => ~ In c (EDA.numeric_labels df)) columns ->
  List.filter (fun c => existsb (String.eqb c) (EDA.numeric_labels df)) columns = [].
Proof.
  induction 1 as [|c l Hc _ IH]; simpl; [reflexivity|].
  destruct (existsb _ _) eqn:E; [|exact IH].
  exfalso. apply Hc. apply existsb_exists in E. destruct E as [x [Hin Hx]].
  apply String.eqb_eq in Hx. now subst x.
Qed.

(** A numeric label that selects a single column selects a numeric one. *)
Lemma numeric_label_column df c :
  existsb (String.eqb c) (EDA.numeric_labels df) = true ->
  length (getitem df c) = 1%nat ->
  exists values, getitem df c = [NumCol values].
Proof.
  intros Hc Hlen.
  apply existsb_exists in Hc. destruct Hc as [x [Hin Hx]].
  apply String.eqb_eq in Hx. subst x.
  unfold EDA.numeric_labels, select_numeric in Hin.
  apply in_map_iff in Hin. destruct Hin as [[n v] [Hn Hin]]. simpl in Hn. subst n.
  apply list_elem_of_In, list_elem_of_omap in Hin.
  destruct Hin as [[n' col] [Hin Hsome]]. simpl in Hsome.
  destruct col as [v'|]; [|discriminate]. injection Hsome as -> ->.
  assert (Hg : In (NumCol v) (getitem df c)).
  { unfold getitem. apply in_map_iff. exists (c, NumCol v). split; [reflexivity|].
    apply List.filter_In. split; [now apply list_elem_of_In|].
    unfold has_label. simpl. apply String.eqb_refl. }
  destruct (getitem df c) as [|col [|col' l]]; simpl in Hlen; try discriminate.
  destruct Hg as [->|[]]. now exists v.
Qed.

Lemma column_statistics_total df cols :
  Forall (fun c => existsb (String.eqb c) (EDA.numeric_labels df) = true) cols ->
  Forall (fun c => length (getitem df c) = 1%nat) cols ->
  exists stats,
    EDA.column_statistics sqrt df cols = inr stats /\ map fst stats = cols.
Proof.
  induction cols as [|c cols IH]; intros Hn Hl.
  - exists []. split; reflexivity.
  - inversion Hn as [|? ? Hc Hn']; subst. inversion Hl as [|? ? Hlc Hl']; subst.
    destruct (IH Hn' Hl') as [stats [Hs Hf]].
    destruct (numeric_label_column df c Hc Hlc) as [values Hv].
    simpl. rewrite Hv, Hs. eexists. split; [reflexivity|]. simpl. now rewrite Hf.
Qed.


End AbsentColumns.



(** * Operations without a dataset *)

Section NoDataset.

Variable sqrt : Q -> Q.
Variable kendalltau : list Q -> list Q -> float.
Variable plotly : Chart.px_call -> string -> DataFrame -> exn + (string * string).

(** C5.  Every statistics, correlation or chart operation invoked
    while no dataset is loaded returns the failure envelope with the
    error [No data loaded]; the chart operations make no call into the
    charting library, and the route answers with a JSON body, not with
    an exception. *)
Theorem no_dataset_is_a_uniform_failure :
  (* statistics and correlations *)
  (EDA.get_basic_info None = no_data_loaded /\
   (forall columns, EDA.get_statistics sqrt None columns = no_data_loaded) /\
   (forall method, EDA.get_correlations sqrt kendalltau None method = no_data_loaded) /\
   (forall column top_n, EDA.get_value_counts None column top_n = no_data_loaded) /\
   (forall column method, EDA.detect_outliers sqrt None column method = no_data_loaded) /\
   EDA.get_data_quality_report None = no_data_loaded /\
   EDA.get_full_eda_report sqrt kendalltau None = no_data_loaded) /\
  (* charts: the failure is returned before any call into the library *)
  ((forall x y title color orientation,
      Chart.bar_chart plotly None x y title color orientation = (no_data_loaded, [])) /\
   (forall x y title color,
      Chart.line_chart plotly None x y title color = (no_data_loaded, [])) /\
   (forall x y title color size,
      Chart.scatter_plot plotly None x y title color size = (no_data_loaded, [])) /\
   (forall column title bins color,
      Chart.histogram plotly None column title bins color = (no_data_loaded, [])) /\
   (forall y x title, Chart.box_plot plotly None y x title = (no_data_loaded, [])) /\
   (forall title, Chart.heatmap plotly None title = (no_data_loaded, [])) /\
   (forall values names title,
      Chart.pie_chart plotly None values names title = (no_data_loaded, [])) /\
   (forall columns title,
      Chart.distribution_plot plotly None columns title = (no_data_loaded, [])) /\
   (forall columns color, Chart.pair_plot plotly None columns color = (no_data_loaded, [])) /\
   (forall config, Chart.custom_chart plotly None config = (no_data_loaded, []))) /\
  (* the same operations reached through the action tables and the route *)
  (forall kw,
     Forall (fun action => snd (EDA.run sqrt kendalltau None action kw) = no_data_loaded)
            ["info"; "statistics"; "correlations"; "value_counts"; "outliers";
             "quality"; "full_report"]) /\
  (forall k,
     Forall (fun action => snd (Chart.run plotly None action k) = (no_data_loaded, []))
            ["bar"; "line"; "scatter"; "histogram"; "box"; "heatmap"; "pie";
             "distribution"; "pair_plot"; "custom"]) /\
  (forall data,
     Forall (fun t => Routes.chart_create plotly None (<["type" := VStr t]> data)
                      = (Json no_data_loaded, []))
            ["bar"; "line"; "scatter"; "histogram"; "box"; "heatmap"; "pie";
             "distribution"; "pair_plot"]).
Proof.
  repeat split; try reflexivity.
  - intros kw. repeat constructor.
  - intros k. repeat constructor.
  - intros data. repeat constructor;
      unfold Routes.chart_create, get_or;
      rewrite lookup_insert_eq; reflexivity.
Qed.

End NoDataset.

Ltac not_a_key :=
  cbv [map fst EDA.actions Chart.actions Routes.chart_methods Chart.chart_methods In];
  simpl; intuition discriminate.

Lemma unknown_dispatch_string_is_named_witness :
  EDA.run Qsqrt no_kendall (Some prices) "summarise" eda_kwargs
  = (Some prices, Failure (Msg "Unknown action: summarise")) /\
  Chart.run no_plotly (Some prices) "radar" chart_kwargs
  = (Some prices, (Failure (Msg "Unknown action: radar"), [])) /\
  Routes.chart_create no_plotly (Some prices) {[ "type" := VStr "radar" ]}
  = (Json (Failure (Msg "Unknown chart type: radar")), []) /\
  Chart.custom_chart no_plotly (Some prices) {[ "type" := VStr "radar" ]}
  = (Failure (Msg "Unknown chart type: radar"), []) /\
  EDA.detect_outliers Qsqrt (Some prices) "price" "median"
  = Failure (Msg "Unknown method: median") /\
  contains "median" "Unknown method: median" = true.
Proof.
  destruct (unknown_dispatch_string_is_named Qsqrt no_kendall no_plotly)
    as (H1 & H2 & H3 & H4 & H5 & H6).
  split; [apply H1; not_a_key|].
  split; [apply H2; not_a_key|].
  split; [apply H3; [reflexivity | not_a_key]|].
  split; [apply H4; [reflexivity | not_a_key]|].
  split; [apply H5; [reflexivity | discriminate | discriminate]|].
  apply (H6 "Unknown method: " "median").
Defined.

Lemma unknown_method_not_named_counterexample :
  ~ (forall st column method,
       method <> "iqr" -> method <> "zscore" ->
       exists msg,
         EDA.detect_outliers Qsqrt st column method = Failure (Msg msg) /\
         contains method msg = true).
Proof.
  intros H.
  destruct (H None "price" "median") as [msg [E C]]; try discriminate.
  injection E as <-. vm_compute in C. discriminate.
Qed.

(** * Connecting to a database *)

Section Connecting.

Variable connection : Type.
Variable driver_available : bool.
Variable driver_connect : list (string * pyval) -> exn + connection.

Local Abbreviation connect_with :=
  (Connectors.connect_with connection driver_available driver_connect).

Lemma connect_with_missing required error_text names t cfg :
  Connectors.missing (Connectors.effective_config connection t cfg) required = true \/
  Connectors.missing (Connectors.effective_config connection t cfg) "user" = true ->
  connect_with required error_text names t cfg
  = (t, Failure (if driver_available then Msg error_text else Raised ImportError), []).
Proof.
  intros H. unfold Connectors.connect_with.
  destruct driver_available; simpl; [|reflexivity].
  destruct H as [-> | ->]; [reflexivity | now rewrite orb_true_r].
Qed.

(** C7.  For both connectors, when the effective configuration lacks
    the account (or host) field or the user field, being absent, [None]
    or empty, [connect] returns a failure envelope with a descriptive
    error, leaves the connector as it was and makes no call to the
    driver. *)
Theorem connect_fails_fast_on_missing_fields t cfg :
  let conf := Connectors.effective_config connection t cfg in
  (Connectors.missing conf "account" = true \/ Connectors.missing conf "user" = true ->
   exists err,
     Connectors.snowflake_connect connection driver_available driver_connect t cfg
     = (t, Failure err, []) /\
     (driver_available = true ->
      err = Msg "Missing required Snowflake configuration (account, user)")) /\
  (Connectors.missing conf "host" = true \/ Connectors.missing conf "user" = true ->
   exists err,
     Connectors.sqlserver_connect connection driver_available driver_connect t cfg
     = (t, Failure err, []) /\
     (driver_available = true ->
      err = Msg "Missing required SQL Server configuration (host, user)")).
Proof.
  cbv zeta. split; intros H; eexists; (split;
    [ unfold Connectors.snowflake_connect, Connectors.sqlserver_connect;
      rewrite connect_with_missing by exact H; reflexivity
    | intros ->; reflexivity ]).
Qed.

End Connecting.

Lemma connect_fails_fast_witness :
  let t := {| Connectors.conn := None;
              Connectors.config := {[ "user" := VStr "analyst" ]} |} in
  let cfg := Some ({[ "account" := VStr ""; "host" := VNone;
                      "user" := VStr "analyst" ]} : gmap string pyval) in
  Connectors.snowflake_connect unit true (fun _ => inr tt) t cfg
  = (t, Failure (Msg "Missing required Snowflake configuration (account, user)"), []) /\
  Connectors.sqlserver_connect unit true (fun _ => inr tt) t cfg
  = (t, Failure (Msg "Missing required SQL Server configuration (host, user)"), []).
Proof.
  intros t cfg.
  destruct (connect_fails_fast_on_missing_fields unit true (fun _ => inr tt) t cfg)
    as [Hs Hq].
  destruct Hs as [e1 [E1 M1]]; [left; vm_compute; reflexivity|].
  destruct Hq as [e2 [E2 M2]]; [left; vm_compute; reflexivity|].
  rewrite E1, E2, (M1 eq_refl), (M2 eq_refl). split; reflexivity.
Defined.

(** * Uploading tabular data *)

Lemma head_records_length df n : length (head_records df n) = Nat.min n (df_len df).
Proof.
  unfold head_records, rows. now rewrite length_take, length_map, length_seq.
Qed.

Section Upload.

Variable secure_filename : string -> string.
Variable read_csv read_excel read_json : string -> exn + DataFrame.

Local Abbreviation data_upload :=
  (Routes.data_upload secure_filename read_csv read_excel read_json).

(** A rejected upload leaves every part of the state, the disk
    included, as it was. *)
Lemma upload_rejected_before_write a f :
  Routes.filename f = "" \/
  Routes.allowed_file (Routes.filename f) Routes.tabular_extensions = false ->
  exists msg, data_upload a (Some f) = (a, Failure (Msg msg)).
Proof.
  intros H. unfold Routes.data_upload.
  destruct (String.eqb_spec (Routes.filename f) "") as [E|E]; [eauto|].
  destruct H as [H|H]; [contradiction|]. rewrite H. simpl. eauto.
Qed.

(** A stored name with the lower-case suffix is parsed, and the
    response describes the parsed frame. *)
Lemma upload_csv_reports_frame a f df :
  Routes.filename f <> "" ->
  Routes.allowed_file (Routes.filename f) Routes.tabular_extensions = true ->
  Routes.endswith (secure_filename (Routes.filename f)) ".csv" = true ->
  read_csv (Routes.content f) = inr df ->
  exists r,
    snd (data_upload a (Some f)) = Success r /\
    Routes.u_rows r = df_len df /\
    length (Routes.u_columns r) = length (df_columns df) /\
    length (Routes.u_data r) = Nat.min 100 (df_len df).
Proof.
  intros Hne Hok Hcsv Hread. unfold Routes.data_upload.
  apply String.eqb_neq in Hne. rewrite Hne, Hok. simpl.
  unfold Routes.parse. rewrite Hcsv, Hread. simpl.
  eexists. split; [reflexivity|]. simpl.
  split; [reflexivity|]. split.
  - unfold column_names. apply length_map.
  - apply head_records_length.
Qed.

(** No response carries more than a hundred preview records. *)
Lemma upload_preview_bounded a file r :
  snd (data_upload a file) = Success r -> length (Routes.u_data r) <= 100.
Proof.
  unfold Routes.data_upload.
  destruct file as [f|]; [|discriminate].
  destruct (String.eqb _ _); [discriminate|].
  destruct (negb _); [discriminate|].
  destruct (Routes.parse _ _ _ _ _ _) as [e|[df|]]; try discriminate.
  simpl. intros [= <-]. simpl. rewrite head_records_length. lia.
Qed.

(** C8, at the inputs where the code departs from it.  An accepted file
    whose stored name carries none of the lower-case suffixes (the
    extension test is case-insensitive, the choice of the reader is
    not) is written to disk but never parsed: the response is a success
    whose [rows] and [columns] are those of the frame loaded before,
    whatever the uploaded file holds. *)
Theorem upload_unparsed_suffix_reports_previous_frame a f old :
  Routes.filename f <> "" ->
  Routes.allowed_file (Routes.filename f) Routes.tabular_extensions = true ->
  let name := secure_filename (Routes.filename f) in
  Routes.endswith name ".csv" = false ->
  Routes.endswith name ".xlsx" = false ->
  Routes.endswith name ".xls" = false ->
  Routes.endswith name ".json" = false ->
  Routes.current_dataframe a = Some old ->
  let result := data_upload a (Some f) in
  snd result = Success {| Routes.u_rows := df_len old;
                          Routes.u_columns := column_names old;
                          Routes.u_data := head_records old 100 |} /\
  Routes.disk (fst result) !! ("uploads/" +:+ name) = Some (Routes.content f) /\
  Routes.current_dataframe (fst result) = Some old.
Proof.
  intros Hne Hok name H1 H2 H3 H4 Hold result. subst result.
  unfold Routes.data_upload.
  apply String.eqb_neq in Hne. rewrite Hne, Hok. simpl.
  unfold Routes.parse. fold name. rewrite H1, H2, H3, H4. simpl.
  rewrite Hold. simpl. split; [reflexivity|]. split; [|reflexivity].
  apply lookup_insert_eq.
Qed.

End Upload.

Lemma upload_unparsed_suffix_witness :
  let result :=
    Routes.data_upload Routes.ascii_secure_filename read_one_row read_one_row
                       read_one_row prices_loaded (Some upper_case_upload) in
  Routes.allowed_file "DATA.CSV" Routes.tabular_extensions = true /\
  read_one_row (Routes.content upper_case_upload) = inr one_row /\
  df_len one_row = 1 /\
  snd result = Success {| Routes.u_rows := 5;
                          Routes.u_columns := ["price"; "qty"; "city"];
                          Routes.u_data := head_records prices 100 |} /\
  Routes.disk (fst result) !! "uploads/DATA.CSV" = Some "id".
Proof.
  intros result.
  destruct (upload_unparsed_suffix_reports_previous_frame
              Routes.ascii_secure_filename read_one_row read_one_row read_one_row
              prices_loaded upper_case_upload prices)
    as (H1 & H2 & _); try reflexivity; [discriminate|].
  repeat split; assumption.
Defined.

(** * The cap on pair-plot dimensions *)

Section PairPlot.

Variable plotly : Chart.px_call -> string -> DataFrame -> exn + (string * string).

Lemma pair_plot_dimensions_cap df columns labels :
  Chart.pair_plot_selection df columns = inr labels ->
  Chart.pair_plot_dimensions df columns = inr (take 6 labels).
Proof.
  unfold Chart.pair_plot_dimensions.
  intros ->. destruct (Nat.ltb_spec 6 (length labels)) as [H|H]; [reflexivity|].
  now rewrite take_ge.
Qed.

(** C9.  Every call of [pair_plot] into the charting library is a
    scatter matrix over at most six dimensions: the first six of the
    selected columns (the caller's columns, otherwise all numeric
    columns) when there are more than six, and all of them otherwise. *)
Theorem pair_plot_plots_at_most_six st columns color call :
  In call (snd (Chart.pair_plot plotly st columns color)) ->
  exists df labels,
    st = Some df /\
    Chart.pair_plot_selection df columns = inr labels /\
    call = {| Chart.px_kind := "scatter_matrix";
              Chart.px_args := [("dimensions", VList (take 6 labels));
                                ("color", color); ("title", VStr "Pair Plot")] |} /\
    length (take 6 labels) <= 6 /\
    (6 < length labels -> length (take 6 labels) = 6) /\
    (length labels <= 6 -> take 6 labels = labels).
Proof.
  unfold Chart.pair_plot. destruct st as [df|]; [|intros []].
  destruct (Chart.pair_plot_selection df columns) as [e|labels] eqn:E.
  - unfold Chart.pair_plot_dimensions. rewrite E. intros [].
  - rewrite (pair_plot_dimensions_cap _ _ _ E). simpl.
    intros [<-|[]]. exists df, labels.
    split; [reflexivity|]. split; [exact E|]. split; [reflexivity|].
    rewrite length_take. split; [lia|]. split; [lia|].
    intros H. now apply take_ge.
Qed.

End PairPlot.

Lemma pair_plot_plots_at_most_six_witness :
  let plotly := draw_anything in
  let call := {| Chart.px_kind := "scatter_matrix";
                 Chart.px_args := [("dimensions", VList ["a"; "b"; "c"; "d"; "e"; "f"]);
                                   ("color", VNone); ("title", VStr "Pair Plot")] |} in
  In call (snd (Chart.pair_plot plotly (Some seven_columns) VNone VNone)) /\
  exists df labels,
    Some seven_columns = Some df /\
    Chart.pair_plot_selection df VNone = inr labels /\
    call = {| Chart.px_kind := "scatter_matrix";
              Chart.px_args := [("dimensions", VList (take 6 labels));
                                ("color", VNone); ("title", VStr "Pair Plot")] |} /\
    length (take 6 labels) <= 6 /\
    (6 < length labels -> length (take 6 labels) = 6) /\
    (length labels <= 6 -> take 6 labels = labels).
Proof.
  intros plotly call.
  assert (H : In call (snd (Chart.pair_plot plotly (Some seven_columns) VNone VNone)))
    by (left; reflexivity).
  split; [exact H|].
  exact (pair_plot_plots_at_most_six plotly _ _ _ _ H).
Defined.

(** * Batch loading of documents *)

Section BatchLoading.

Variable path_exists : string -> bool.
Variable read_pages : string -> exn + list string.

Local Abbreviation load_pdf := (PDF.load_pdf path_exists read_pages).
Local Abbreviation batch_step := (PDF.batch_step path_exists read_pages).
Local Abbreviation load_multiple_pdfs := (PDF.load_multiple_pdfs path_exists read_pages).
Local Abbreviation loads := (PDF.loads path_exists read_pages).
Local Abbreviation consistent := (PDF.consistent).
Local Abbreviation count_ok := (PDF.count_ok).
Local Abbreviation count_failed := (PDF.count_failed).

Lemma load_pdf_success_state st file_path :
  success (snd (load_pdf st file_path)) = loads file_path.
Proof.
  unfold PDF.loads, PDF.load_pdf.
  destruct (negb (path_exists file_path)); [reflexivity|].
  destruct (read_pages file_path); reflexivity.
Qed.

Lemma count_ok_failed l : count_ok l + count_failed l = length l.
Proof.
  unfold PDF.count_ok, PDF.count_failed.
  induction l as [|r l IH]; simpl; [reflexivity|].
  destruct (PDF.fr_success r); simpl; lia.
Qed.

Lemma batch_step_consistent b p : consistent b -> consistent (batch_step b p).
Proof.
  intros [Hs Hf]. unfold PDF.consistent, PDF.batch_step, PDF.count_ok, PDF.count_failed in *.
  simpl. rewrite !List.filter_app, !length_app. simpl.
  destruct (success _); simpl; lia.
Qed.

Lemma batch_step_results b p :
  PDF.results (batch_step b p)
  = PDF.results b ++ [ {| PDF.fr_file := p; PDF.fr_success := loads p |} ].
Proof.
  unfold PDF.batch_step. simpl. now rewrite load_pdf_success_state.
Qed.

Lemma batch_fold b paths :
  consistent b ->
  let b' := foldl batch_step b paths in
  consistent b' /\
  PDF.results b'
  = PDF.results b
    ++ map (fun p => {| PDF.fr_file := p; PDF.fr_success := loads p |}) paths.
Proof.
  revert b. induction paths as [|p paths IH]; intros b Hb; simpl.
  - split; [exact Hb | now rewrite app_nil_r].
  - destruct (IH (batch_step b p) (batch_step_consistent b p Hb)) as [Hc Hr].
    split; [exact Hc|].
    rewrite Hr, batch_step_results, <- app_assoc. reflexivity.
Qed.

(** C10.  For every list of file paths, the counts returned by
    [load_multiple_pdfs] satisfy [successful + failed = total = length
    of the list], and the top-level [success] flag is true if and only
    if [failed = 0], that is, if and only if every file of the list
    loads. *)
Theorem load_multiple_pdfs_counts st (file_paths : list string) :
  let r := snd (load_multiple_pdfs st file_paths) in
  PDF.b_successful r + PDF.b_failed r = PDF.b_total r /\
  PDF.b_total r = length file_paths /\
  PDF.b_results r
  = map (fun p => {| PDF.fr_file := p; PDF.fr_success := loads p |}) file_paths /\
  PDF.b_failed r = length (List.filter (fun p => negb (loads p)) file_paths) /\
  (PDF.b_success r = true <-> PDF.b_failed r = 0) /\
  (PDF.b_success r = true <-> forall p, In p file_paths -> loads p = true).
Proof.
  cbv zeta. unfold PDF.load_multiple_pdfs. simpl.
  set (b0 := {| PDF.docs := st; PDF.results := []; PDF.successful := 0; PDF.failed := 0 |}).
  assert (H0 : consistent b0) by (split; reflexivity).
  destruct (batch_fold b0 file_paths H0) as [[Hs Hf] Hr]. simpl in Hr.
  set (b := foldl batch_step b0 file_paths) in *.
  assert (Hfailed : PDF.failed b
                    = length (List.filter (fun p => negb (loads p)) file_paths)).
  { rewrite Hf, Hr. unfold PDF.count_failed.
    clear. induction file_paths as [|p l IH]; simpl; [reflexivity|].
    destruct (loads p); simpl; congruence. }
  assert (Hlen : length (PDF.results b) = length file_paths).
  { rewrite Hr. apply length_map. }
  repeat split.
  - rewrite Hs, Hf, count_ok_failed. exact Hlen.
  - exact Hr.
  - exact Hfailed.
  - apply Nat.eqb_eq.
  - apply Nat.eqb_eq.
  - intros H p Hp. apply Nat.eqb_eq in H. rewrite Hfailed in H.
    destruct (loads p) eqn:E; [reflexivity|].
    assert (Hin : In p (List.filter (fun p => negb (loads p)) file_paths)).
    { apply List.filter_In. split; [exact Hp | now rewrite E]. }
    destruct (List.filter _ file_paths); [destruct Hin | discriminate].
  - intros H. apply Nat.eqb_eq. rewrite Hfailed.
    clear -H. induction file_paths as [|p l IH]; simpl; [reflexivity|].
    rewrite (H p) by (now left). simpl. apply IH.
    intros q Hq. apply H. now right.
Qed.

End BatchLoading.

(** * Descriptive statistics *)

Section Describe.

Local Open Scope Q_scope.

Variable sqrt : Q -> Q.

Lemma foldl_Qmin_le_acc (t : list Q) acc : foldl Qmin acc t <= acc.
Proof.
  revert acc. induction t as [|a t IH]; intros acc; simpl; [lra|].
  eapply Qle_trans; [apply IH | apply Q.le_min_l].
Qed.

Lemma foldl_Qmin_le (t : list Q) acc y : In y t -> foldl Qmin acc t <= y.
Proof.
  revert acc. induction t as [|a t IH]; intros acc; [intros []|].
  simpl. intros [<-|Hy]; [|now apply IH].
  eapply Qle_trans; [apply foldl_Qmin_le_acc | apply Q.le_min_r].
Qed.

Lemma foldl_Qmax_ge_acc (t : list Q) acc : acc <= foldl Qmax acc t.
Proof.
  revert acc. induction t as [|a t IH]; intros acc; simpl; [lra|].
  eapply Qle_trans; [apply Q.le_max_l | apply IH].
Qed.

Lemma foldl_Qmax_ge (t : list Q) acc y : In y t -> y <= foldl Qmax acc t.
Proof.
  revert acc. induction t as [|a t IH]; intros acc; [intros []|].
  simpl. intros [<-|Hy]; [|now apply IH].
  eapply Qle_trans; [apply Q.le_max_r | apply foldl_Qmax_ge_acc].
Qed.

(** The smallest and the largest value bound every value. *)
Lemma min_max_bound (data : list Q) lo hi y :
  EDA.Qmin_list data = Fin lo -> EDA.Qmax_list data = Fin hi ->
  In y data -> lo <= y <= hi.
Proof.
  destruct data as [|x t]; [discriminate|].
  unfold EDA.Qmin_list, EDA.Qmax_list. intros [= <-] [= <-] [<-|Hy]; split.
  - apply foldl_Qmin_le_acc.
  - apply foldl_Qmax_ge_acc.
  - now apply foldl_Qmin_le.
  - now apply foldl_Qmax_ge.
Qed.

Lemma sort_In x l : In x (sort l) -> In x l.
Proof.
  induction l as [|y l IH]; simpl; [auto|].
  intros H. destruct (insert_sorted_In _ _ _ H) as [->|H']; auto.
Qed.

(** A quantile lies between two values of the series. *)
Lemma quantile_between_values (data : list Q) p q :
  0 <= p <= 1 -> quantile data p = Fin q ->
  exists a b, In a data /\ In b data /\ a <= q <= b.
Proof.
  intros Hp. destruct (decide (data = [])) as [->|Hne]; [discriminate|].
  rewrite quantile_Fin by exact Hne. intros [= <-].
  assert (Hlen : (0 < length (sort data))%nat).
  { rewrite sort_length. destruct data; [congruence | simpl; lia]. }
  pose proof (quantile_sorted_bounds (sort data) (sort_ascending data) Hlen p Hp) as Hb.
  pose proof (floor_bounds (sort data) Hlen p Hp) as Hf.
  cbv zeta in Hb.
  eexists. eexists. split; [|split; [|exact Hb]].
  - apply sort_In, nth_In. lia.
  - apply sort_In, nth_In. lia.
Qed.

Lemma quantiles_ordered (data : list Q) p1 p2 a b :
  0 <= p1 -> p1 <= p2 -> p2 <= 1 ->
  quantile data p1 = Fin a -> quantile data p2 = Fin b -> a <= b.
Proof.
  intros H0 H12 H1.
  destruct (decide (data = [])) as [->|Hne]; [discriminate|].
  rewrite !quantile_Fin by exact Hne. intros [= <-] [= <-].
  apply quantile_sorted_mono; try assumption.
  - apply sort_ascending.
  - rewrite sort_length. destruct data; [congruence | simpl; lia].
Qed.

Lemma column_statistics_entry df cols stats c s :
  EDA.column_statistics sqrt df cols = inr stats ->
  In (c, s) stats ->
  exists values, getitem df c = [NumCol values] /\ s = EDA.describe sqrt values.
Proof.
  revert stats. induction cols as [|c0 cols IH]; intros stats; simpl.
  - intros [= <-] [].
  - destruct (getitem df c0) as [|[values|] [|]] eqn:E; try discriminate.
    destruct (EDA.column_statistics sqrt df cols) as [e|l]; [discriminate|].
    intros [= <-] [[= <- <-]|Hin].
    + exists values. now split.
    + now apply (IH l).
Qed.

Lemma get_statistics_success df columns r :
  EDA.get_statistics sqrt (Some df) columns = Success r ->
  EDA.column_statistics sqrt df (EDA.sr_columns_analyzed r)
  = inr (EDA.sr_statistics r).
Proof.
  unfold EDA.get_statistics.
  match goal with |- context [match ?sel with [] => Failure _ | _ => _ end] =>
    destruct sel as [|x l] eqn:E end; [discriminate|].
  destruct (EDA.column_statistics sqrt df (x :: l)) as [e|stats] eqn:Es;
    [discriminate|].
  intros [= <-]. exact Es.
Qed.

(** The standard deviation is missing exactly below two values. *)
Lemma std_missing (data : list Q) :
  EDA.opt_float (std sqrt data) = None <-> (length data < 2)%nat.
Proof.
  unfold std. destruct data as [|x [|y l]].
  - split; [intros _; simpl; lia | reflexivity].
  - split; [intros _; simpl; lia | reflexivity].
  - rewrite variance_two. unfold fsqrt_with.
    assert (Hv : 0 <= ssq (x :: y :: l) / (Qlen (x :: y :: l) - 1)).
    { apply (variance_nonneg (x :: y :: l)). apply variance_two. }
    rewrite (proj2 (Qltb_ge _ 0) Hv).
    split; [discriminate | simpl; lia].
Qed.

Lemma describe_empty (values : list (option Q)) :
  dropna values = [] ->
  let s := EDA.describe sqrt values in
  EDA.cs_count s = 0%nat /\
  EDA.cs_mean s = None /\ EDA.cs_std s = None /\
  EDA.cs_min s = None /\ EDA.cs_max s = None /\
  EDA.cs_median s = None /\ EDA.cs_q25 s = None /\ EDA.cs_q75 s = None.
Proof. intros E. unfold EDA.describe. rewrite E. repeat split. Qed.

Lemma describe_ordered (values : list (option Q)) :
  dropna values <> [] ->
  let s := EDA.describe sqrt values in
  exists lo q1 med q3 hi mu,
    EDA.cs_min s = Some (Fin lo) /\ EDA.cs_q25 s = Some (Fin q1) /\
    EDA.cs_median s = Some (Fin med) /\ EDA.cs_q75 s = Some (Fin q3) /\
    EDA.cs_max s = Some (Fin hi) /\ EDA.cs_mean s = Some (Fin mu) /\
    lo <= q1 /\ q1 <= med /\ med <= q3 /\ q3 <= hi.
Proof.
  intros Hne s. subst s. unfold EDA.describe.
  set (data := dropna values) in *.
  destruct (quantile_nonempty data (1 # 4) Hne) as [q1 E1].
  destruct (quantile_nonempty data (1 # 2) Hne) as [med E2].
  destruct (quantile_nonempty data (3 # 4) Hne) as [q3 E3].
  assert (Hmin : exists lo, EDA.Qmin_list data = Fin lo)
    by (destruct data; [congruence | simpl; eauto]).
  assert (Hmax : exists hi, EDA.Qmax_list data = Fin hi)
    by (destruct data; [congruence | simpl; eauto]).
  destruct Hmin as [lo Elo], Hmax as [hi Ehi].
  assert (Hmean : mean data = Fin (mean_of data))
    by (destruct data; [congruence | reflexivity]).
  exists lo, q1, med, q3, hi, (mean_of data). simpl.
  rewrite E1, E2, E3, Elo, Ehi, Hmean. simpl.
  repeat (split; [reflexivity|]).
  pose proof (min_max_bound data lo hi) as Hb.
  destruct (quantile_between_values data (1 # 4) q1) as (a & _ & Ha & _ & [Ha1 _]);
    [lra | exact E1 |].
  destruct (quantile_between_values data (3 # 4) q3) as (_ & b & _ & Hb3 & [_ Hb2]);
    [lra | exact E3 |].
  destruct (Hb a Elo Ehi Ha) as [La _].
  destruct (Hb b Elo Ehi Hb3) as [_ Ub].
  split; [lra|].
  split; [apply (quantiles_ordered data (1 # 4) (1 # 2)); auto; lra|].
  split; [apply (quantiles_ordered data (1 # 2) (3 # 4)); auto; lra|].
  lra.
Qed.

(** X1.  Each entry of a successful [get_statistics] describes one
    numeric column of the frame: its [count] is the number of values
    that are not missing, and with no value present every statistic is
    missing.  On values of moderate magnitude [std] is missing exactly
    when fewer than two values are present, and with at least one value
    the mean is present and [min <= q25 <= median <= q75 <= max]. *)
Theorem statistics_entries_are_ordered df columns r c s :
  EDA.get_statistics sqrt (Some df) columns = Success r ->
  In (c, s) (EDA.sr_statistics r) ->
  exists values,
    getitem df c = [NumCol values] /\
    EDA.cs_count s = length (dropna values) /\
    (EDA.cs_count s = 0%nat ->
     EDA.cs_mean s = None /\ EDA.cs_std s = None /\
     EDA.cs_min s = None /\ EDA.cs_max s = None /\
     EDA.cs_median s = None /\ EDA.cs_q25 s = None /\ EDA.cs_q75 s = None) /\
    (moderate (dropna values) ->
     (EDA.cs_std s = None <-> (EDA.cs_count s < 2)%nat) /\
     ((0 < EDA.cs_count s)%nat ->
      exists lo q1 med q3 hi mu,
        EDA.cs_min s = Some (Fin lo) /\ EDA.cs_q25 s = Some (Fin q1) /\
        EDA.cs_median s = Some (Fin med) /\ EDA.cs_q75 s = Some (Fin q3) /\
        EDA.cs_max s = Some (Fin hi) /\ EDA.cs_mean s = Some (Fin mu) /\
        lo <= q1 /\ q1 <= med /\ med <= q3 /\ q3 <= hi)).
Proof.
  intros H Hin. apply get_statistics_success in H.
  destruct (column_statistics_entry _ _ _ _ _ H Hin) as [values [Hcol ->]].
  exists values. split; [exact Hcol|]. split; [reflexivity|]. split.
  - intros Hc. simpl in Hc. apply length_zero_iff_nil in Hc.
    destruct (describe_empty values Hc) as (_ & ? & ? & ? & ? & ? & ? & ?).
    repeat split; assumption.
  - intros _. split; [apply std_missing|].
    intros Hc. apply describe_ordered. simpl in Hc.
    intros E. rewrite E in Hc. simpl in Hc. lia.
Qed.

End Describe.

Lemma statistics_entries_are_ordered_witness :
  exists r s,
    EDA.get_statistics Qsqrt (Some prices) (Some ["qty"]) = Success r /\
    In ("qty", s) (EDA.sr_statistics r) /\
    EDA.cs_count s = 5%nat /\
    EDA.cs_std s <> None.
Proof.
  destruct (EDA.get_statistics Qsqrt (Some prices) (Some ["qty"])) as [r|e] eqn:E;
    [|vm_compute in E; discriminate].
  assert (Hin : In ("qty", EDA.describe Qsqrt
                             [Some 4%Q; Some 2%Q; Some 3%Q; Some 1%Q; Some 10%Q])
                   (EDA.sr_statistics r)).
  { vm_compute in E. injection E as <-. left. reflexivity. }
  exists r. eexists. split; [reflexivity|]. split; [exact Hin|].
  destruct (statistics_entries_are_ordered Qsqrt prices _ r _ _ E Hin)
    as (values & Hcol & Hc & _ & Hm).
  injection Hcol as <-. split; [exact Hc|].
  destruct Hm as [Hstd _].
  { repeat constructor; vm_compute; discriminate. }
  intros Hn. apply Hstd in Hn. rewrite Hc in Hn. simpl in Hn. lia.
Defined.

(** * Counting cells *)

Section Cells.

Lemma filter_split {A} (f : A -> bool) (l : list A) :
  length (List.filter f l) + length (List.filter (fun x => negb (f x)) l) = length l.
Proof.
  induction l as [|x l IH]; simpl; [reflexivity|].
  destruct (f x); simpl; lia.
Qed.

Lemma non_null_null_count (c : column) :
  length (non_null c) + null_count c = Shape.column_length c.
Proof.
  unfold non_null, null_count, Shape.column_length.
  rewrite Nat.add_comm. apply filter_split.
Qed.

Lemma distinct_step_length {A} (eqb : A -> A -> bool) (l seen : list A) :
  length seen
  <= length (foldl (fun seen x => if existsb (eqb x) seen then seen else seen ++ [x])
                   seen l)
  <= length seen + length l.
Proof.
  revert seen. induction l as [|x l IH]; intros seen; simpl; [lia|].
  destruct (existsb (eqb x) seen).
  - specialize (IH seen). lia.
  - specialize (IH (seen ++ [x])). rewrite length_app in IH. simpl in IH. lia.
Qed.

Lemma distinct_length {A} (eqb : A -> A -> bool) (l : list A) :
  length (distinct eqb l) <= length l.
Proof. unfold distinct. pose proof (distinct_step_length eqb l []). simpl in *. lia. Qed.

(** A non-empty list has a first distinct value. *)
Lemma distinct_nonempty {A} (eqb : A -> A -> bool) (l : list A) :
  l <> [] -> 1 <= length (distinct eqb l).
Proof.
  destruct l as [|x l]; [congruence|]. intros _. unfold distinct. simpl.
  pose proof (distinct_step_length eqb l [x]). simpl in *. lia.
Qed.

Lemma rows_length df : length (rows df) = df_len df.
Proof. unfold rows. now rewrite length_map, length_seq. Qed.

(** X2.  A successful [get_basic_info] reports the number of rows and
    columns of the frame and one entry per column, in order, under
    labels that are all different.  A frame with rows has fewer
    duplicated rows than rows.  In every entry the non-null and null
    counts add up to the length of the column, and there are no more
    distinct values than non-null ones. *)
Theorem basic_info_counts_add_up df r :
  EDA.get_basic_info (Some df) = Success r ->
  EDA.bi_rows r = df_len df /\
  EDA.bi_columns r = length (df_columns df) /\
  map EDA.ci_name (EDA.bi_column_info r) = column_names df /\
  NoDup (column_names df) /\
  (0 < df_len df -> EDA.bi_duplicates r < EDA.bi_rows r) /\
  Forall2 (fun p ci =>
             EDA.ci_non_null ci + EDA.ci_null_count ci = Shape.column_length (snd p) /\
             EDA.ci_unique_values ci <= EDA.ci_non_null ci)
          (df_columns df) (EDA.bi_column_info r).
Proof.
  unfold EDA.get_basic_info.
  destruct (unique_labels (column_names df)) eqn:Hu; [|discriminate].
  simpl. intros [= <-]. simpl.
  split; [reflexivity|]. split; [reflexivity|].
  split; [unfold column_names; rewrite List.map_map; reflexivity|].
  split; [now apply unique_labels_NoDup|].
  split.
  - intros Hpos. unfold duplicated_count.
    assert (Hne : rows df <> []).
    { intros E. pose proof (rows_length df) as Hl. rewrite E in Hl. simpl in Hl. lia. }
    pose proof (distinct_nonempty row_eqb (rows df) Hne).
    lia.
  - induction (df_columns df) as [|p l IH]; simpl; constructor; [|exact IH].
    split; [apply non_null_null_count | apply distinct_length].
Qed.

End Cells.

Lemma basic_info_counts_add_up_witness :
  exists r,
    EDA.get_basic_info (Some prices) = Success r /\
    EDA.bi_rows r = 5 /\ EDA.bi_duplicates r < 5.
Proof.
  destruct (EDA.get_basic_info (Some prices)) as [r|e] eqn:E;
    [|vm_compute in E; discriminate].
  exists r. split; [reflexivity|].
  destruct (basic_info_counts_add_up prices r E) as (H1 & _ & _ & _ & H5 & _).
  split; [exact H1|]. rewrite H1 in H5. apply H5. simpl. lia.
Defined.

(** * Value frequencies *)

Section ValueCounts.

Local Abbreviation by_count := Shape.by_count.

Lemma insert_count_In p l x : In x (EDA.insert_count p l) <-> x = p \/ In x l.
Proof.
  induction l as [|q l IH]; simpl; [intuition|].
  destruct (Nat.leb (snd q) (snd p)); simpl; [intuition|].
  rewrite IH. intuition.
Qed.

Lemma insert_count_length p l : length (EDA.insert_count p l) = S (length l).
Proof.
  induction l as [|q l IH]; simpl; [reflexivity|].
  destruct (Nat.leb (snd q) (snd p)); simpl; congruence.
Qed.

Lemma insert_count_HdRel a p l :
  by_count a p -> HdRel by_count a l -> HdRel by_count a (EDA.insert_count p l).
Proof.
  intros Hp Hl. destruct l as [|q l]; simpl; [now constructor|].
  destruct (Nat.leb (snd q) (snd p)); constructor; [exact Hp|].
  now inversion Hl.
Qed.

Lemma insert_count_Sorted p l :
  Sorted by_count l -> Sorted by_count (EDA.insert_count p l).
Proof.
  induction 1 as [|q l Hs IH Hq]; simpl; [repeat constructor|].
  destruct (Nat.leb_spec (snd q) (snd p)) as [Hle|Hgt].
  - constructor; [now constructor|]. constructor. exact Hle.
  - constructor; [exact IH|].
    apply insert_count_HdRel; [unfold Shape.by_count; lia | exact Hq].
Qed.

Lemma sort_counts_Sorted l : Sorted by_count (foldr EDA.insert_count [] l).
Proof.
  induction l as [|p l IH]; simpl; [constructor|]. now apply insert_count_Sorted.
Qed.

Lemma sort_counts_In l x : In x (foldr EDA.insert_count [] l) <-> In x l.
Proof.
  induction l as [|p l IH]; simpl; [reflexivity|].
  rewrite insert_count_In, IH. intuition.
Qed.

Lemma sort_counts_length l : length (foldr EDA.insert_count [] l) = length l.
Proof.
  induction l as [|p l IH]; simpl; [reflexivity|].
  now rewrite insert_count_length, IH.
Qed.

Lemma Sorted_take {A} (R : A -> A -> Prop) n (l : list A) :
  Sorted R l -> Sorted R (take n l).
Proof.
  intros H. revert n. induction H as [|x l Hs IH Hx]; intros [|n]; simpl;
    try constructor.
  - apply IH.
  - destruct Hx; destruct n; simpl; constructor. assumption.
Qed.

Lemma In_take {A} n (l : list A) x : In x (take n l) -> In x l.
Proof.
  revert n. induction l as [|y l IH]; intros [|n]; simpl; try tauto.
  intros [->|H]; [now left | right; eauto].
Qed.

Lemma distinct_step_In {A} (eqb : A -> A -> bool) (l seen : list A) x :
  In x (foldl (fun seen x => if existsb (eqb x) seen then seen else seen ++ [x])
              seen l) ->
  In x seen \/ In x l.
Proof.
  revert seen. induction l as [|y l IH]; intros seen; simpl; [auto|].
  intros H. apply IH in H. destruct (existsb (eqb y) seen).
  - tauto.
  - destruct H as [H|H]; [|tauto].
    apply in_app_or in H. simpl in H. tauto.
Qed.

Lemma distinct_In {A} (eqb : A -> A -> bool) (l : list A) x :
  In x (distinct eqb l) -> In x l.
Proof.
  intros H. apply distinct_step_In in H. destruct H as [[]|H]. exact H.
Qed.

Lemma cell_eqb_refl c : cell_eqb c c = true.
Proof.
  destruct c; simpl; [|apply String.eqb_refl|reflexivity].
  apply Qeq_bool_iff. reflexivity.
Qed.

Lemma occurrences_pos x l : In x l -> 1 <= EDA.occurrences x l.
Proof.
  intros H. unfold EDA.occurrences.
  assert (Hin : In x (List.filter (cell_eqb x) l)).
  { apply List.filter_In. split; [exact H | apply cell_eqb_refl]. }
  destruct (List.filter (cell_eqb x) l); [destruct Hin | simpl; lia].
Qed.

Lemma non_null_present c x : In x (non_null c) -> is_null x = false.
Proof.
  unfold non_null. intros H. apply List.filter_In in H.
  destruct H as [_ H]. now apply negb_true_iff in H.
Qed.

(** X3.  A successful [get_value_counts] with [top_n >= 0] concerns a
    single column; [total_unique] is its number of distinct values; the
    table has [min(top_n, total_unique)] entries in order of
    non-increasing count; every entry is a value that is not missing,
    with the number of times it occurs, which is at least one. *)
Theorem value_counts_are_the_top_n df column top_n r :
  EDA.get_value_counts (Some df) column top_n = Success r ->
  (0 <= top_n)%Z ->
  exists c,
    getitem df column = [c] /\
    EDA.vc_total_unique r = nunique c /\
    length (EDA.vc_value_counts r) = Nat.min (Z.to_nat top_n) (nunique c) /\
    Sorted by_count (EDA.vc_value_counts r) /\
    Forall (fun p => is_null (fst p) = false /\
                     snd p = EDA.occurrences (fst p) (non_null c) /\
                     1 <= snd p)
           (EDA.vc_value_counts r).
Proof.
  unfold EDA.get_value_counts.
  destruct (negb (has_column df column)); [discriminate|].
  destruct (getitem df column) as [|c [|]]; try discriminate.
  intros [= <-] Hn. exists c. simpl.
  split; [reflexivity|]. split; [reflexivity|].
  unfold EDA.head. rewrite (proj2 (Z.leb_le 0 top_n) Hn).
  unfold EDA.value_counts. split; [|split].
  - rewrite length_take, sort_counts_length, length_map. reflexivity.
  - apply Sorted_take, sort_counts_Sorted.
  - apply List.Forall_forall. intros p Hp.
    apply In_take, sort_counts_In, in_map_iff in Hp.
    destruct Hp as [x [<- Hx]]. apply distinct_In in Hx. simpl.
    split; [now apply (non_null_present c)|].
    split; [reflexivity | now apply occurrences_pos].
Qed.

End ValueCounts.

Lemma value_counts_are_the_top_n_witness :
  exists r,
    EDA.get_value_counts (Some prices) "city" 1 = Success r /\
    EDA.vc_value_counts r = [(CStr "Oslo", 3)] /\
    EDA.vc_total_unique r = 2.
Proof.
  destruct (EDA.get_value_counts (Some prices) "city" 1) as [r|e] eqn:E;
    [|vm_compute in E; discriminate].
  exists r. split; [reflexivity|].
  destruct (value_counts_are_the_top_n prices "city" 1 r E) as (c & Hc & Hu & _);
    [lia|].
  injection Hc as <-. split; [|exact Hu].
  vm_compute in E. injection E as <-. reflexivity.
Defined.

(** * The data-quality report and the full report *)

Section Quality.

Variable sqrt : Q -> Q.
Variable kendalltau : list Q -> list Q -> float.

Lemma null_count_le c : null_count c <= Shape.column_length c.
Proof. pose proof (non_null_null_count c). lia. Qed.

Lemma nunique_le c : nunique c + null_count c <= Shape.column_length c.
Proof.
  pose proof (non_null_null_count c).
  pose proof (distinct_length cell_eqb (non_null c)). unfold nunique. lia.
Qed.

Lemma missing_cells_bound (cols : list (string * column)) n :
  Forall (fun p => Shape.column_length (snd p) = n) cols ->
  foldr (fun p acc => null_count (snd p) + acc) 0 cols <= n * length cols.
Proof.
  induction 1 as [|p l Hp _ IH]; simpl; [lia|].
  pose proof (null_count_le (snd p)). lia.
Qed.

(** X4.  In a successful [get_data_quality_report], [total_cells] is
    the product of the row and column counts, [missing_cells] is the sum
    of the per-column missing counts, and the entries follow the columns
    of the frame.  When every column has one cell per row, no more cells
    are missing than exist, and in each column the distinct and the
    missing values together do not exceed the rows. *)
Theorem quality_report_totals_agree df r :
  EDA.get_data_quality_report (Some df) = Success r ->
  EDA.qr_total_cells r = EDA.qr_total_rows r * EDA.qr_total_columns r /\
  EDA.qr_missing_cells r
  = foldr (fun q acc => EDA.cq_missing q + acc) 0 (EDA.qr_column_quality r) /\
  map EDA.cq_name (EDA.qr_column_quality r) = column_names df /\
  (Shape.well_formed df ->
   EDA.qr_missing_cells r <= EDA.qr_total_cells r /\
   Forall (fun q => EDA.cq_unique q + EDA.cq_missing q <= EDA.qr_total_rows r)
          (EDA.qr_column_quality r)).
Proof.
  unfold EDA.get_data_quality_report.
  destruct (EDA.column_quality_error _ _ _); [discriminate|].
  intros [= <-]. simpl.
  split; [reflexivity|]. split; [|split].
  - unfold EDA.missing_cells.
    induction (df_columns df) as [|p l IH]; simpl; [reflexivity|]. now rewrite IH.
  - unfold column_names. now rewrite List.map_map.
  - intros Hwf. split.
    + now apply missing_cells_bound.
    + unfold Shape.well_formed in Hwf. apply List.Forall_forall. intros q Hq.
      apply in_map_iff in Hq. destruct Hq as [p [<- Hp]]. simpl.
      rewrite List.Forall_forall in Hwf. rewrite <- (Hwf p Hp).
      apply nunique_le.
Qed.

Lemma repeated_label_counted (l : list string) :
  unique_labels l = false ->
  exists x, In x l /\ 1 < length (List.filter (String.eqb x) l).
Proof.
  induction l as [|a l IH]; [discriminate|]. cbn [unique_labels].
  destruct (existsb (String.eqb a) l) eqn:Ea; cbn [negb andb].
  - intros _. exists a. split; [now left|].
    cbn [List.filter]. rewrite String.eqb_refl. cbn [length].
    apply existsb_exists in Ea. destruct Ea as [y [Hy Hay]].
    assert (Hin : In y (List.filter (String.eqb a) l)) by (apply filter_In; auto).
    destruct (List.filter (String.eqb a) l); [destruct Hin | simpl; lia].
  - intros H. destruct (IH H) as [x [Hx Hc]]. exists x. split; [now right|].
    cbn [List.filter]. destruct (String.eqb x a); cbn [length]; lia.
Qed.

Lemma column_quality_error_counts rows all labels :
  EDA.column_quality_error rows all labels = None ->
  forall x, In x labels -> length (List.filter (String.eqb x) all) <= 1.
Proof.
  induction labels as [|a labels IH]; [intros _ x []|].
  cbn [EDA.column_quality_error].
  destruct (Nat.ltb_spec 1 (length (List.filter (String.eqb a) all))) as [Hlt|Hle];
    [discriminate|].
  destruct (Nat.eqb rows 0); [discriminate|].
  intros Hrest x [<-|Hx]; [exact Hle | now apply IH].
Qed.

Lemma repeated_labels_fail_quality df :
  unique_labels (column_names df) = false ->
  success (EDA.get_data_quality_report (Some df)) = false.
Proof.
  intros H. unfold EDA.get_data_quality_report.
  destruct (EDA.column_quality_error _ _ _) eqn:E; [reflexivity|].
  destruct (repeated_label_counted _ H) as [x [Hx Hc]].
  pose proof (column_quality_error_counts _ _ _ E x Hx). lia.
Qed.

(** X5.  With a dataset, [get_full_eda_report] always succeeds, also
    when its parts fail: each of the four parts is what the
    corresponding method returns, [get_statistics] being called without
    a column list and [get_correlations] with its default method.
    Without numeric columns the statistics and correlations parts are
    the two failures saying so; with a repeated column label the
    basic-info and quality parts are failures. *)
Theorem full_report_succeeds_with_failed_parts df :
  exists r,
    EDA.get_full_eda_report sqrt kendalltau (Some df) = Success r /\
    EDA.fr_basic_info r = EDA.get_basic_info (Some df) /\
    EDA.fr_statistics r = EDA.get_statistics sqrt (Some df) None /\
    EDA.fr_correlations r
    = EDA.get_correlations sqrt kendalltau (Some df) "pearson" /\
    EDA.fr_data_quality r = EDA.get_data_quality_report (Some df) /\
    (select_numeric df = [] ->
     EDA.fr_statistics r = Failure (Msg "No numeric columns found") /\
     EDA.fr_correlations r = Failure (Msg "No numeric columns for correlation")) /\
    (unique_labels (column_names df) = false ->
     success (EDA.fr_basic_info r) = false /\
     success (EDA.fr_data_quality r) = false).
Proof.
  eexists. split; [reflexivity|].
  cbn [EDA.fr_basic_info EDA.fr_statistics EDA.fr_correlations EDA.fr_data_quality].
  split; [reflexivity|]. split; [reflexivity|]. split; [reflexivity|].
  split; [reflexivity|]. split.
  - intros E. unfold EDA.get_statistics, EDA.get_correlations, EDA.numeric_labels,
      numeric_empty. rewrite E. split; reflexivity.
  - intros E. split; [|now apply repeated_labels_fail_quality].
    unfold EDA.get_basic_info. now rewrite E.
Qed.

End Quality.

Lemma quality_report_totals_agree_witness :
  exists r,
    EDA.get_data_quality_report (Some prices) = Success r /\
    EDA.qr_total_cells r = 15 /\
    EDA.qr_missing_cells r <= 15.
Proof.
  destruct (EDA.get_data_quality_report (Some prices)) as [r|e] eqn:E;
    [|vm_compute in E; discriminate].
  exists r. split; [reflexivity|].
  destruct (quality_report_totals_agree prices r E) as (H1 & _ & _ & H4).
  assert (Ht : EDA.qr_total_cells r = 15)
    by (vm_compute in E; injection E as <-; reflexivity).
  split; [exact Ht|]. rewrite <- Ht. apply H4.
  repeat constructor.
Defined.

Lemma full_report_succeeds_with_failed_parts_witness :
  exists r,
    EDA.get_full_eda_report Qsqrt no_kendall (Some cities) = Success r /\
    EDA.fr_statistics r = Failure (Msg "No numeric columns found") /\
    exists r',
      EDA.get_full_eda_report Qsqrt no_kendall (Some twins) = Success r' /\
      success (EDA.fr_basic_info r') = false.
Proof.
  destruct (full_report_succeeds_with_failed_parts Qsqrt no_kendall cities)
    as (r & Hr & _ & _ & _ & _ & Hnum & _).
  exists r. split; [exact Hr|]. split; [apply Hnum; reflexivity|].
  destruct (full_report_succeeds_with_failed_parts Qsqrt no_kendall twins)
    as (r' & Hr' & _ & _ & _ & _ & _ & Hdup).
  exists r'. split; [exact Hr'|]. apply Hdup. reflexivity.
Defined.

(** * What the action tables do to the dataset *)

Lemma assoc_Some_In {A} key (table : list (string * A)) v :
  assoc key table = Some v -> In (key, v) table.
Proof.
  induction table as [|[k w] table IH]; simpl; [discriminate|].
  destruct (String.eqb_spec k key) as [->|Hne].
  - intros [= ->]. now left.
  - intros H. right. now apply IH.
Qed.

Section Actions.

Variable sqrt : Q -> Q.
Variable kendalltau : list Q -> list Q -> float.
Variable plotly : Chart.px_call -> string -> DataFrame -> exn + (string * string).

Lemma eda_actions_keep_state st kw :
  Forall (fun p => fst p = "load" \/ fst (snd p) = st)
         (EDA.actions sqrt kendalltau st kw).
Proof.
  unfold EDA.actions.
  repeat (apply List.Forall_cons; [first [left; reflexivity | right; reflexivity]|]).
  apply List.Forall_nil.
Qed.

Lemma chart_actions_keep_state st k :
  Forall (fun p => fst p = "load" \/ fst (snd p) = st)
         (Chart.actions plotly st k).
Proof.
  unfold Chart.actions. simpl map.
  repeat (apply List.Forall_cons; [first [left; reflexivity | right; reflexivity]|]).
  apply List.Forall_nil.
Qed.

(** X6.  Through [run], only the action [load] replaces the dataset
    of the EDA tool and of the chart tool: every other action, known or
    not, leaves it as it was.  In both tools, loading a frame stores it
    and succeeds, the chart tool calling no library function; loading
    without the [data] keyword fails, and still replaces the dataset,
    by nothing. *)
Theorem only_load_replaces_the_dataset :
  (forall st action kw,
     action <> "load" -> fst (EDA.run sqrt kendalltau st action kw) = st) /\
  (forall st action k,
     action <> "load" -> fst (Chart.run plotly st action k) = st) /\
  (forall st kw df,
     EDA.kw_data kw = Some df ->
     fst (EDA.run sqrt kendalltau st "load" kw) = Some df /\
     success (snd (EDA.run sqrt kendalltau st "load" kw)) = true) /\
  (forall st kw,
     EDA.kw_data kw = None ->
     fst (EDA.run sqrt kendalltau st "load" kw) = None /\
     snd (EDA.run sqrt kendalltau st "load" kw) = Failure (Raised TypeError)) /\
  (forall st k df,
     Chart.kw_data k = Some df ->
     Chart.run plotly st "load" k = (Some df, (Success None, []))) /\
  (forall st k,
     Chart.kw_data k = None ->
     Chart.run plotly st "load" k = (None, (Failure (Raised TypeError), []))).
Proof.
  split; [|split; [|split; [|split; [|split]]]].
  - intros st action kw Hne. unfold EDA.run.
    destruct (assoc action _) as [res|] eqn:E; [|reflexivity].
    apply assoc_Some_In in E.
    pose proof (eda_actions_keep_state st kw) as H.
    rewrite List.Forall_forall in H. destruct (H _ E) as [H'|H']; [|exact H'].
    simpl in H'. congruence.
  - intros st action k Hne. unfold Chart.run.
    destruct (assoc action _) as [res|] eqn:E; [|reflexivity].
    apply assoc_Some_In in E.
    pose proof (chart_actions_keep_state st k) as H.
    rewrite List.Forall_forall in H. destruct (H _ E) as [H'|H']; [|exact H'].
    simpl in H'. congruence.
  - intros st kw df H. unfold EDA.run. simpl. unfold EDA.load_data. rewrite H.
    split; reflexivity.
  - intros st kw H. unfold EDA.run. simpl. unfold EDA.load_data. rewrite H.
    split; reflexivity.
  - intros st k df H. unfold Chart.run, Chart.actions. cbn [assoc].
    rewrite String.eqb_refl. unfold Chart.load_data. now rewrite H.
  - intros st k H. unfold Chart.run, Chart.actions. cbn [assoc].
    rewrite String.eqb_refl. unfold Chart.load_data. now rewrite H.
Qed.

End Actions.

Lemma only_load_replaces_the_dataset_witness :
  fst (EDA.run Qsqrt no_kendall (Some prices) "quality" eda_kwargs) = Some prices /\
  fst (Chart.run draw_anything (Some prices) "heatmap" chart_kwargs) = Some prices /\
  fst (EDA.run Qsqrt no_kendall (Some prices) "load" eda_kwargs) = None /\
  Chart.run draw_anything (Some prices) "load" chart_kwargs
  = (None, (Failure (Raised TypeError), [])) /\
  Chart.run draw_anything None "load"
    {| Chart.kw_data := Some one_row; Chart.kw_config := None; Chart.kw := ∅ |}
  = (Some one_row, (Success None, [])).
Proof.
  destruct (only_load_replaces_the_dataset Qsqrt no_kendall draw_anything)
    as (H1 & H2 & _ & H4 & H5 & H6).
  split; [apply H1; discriminate|].
  split; [apply H2; discriminate|].
  split; [apply (H4 (Some prices) eda_kwargs); reflexivity|].
  split; [apply H6; reflexivity | apply H5; reflexivity].
Defined.

(** * Rounding and percentages *)

Section Rounding.

Local Open Scope Q_scope.

Lemma scale_pos (ndigits : nat) : 0 < inject_Z (10 ^ Z.of_nat ndigits).
Proof.
  change 0 with (inject_Z 0). rewrite <- Zlt_Qlt.
  apply Z.pow_pos_nonneg; lia.
Qed.

(** Rounding never leaves an interval whose ends are multiples of the
    rounding step. *)
Lemma py_round_between (x : Q) (ndigits : nat) (a b : Z) :
  let scale := inject_Z (10 ^ Z.of_nat ndigits) in
  inject_Z a <= x * scale -> x * scale <= inject_Z b ->
  inject_Z a / scale <= py_round x ndigits <= inject_Z b / scale.
Proof.
  intros scale Ha Hb. unfold py_round. fold scale.
  pose proof (scale_pos ndigits) as Hs. fold scale in Hs.
  set (y := x * scale) in *.
  pose proof (Qfloor_le y) as Hfl. pose proof (Qlt_floor y) as Hfu.
  assert (Hfa : (a <= Qfloor y)%Z).
  { rewrite <- (Qfloor_Z a). now apply Qfloor_resp_le. }
  assert (Hfb : (Qfloor y <= b)%Z).
  { rewrite <- (Qfloor_Z b). now apply Qfloor_resp_le. }
  assert (Hup : 0 < y - inject_Z (Qfloor y) -> (Qfloor y + 1 <= b)%Z).
  { intros Hr. assert (Hlt : inject_Z (Qfloor y) < inject_Z b) by lra.
    rewrite <- Zlt_Qlt in Hlt. lia. }
  set (f := Qfloor y) in *.
  assert (Hmono : forall u v : Z, (u <= v)%Z -> inject_Z u / scale <= inject_Z v / scale).
  { intros u v Huv. apply Qmult_le_compat_r.
    - now rewrite <- Zle_Qle.
    - apply Qlt_le_weak, Qinv_lt_0_compat, Hs. }
  destruct (Qltb (y - inject_Z f) (1 # 2)) eqn:E1.
  - split; apply Hmono; lia.
  - apply Qltb_ge in E1.
    destruct (Qltb (1 # 2) (y - inject_Z f)) eqn:E2.
    + split; apply Hmono; [lia | apply Hup; lra].
    + destruct (Z.odd f); split; apply Hmono; try lia; apply Hup; lra.
Qed.

Variable sqrt : Q -> Q.

Lemma outlier_result_share column method (data outliers : list Q) lower upper r :
  (length outliers <= length data)%nat ->
  EDA.outlier_result column method data outliers lower upper = Success r ->
  (0 < length data)%nat /\
  EDA.outlier_count r = length outliers /\
  0 <= EDA.outlier_percentage r <= 100 /\
  (length outliers = 0%nat -> EDA.outlier_percentage r == 0).
Proof.
  intros Hle. unfold EDA.outlier_result.
  destruct data as [|x l] eqn:Ed; [discriminate|]. rewrite <- Ed in *.
  intros [= <-]. simpl EDA.outlier_count. simpl EDA.outlier_percentage.
  assert (Hn : (0 < length data)%nat) by (rewrite Ed; simpl; lia).
  split; [exact Hn|]. split; [reflexivity|].
  set (k := inject_Z (Z.of_nat (length outliers))).
  set (n := inject_Z (Z.of_nat (length data))).
  assert (Hk0 : 0 <= k).
  { unfold k. change 0 with (inject_Z 0). rewrite <- Zle_Qle. lia. }
  assert (Hkn : k <= n) by (unfold k, n; rewrite <- Zle_Qle; lia).
  assert (Hn0 : 0 < n).
  { unfold n. change 0 with (inject_Z 0). rewrite <- Zlt_Qlt. lia. }
  assert (Hq0 : 0 <= k / n) by (apply Qle_shift_div_l; lra).
  assert (Hq1 : k / n <= 1) by (apply Qle_shift_div_r; lra).
  split.
  - pose proof (py_round_between (k / n * 100) 2 0 10000) as H.
    cbv zeta in H. change (inject_Z (10 ^ Z.of_nat 2)) with 100 in H.
    change (inject_Z 0) with 0 in H. change (inject_Z 10000) with 10000 in H.
    destruct H as [H1 H2]; [nra | nra |].
    assert (E0 : 0 / 100 == 0) by reflexivity.
    assert (E1 : 10000 / 100 == 100) by reflexivity.
    rewrite E0 in H1. rewrite E1 in H2. split; assumption.
  - intros Hz. assert (Ek : k == 0) by (unfold k; now rewrite Hz).
    pose proof (py_round_between (k / n * 100) 2 0 0) as H.
    cbv zeta in H. change (inject_Z (10 ^ Z.of_nat 2)) with 100 in H.
    change (inject_Z 0) with 0 in H.
    assert (Eq : k / n == 0) by (rewrite Ek; field; lra).
    destruct H as [H1 H2]; [lra | lra |].
    assert (E0 : 0 / 100 == 0) by reflexivity. rewrite E0 in H1, H2. lra.
Qed.

Lemma filter_length_le {A} (f : A -> bool) (l : list A) :
  (length (List.filter f l) <= length l)%nat.
Proof.
  induction l as [|x l IH]; simpl; [lia|]. destruct (f x); simpl; lia.
Qed.

(** X7.  A successful [detect_outliers] concerns one numeric column
    with at least one value present; it counts no more outliers than
    values present; [outlier_percentage] lies between 0 and 100, and is
    0 when no outlier is counted. *)
Theorem outlier_share_is_a_percentage df column method r :
  EDA.detect_outliers sqrt (Some df) column method = Success r ->
  exists values,
    getitem df column = [NumCol values] /\
    (0 < length (dropna values))%nat /\
    (EDA.outlier_count r <= length (dropna values))%nat /\
    0 <= EDA.outlier_percentage r <= 100 /\
    (EDA.outlier_count r = 0%nat -> EDA.outlier_percentage r == 0).
Proof.
  intros H. apply detect_outliers_success in H.
  destruct H as [values [Hcol [_ [[_ H]|[_ H]]]]]; exists values;
    (split; [exact Hcol|]);
    unfold EDA.iqr_outliers, EDA.zscore_outliers in H;
    apply outlier_result_share in H; try apply filter_length_le;
    destruct H as (Hn & Hc & Hp & Hz); rewrite Hc;
    (split; [exact Hn|]); (split; [apply filter_length_le|]);
    (split; [exact Hp | exact Hz]).
Qed.

End Rounding.

Lemma outlier_share_is_a_percentage_witness :
  exists r,
    EDA.detect_outliers Qsqrt (Some prices) "price" "iqr" = Success r /\
    (EDA.outlier_count r <= 5)%nat /\
    (EDA.outlier_percentage r <= 100)%Q.
Proof.
  destruct (EDA.detect_outliers Qsqrt (Some prices) "price" "iqr") as [r|e] eqn:E;
    [|vm_compute in E; discriminate].
  exists r. split; [reflexivity|].
  destruct (outlier_share_is_a_percentage Qsqrt prices "price" "iqr" r E)
    as (values & Hcol & _ & Hc & [_ Hp] & _).
  injection Hcol as <-. split; [exact Hc | exact Hp].
Defined.

(** * Columns without spread *)

Section Constant.

Local Open Scope Q_scope.

Variable sqrt : Q -> Q.

Lemma filter_nothing {A} (f : A -> bool) (l : list A) :
  (forall x, In x l -> f x = false) -> List.filter f l = [].
Proof.
  induction l as [|x l IH]; intros H; simpl; [reflexivity|].
  rewrite (H x) by (now left). apply IH. intros y Hy. apply H. now right.
Qed.

Lemma constant_quantile (data : list Q) c p q :
  (forall x, In x data -> x == c) -> 0 <= p <= 1 ->
  quantile data p = Fin q -> q == c.
Proof.
  intros Hc Hp Hq.
  destruct (quantile_between_values data p q Hp Hq) as (a & b & Ha & Hb & Hab).
  pose proof (Hc a Ha). pose proof (Hc b Hb). lra.
Qed.

(** X8.  A column whose present values are all equal has no outliers
    by the IQR policy: both quartiles and both bounds are that value,
    and the count and the percentage are 0. *)
Theorem constant_column_has_no_outliers df column r :
  EDA.detect_outliers sqrt (Some df) column "iqr" = Success r ->
  forall values c,
    getitem df column = [NumCol values] ->
    (forall x, In x (dropna values) -> x == c) ->
    EDA.outlier_count r = 0%nat /\ EDA.outlier_percentage r == 0 /\
    exists lo hi,
      EDA.lower_bound r = Fin lo /\ EDA.upper_bound r = Fin hi /\
      lo == c /\ hi == c.
Proof.
  intros H values c Hcol Hc.
  apply detect_outliers_success in H.
  destruct H as [values' [Hcol' [Hne [[_ H]|[Hm _]]]]]; [|discriminate].
  rewrite Hcol in Hcol'; injection Hcol' as <-.
  destruct (iqr_outliers_bounds _ _ _ H)
    as (q1 & q3 & lo & hi & E1 & E3 & Hlo & Hhi & Elo & Ehi).
  assert (Hq1 : q1 == c) by (apply (constant_quantile _ c (1 # 4) _ Hc); [lra | exact E1]).
  assert (Hq3 : q3 == c) by (apply (constant_quantile _ c (3 # 4) _ Hc); [lra | exact E3]).
  assert (Hcount : EDA.outlier_count r = 0%nat).
  { pose proof H as H'.
    unfold EDA.iqr_outliers in H'. apply outlier_result_fields in H'.
    destruct H' as (Hn & Hl & Hu). rewrite Hn.
    rewrite <- Hl, <- Hu, Hlo, Hhi.
    rewrite filter_nothing; [reflexivity|].
    intros x Hx. pose proof (Hc x Hx). unfold fgt, flt.
    apply orb_false_iff. split; apply Qltb_ge; lra. }
  split; [exact Hcount|]. split.
  - unfold EDA.iqr_outliers in H.
    apply outlier_result_share in H; [|apply filter_length_le].
    destruct H as (_ & Hc' & _ & Hz). apply Hz. rewrite <- Hc'. exact Hcount.
  - exists lo, hi. split; [exact Hlo|]. split; [exact Hhi|]. split; lra.
Qed.

End Constant.

Lemma constant_column_has_no_outliers_witness :
  exists r,
    EDA.detect_outliers Qsqrt (Some flat) "level" "iqr" = Success r /\
    EDA.outlier_count r = 0%nat.
Proof.
  destruct (EDA.detect_outliers Qsqrt (Some flat) "level" "iqr") as [r|e] eqn:E;
    [|vm_compute in E; discriminate].
  exists r. split; [reflexivity|].
  apply (constant_column_has_no_outliers Qsqrt flat "level" r E
           [Some 2%Q; Some 2%Q; None; Some 2%Q] 2%Q); [reflexivity|].
  intros x Hx. simpl in Hx. destruct Hx as [<-|[<-|[<-|[]]]]; reflexivity.
Defined.

(** * The loaded documents, in their order *)

Section Stored.

Import Documents.

Lemma store_assoc_same name text (d : documents) :
  assoc name (store name text d) = Some text.
Proof.
  induction d as [|[k v] d IH]; simpl.
  - now rewrite String.eqb_refl.
  - destruct (String.eqb k name) eqn:E; simpl; rewrite E; [reflexivity | exact IH].
Qed.

Lemma store_assoc_other name text (d : documents) k :
  k <> name -> assoc k (store name text d) = assoc k d.
Proof.
  intros Hne. induction d as [|[k' v] d IH]; simpl.
  - destruct (String.eqb_spec name k); [congruence | reflexivity].
  - destruct (String.eqb_spec k' name) as [->|Hk]; simpl.
    + destruct (String.eqb_spec name k); [congruence | reflexivity].
    + destruct (String.eqb k' k); [reflexivity | exact IH].
Qed.

Lemma assoc_None_names {A} k (d : list (string * A)) :
  assoc k d = None <-> ~ In k (map fst d).
Proof.
  induction d as [|[k' v] d IH]; simpl; [tauto|].
  destruct (String.eqb_spec k' k) as [->|Hk].
  - split; [discriminate | intros H; exfalso; apply H; now left].
  - rewrite IH. split; [intros H [?|?]; tauto | tauto].
Qed.

Lemma store_names name text (d : documents) :
  map fst (store name text d)
  = match assoc name d with
    | Some _ => map fst d
    | None => map fst d ++ [name]
    end.
Proof.
  induction d as [|[k v] d IH]; simpl; [reflexivity|].
  destruct (String.eqb k name) eqn:E; simpl; [reflexivity|].
  rewrite IH. now destruct (assoc name d).
Qed.

Lemma store_NoDup name text (d : documents) :
  List.NoDup (map fst d) -> List.NoDup (map fst (store name text d)).
Proof.
  intros H. rewrite store_names. destruct (assoc name d) eqn:E; [exact H|].
  apply assoc_None_names in E.
  apply List.NoDup_app; [exact H | repeat constructor; simpl; tauto |].
  intros x Hx [<-|[]]. tauto.
Qed.

Lemma store_length name text (d : documents) :
  length (store name text d)
  = match assoc name d with Some _ => length d | None => S (length d) end.
Proof.
  rewrite <- (length_map fst (store name text d)), store_names.
  destruct (assoc name d); rewrite ?length_app, length_map; simpl; lia.
Qed.

Lemma view_lookup (d : documents) k : view d !! k = assoc k d.
Proof.
  unfold view. induction d as [|[k' v] d IH]; simpl; [apply lookup_empty|].
  destruct (String.eqb_spec k' k) as [->|Hk].
  - apply lookup_insert_eq.
  - rewrite lookup_insert_ne by exact Hk. exact IH.
Qed.

Lemma view_store name text (d : documents) :
  view (store name text d) = <[name := text]> (view d).
Proof.
  apply map_eq. intros k. rewrite view_lookup.
  destruct (decide (k = name)) as [->|Hk].
  - now rewrite store_assoc_same, lookup_insert_eq.
  - rewrite store_assoc_other, lookup_insert_ne, view_lookup by congruence.
    reflexivity.
Qed.

End Stored.

Section Loading.

Import Documents.

Variable path_exists : string -> bool.
Variable read_pages : string -> exn + list string.

Local Abbreviation load_pdf := (Documents.load_pdf path_exists read_pages).
Local Abbreviation load_multiple_pdfs :=
  (Documents.load_multiple_pdfs path_exists read_pages).
Local Abbreviation batch_step := (Documents.batch_step path_exists read_pages).
Local Abbreviation run := (Documents.run path_exists read_pages).

Lemma load_pdf_cases d file_path :
  (exists e, load_pdf d file_path = (d, Failure e)) \/
  (exists text,
     load_pdf d file_path
     = (store (PDF.basename file_path) text d,
        Success {| PDF.pr_filename := PDF.basename file_path;
                   PDF.pr_page_count :=
                     match read_pages file_path with
                     | inr pages => length pages
                     | inl _ => 0
                     end;
                   PDF.pr_character_count := String.length text;
                   PDF.pr_content := text |})).
Proof.
  unfold Documents.load_pdf.
  destruct (negb (path_exists file_path)); [left; eauto|].
  destruct (read_pages file_path) as [e|pages]; [left; eauto|].
  right. eauto.
Qed.

(** The ordered store and the map of [PDF.load_pdf] hold the same
    documents, and the two give the same report. *)
Lemma load_pdf_view d file_path :
  view (fst (load_pdf d file_path))
  = fst (PDF.load_pdf path_exists read_pages (view d) file_path) /\
  snd (load_pdf d file_path)
  = snd (PDF.load_pdf path_exists read_pages (view d) file_path).
Proof.
  unfold Documents.load_pdf, PDF.load_pdf.
  destruct (negb (path_exists file_path)); [split; reflexivity|].
  destruct (read_pages file_path) as [e|pages]; [split; reflexivity|].
  simpl. split; [apply view_store | reflexivity].
Qed.

(** X9.  A failed [load_pdf] leaves the documents as they were.  A
    successful one stores the text under the base name of the path:
    [get_document_content] of that name then returns the content and the
    character count just reported, every other name reads as before, a
    name already loaded keeps its place in the listing, a new one is
    listed last, and no name is listed twice. *)
Theorem loaded_pdf_can_be_read_back d file_path :
  let d' := fst (load_pdf d file_path) in
  match snd (load_pdf d file_path) with
  | Failure _ => d' = d
  | Success r =>
      PDF.pr_filename r = PDF.basename file_path /\
      get_document_content d' (PDF.pr_filename r)
      = Success {| c_filename := PDF.pr_filename r;
                   c_content := PDF.pr_content r;
                   c_character_count := PDF.pr_character_count r |} /\
      (forall other, other <> PDF.pr_filename r ->
         get_document_content d' other = get_document_content d other) /\
      (In (PDF.pr_filename r) (map fst d) -> map fst d' = map fst d) /\
      (~ In (PDF.pr_filename r) (map fst d) ->
       map fst d' = map fst d ++ [PDF.pr_filename r]) /\
      (List.NoDup (map fst d) -> List.NoDup (map fst d'))
  end.
Proof.
  destruct (load_pdf_cases d file_path) as [[e ->]|[text ->]]; simpl; [reflexivity|].
  split; [reflexivity|]. unfold get_document_content.
  split; [now rewrite store_assoc_same|].
  split; [intros other Hne; now rewrite store_assoc_other|].
  rewrite store_names.
  split; [|split].
  - intros Hin. destruct (assoc _ d) eqn:E; [reflexivity|].
    apply assoc_None_names in E. tauto.
  - intros Hin. apply assoc_None_names in Hin. now rewrite Hin.
  - intros Hnd. rewrite <- (store_names _ text). now apply store_NoDup.
Qed.

(** The loop of [load_multiple_pdfs], step by step. *)
Lemma batch_loop paths : forall b,
  let b' := foldl batch_step b paths in
  exists added new,
    map fst (docs b') = map fst (docs b) ++ added /\
    results b' = results b ++ new /\
    map PDF.fr_file new = paths /\
    successful b' = successful b + length (List.filter PDF.fr_success new) /\
    length added <= length (List.filter PDF.fr_success new) /\
    (forall r, In r new -> PDF.fr_success r = true ->
       In (PDF.basename (PDF.fr_file r)) (map fst (docs b'))) /\
    (List.filter PDF.fr_success new = [] -> docs b' = docs b).
Proof.
  induction paths as [|p paths IH]; intros b; simpl.
  - exists [], []. rewrite !app_nil_r. simpl. repeat split; try lia; tauto.
  - destruct (IH (batch_step b p)) as (added & new & Hn & Hr & Hf & Hs & Hl & Hin & Hz).
    set (b1 := batch_step b p) in *.
    set (b' := foldl batch_step b1 paths) in *.
    assert (Hstep :
      exists first,
        map fst (docs b1) = map fst (docs b) ++ first /\
        length first <= (if success (snd (load_pdf (docs b) p)) then 1 else 0) /\
        (success (snd (load_pdf (docs b) p)) = true ->
           In (PDF.basename p) (map fst (docs b1))) /\
        (success (snd (load_pdf (docs b) p)) = false -> docs b1 = docs b)).
    { unfold b1, Documents.batch_step. simpl docs.
      destruct (load_pdf_cases (docs b) p) as [[e ->]|[text ->]]; simpl.
      - exists []. rewrite app_nil_r. repeat split; auto; discriminate.
      - rewrite store_names. destruct (assoc _ (docs b)) eqn:E.
        + exists []. rewrite app_nil_r. repeat split; simpl; try lia; try discriminate.
          intros _. destruct (assoc_None_names (PDF.basename p) (docs b)) as [_ H].
          destruct (in_dec String.string_dec (PDF.basename p) (map fst (docs b)))
            as [Hi|Hi]; [exact Hi|]. rewrite (H Hi) in E. discriminate.
        + exists [PDF.basename p]. repeat split; simpl; try lia; try discriminate.
          intros _. apply in_or_app. right. now left. }
    destruct Hstep as (first & Hn1 & Hl1 & Hin1 & Hz1).
    exists (first ++ added),
           ({| PDF.fr_file := p;
               PDF.fr_success := success (snd (load_pdf (docs b) p)) |} :: new).
    assert (Hres : results b1
                   = results b ++ [ {| PDF.fr_file := p;
                                       PDF.fr_success :=
                                         success (snd (load_pdf (docs b) p)) |} ])
      by reflexivity.
    assert (Hsucc : successful b1
                    = successful b
                      + (if success (snd (load_pdf (docs b) p)) then 1 else 0)).
    { unfold b1, Documents.batch_step. simpl successful.
      destruct (success _); lia. }
    split; [rewrite Hn, Hn1; now rewrite <- app_assoc|].
    split; [rewrite Hr, Hres; now rewrite <- app_assoc|].
    split; [simpl; now rewrite Hf|].
    simpl List.filter. simpl PDF.fr_success.
    destruct (success (snd (load_pdf (docs b) p))) eqn:Eok.
    + split; [rewrite Hs, Hsucc; simpl; lia|].
      split; [rewrite length_app; simpl; lia|].
      split; [|discriminate].
      intros r [<-|Hr'] Hok; [|now apply Hin].
      simpl. rewrite Hn. apply in_or_app. left. now apply Hin1.
    + split; [rewrite Hs, Hsucc; lia|].
      split; [rewrite length_app; lia|].
      split.
      * intros r [<-|Hr'] Hok; [discriminate | now apply Hin].
      * intros Hnil. rewrite (Hz Hnil). now apply Hz1.
Qed.

(** X10.  [load_multiple_pdfs] records one result per path, in order.
    The names listed before stay listed, in their places, followed by at
    most as many new names as files were loaded.  After the batch, the
    base name of every file reported as loaded can be read back.  When
    no file loads the documents are unchanged. *)
Theorem batch_load_keeps_and_adds_documents d file_paths :
  let d' := fst (load_multiple_pdfs d file_paths) in
  let report := snd (load_multiple_pdfs d file_paths) in
  map PDF.fr_file (PDF.b_results report) = file_paths /\
  (exists added,
     map fst d' = map fst d ++ added /\
     length added <= PDF.b_successful report) /\
  (forall r, In r (PDF.b_results report) -> PDF.fr_success r = true ->
     exists text,
       get_document_content d' (PDF.basename (PDF.fr_file r))
       = Success {| c_filename := PDF.basename (PDF.fr_file r);
                    c_content := text;
                    c_character_count := String.length text |}) /\
  (PDF.b_successful report = 0 -> d' = d).
Proof.
  unfold Documents.load_multiple_pdfs. cbv zeta. simpl fst. simpl snd.
  simpl PDF.b_results. simpl PDF.b_successful.
  destruct (batch_loop file_paths
              {| docs := d; results := []; successful := 0; failed := 0 |})
    as (added & new & Hn & Hr & Hf & Hs & Hl & Hin & Hz).
  simpl in Hn, Hr, Hs, Hz. rewrite Hr, Hs.
  split; [exact Hf|]. split; [exists added; split; [exact Hn | lia]|].
  split.
  - intros r Hr' Hok. specialize (Hin r Hr' Hok).
    unfold get_document_content.
    destruct (assoc _ _) as [text|] eqn:E; [now exists text|].
    apply assoc_None_names in E. tauto.
  - intros H0. apply Hz. apply length_zero_iff_nil. lia.
Qed.

End Loading.

Section Combining.

Import Documents.

Variable path_exists : string -> bool.
Variable read_pages : string -> exn + list string.

Lemma existsb_eqb_In k (l : list string) :
  existsb (String.eqb k) l = true <-> In k l.
Proof.
  rewrite existsb_exists. split.
  - intros [x [Hx E]]. apply String.eqb_eq in E. now subst.
  - intros H. exists k. split; [exact H | apply String.eqb_refl].
Qed.

Lemma filter_names_sublist (f : string -> bool) (d : documents) :
  map fst (List.filter (fun p => f (fst p)) d) `sublist_of` map fst d.
Proof.
  induction d as [|[k v] d IH]; simpl; [constructor|].
  destruct (f k); simpl; [now constructor | now apply sublist_cons].
Qed.

Lemma filter_names_In (f : string -> bool) (d : documents) k :
  In k (map fst (List.filter (fun p => f (fst p)) d))
  <-> In k (map fst d) /\ f k = true.
Proof.
  rewrite !in_map_iff. split.
  - intros [p [<- Hp]]. apply filter_In in Hp. destruct Hp as [Hp Hf].
    split; [exists p; auto | exact Hf].
  - intros [[p [<- Hp]] Hf]. exists p. split; [reflexivity|].
    apply filter_In. auto.
Qed.

(** X11.  [get_combined_context] with a non-empty list of names
    combines exactly the loaded documents that are named, in the order
    in which they were loaded, whatever the order or repetitions of the
    list; its character count is the length of the combined text.  It
    fails exactly when none of the names is loaded.  An empty list is
    treated as no list: all documents are combined. *)
Theorem combined_context_selects_in_load_order d filenames :
  filenames <> [] ->
  match get_combined_context d (VList filenames) with
  | Success r =>
      x_documents_included r <> [] /\
      x_documents_included r `sublist_of` map fst d /\
      (forall k, In k (x_documents_included r)
                 <-> In k (map fst d) /\ In k filenames) /\
      x_character_count r = String.length (x_content r)
  | Failure e =>
      e = Msg "No documents available to combine" /\
      (forall k, In k filenames -> success (get_document_content d k) = false)
  end /\
  get_combined_context d (VList []) = get_combined_context d VNone /\
  (d <> [] ->
   exists r, get_combined_context d VNone = Success r /\
             x_documents_included r = map fst d).
Proof.
  intros Hne. split; [|split].
  - unfold get_combined_context, docs_to_combine.
    destruct filenames as [|f fs]; [congruence|]. cbn [truthy].
    set (names := f :: fs) in *. cbv iota.
    pose proof (filter_names_sublist (fun k => existsb (String.eqb k) names) d) as Hsub.
    pose proof (filter_names_In (fun k => existsb (String.eqb k) names) d) as Hin.
    destruct (List.filter _ d) as [|p chosen] eqn:E.
    + split; [reflexivity|]. intros k Hk. unfold get_document_content.
      destruct (assoc k d) eqn:Ea; [|reflexivity]. exfalso.
      assert (Hkd : In k (map fst d)).
      { destruct (in_dec String.string_dec k (map fst d)) as [Hi|Hi]; [exact Hi|].
        apply assoc_None_names in Hi. congruence. }
      apply (proj2 (Hin k)). split; [exact Hkd | now apply existsb_eqb_In].
    + cbn [x_documents_included x_content x_character_count].
      split; [discriminate|]. split; [exact Hsub|]. split; [|reflexivity].
      intros k. rewrite Hin, existsb_eqb_In. reflexivity.
  - reflexivity.
  - intros Hd. unfold get_combined_context, docs_to_combine. cbn [truthy].
    destruct d as [|p d']; [congruence|]. eexists. split; reflexivity.
Qed.

(** X12.  Through [run] of the PDF tool, only [load],
    [load_multiple] and [clear] can change the documents.  An action
    outside the table is refused with an error naming it.  After
    [clear] the listing is empty, and [get_content] and [get_context]
    fail whatever their arguments. *)
Theorem pdf_run_changes_documents_only_by_loading_or_clearing d action k :
  (action <> "load" -> action <> "load_multiple" -> action <> "clear" ->
   fst (run path_exists read_pages d action k) = d) /\
  (~ In action ["load"; "load_multiple"; "list"; "get_content"; "get_context"; "clear"] ->
   snd (run path_exists read_pages d action k)
   = Refused (Msg ("Unknown action: " +:+ action))) /\
  (let cleared := fst (run path_exists read_pages d "clear" k) in
   snd (run path_exists read_pages cleared "list" k)
   = Listed (Success {| l_documents := []; l_count := 0 |}) /\
   forall k',
     succeeded (snd (run path_exists read_pages cleared "get_content" k')) = false /\
     succeeded (snd (run path_exists read_pages cleared "get_context" k')) = false).
Proof.
  split; [|split].
  - intros H1 H2 H3. unfold run, actions. cbn [assoc].
    repeat match goal with
           | |- context [String.eqb ?a action] =>
               destruct (String.eqb_spec a action); [subst; try congruence; reflexivity|]
           end.
    reflexivity.
  - intros Hn. unfold run, actions. cbn [assoc].
    repeat match goal with
           | |- context [String.eqb ?a action] =>
               destruct (String.eqb_spec a action);
               [subst; exfalso; apply Hn; simpl; tauto|]
           end.
    reflexivity.
  - simpl. split; [reflexivity|]. intros k'. split; [reflexivity|].
    unfold run. simpl. unfold get_combined_context, docs_to_combine.
    destruct (truthy (kw_filenames k')); [|reflexivity].
    destruct (kw_filenames k'); reflexivity.
Qed.

End Combining.

Lemma loaded_pdf_can_be_read_back_witness :
  exists r,
    snd (Documents.load_pdf on_disk three_pages shelf "in/c.pdf") = Success r /\
    PDF.pr_filename r = "c.pdf" /\
    map fst (fst (Documents.load_pdf on_disk three_pages shelf "in/c.pdf"))
    = ["a.pdf"; "b.pdf"; "c.pdf"] /\
    fst (Documents.load_pdf on_disk three_pages shelf "torn.pdf") = shelf.
Proof.
  pose proof (loaded_pdf_can_be_read_back on_disk three_pages shelf "in/c.pdf") as H.
  pose proof (loaded_pdf_can_be_read_back on_disk three_pages shelf "torn.pdf") as H'.
  cbv zeta in H, H'.
  destruct (snd (Documents.load_pdf on_disk three_pages shelf "in/c.pdf"))
    as [r|e] eqn:E; [|vm_compute in E; discriminate].
  exists r. split; [reflexivity|].
  destruct H as (Hn & _ & _ & _ & Hnew & _).
  assert (Hname : PDF.pr_filename r = "c.pdf") by (rewrite Hn; reflexivity).
  split; [exact Hname|]. split.
  - rewrite Hnew, Hname; [reflexivity|]. rewrite Hname. simpl.
    intros [?|[?|[]]]; discriminate.
  - destruct (snd (Documents.load_pdf on_disk three_pages shelf "torn.pdf"))
      as [r'|e'] eqn:E'; [vm_compute in E'; discriminate | exact H'].
Defined.

Lemma batch_load_keeps_and_adds_documents_witness :
  let report :=
    snd (Documents.load_multiple_pdfs on_disk three_pages shelf
           ["x/a.pdf"; "y/a.pdf"; "missing.pdf"]) in
  PDF.b_successful report = 2 /\
  success
    (Documents.get_document_content
       (fst (Documents.load_multiple_pdfs on_disk three_pages shelf
               ["x/a.pdf"; "y/a.pdf"; "missing.pdf"])) "a.pdf") = true /\
  fst (Documents.load_multiple_pdfs on_disk three_pages shelf ["missing.pdf"]) = shelf.
Proof.
  intros report.
  destruct (batch_load_keeps_and_adds_documents on_disk three_pages shelf
              ["x/a.pdf"; "y/a.pdf"; "missing.pdf"]) as (_ & _ & Hback & _).
  destruct (batch_load_keeps_and_adds_documents on_disk three_pages shelf
              ["missing.pdf"]) as (_ & _ & _ & Hnone).
  split; [reflexivity|]. split.
  - destruct (Hback {| PDF.fr_file := "x/a.pdf"; PDF.fr_success := true |})
      as [text Ht]; [left; reflexivity | reflexivity |].
    simpl PDF.fr_file in Ht. change (PDF.basename "x/a.pdf") with "a.pdf" in Ht.
    now rewrite Ht.
  - apply Hnone. reflexivity.
Defined.

Lemma combined_context_selects_in_load_order_witness :
  exists r,
    Documents.get_combined_context shelf (VList ["b.pdf"; "z.pdf"; "b.pdf"])
    = Success r /\
    (forall k, In k (Documents.x_documents_included r) -> In k ["a.pdf"; "b.pdf"]).
Proof.
  pose proof (combined_context_selects_in_load_order shelf
                ["b.pdf"; "z.pdf"; "b.pdf"]) as H.
  destruct (Documents.get_combined_context shelf (VList ["b.pdf"; "z.pdf"; "b.pdf"]))
    as [r|e] eqn:E; [|vm_compute in E; discriminate].
  exists r. split; [reflexivity|].
  destruct H as [(_ & _ & Hin & _) _]; [discriminate|].
  intros k Hk. apply Hin in Hk. exact (proj1 Hk).
Defined.

Lemma pdf_run_changes_documents_witness :
  fst (Documents.run on_disk three_pages shelf "get_context" pdf_kwargs) = shelf /\
  snd (Documents.run on_disk three_pages shelf "erase" pdf_kwargs)
  = Documents.Refused (Msg "Unknown action: erase").
Proof.
  destruct (pdf_run_changes_documents_only_by_loading_or_clearing
              on_disk three_pages shelf "get_context" pdf_kwargs) as (H1 & _ & _).
  destruct (pdf_run_changes_documents_only_by_loading_or_clearing
              on_disk three_pages shelf "erase" pdf_kwargs) as (_ & H2 & _).
  split; [apply H1; discriminate|].
  apply H2. simpl. intros [?|[?|[?|[?|[?|[?|[]]]]]]]; discriminate.
Defined.

(** * Queries through the connectors *)

Section Querying.

Import Queries.

Variable connection : Type.
Variable driver_available : bool.
Variable driver_connect : list (string * pyval) -> exn + connection.
Variable driver_query : connection -> string -> exn + DataFrame.
Variable driver_close : connection -> option exn.

Local Abbreviation tool := (Connectors.tool connection).
Local Abbreviation conn := (Connectors.conn connection).
Local Abbreviation config := (Connectors.config connection).
Local Abbreviation connect :=
  (Queries.connect connection driver_available driver_connect).
Local Abbreviation disconnect := (Queries.disconnect connection driver_close).
Local Abbreviation fetch := (Queries.fetch connection driver_query).
Local Abbreviation execute_query :=
  (Queries.execute_query connection driver_available driver_connect driver_query).
Local Abbreviation get_tables :=
  (Queries.get_tables connection driver_available driver_connect driver_query).
Local Abbreviation get_table_schema :=
  (Queries.get_table_schema connection driver_available driver_connect driver_query).
Local Abbreviation preview_table :=
  (Queries.preview_table connection driver_available driver_connect driver_query).
Local Abbreviation run :=
  (Queries.run connection driver_available driver_connect driver_query driver_close).

Lemma connect_with_cases required error_text names (t : tool) cfg :
  let r := Connectors.connect_with connection driver_available driver_connect
             required error_text names t cfg in
  (exists e, fst r = (t, Failure e) /\ (length (snd r) <= 1)%nat) \/
  (exists c args,
     r = ({| Connectors.conn := Some c; Connectors.config := config t |},
          Success tt, [args]) /\
     driver_connect args = inr c).
Proof.
  unfold Connectors.connect_with.
  destruct (negb driver_available); [left; eexists; split; [reflexivity | simpl; lia]|].
  destruct (_ || _); [left; eexists; split; [reflexivity | simpl; lia]|].
  destruct (Connectors.keyword_args _ _) as [args|];
    [|left; eexists; split; [reflexivity | simpl; lia]].
  destruct (driver_connect args) as [e|c] eqn:E.
  - left; eexists; split; [reflexivity | simpl; lia].
  - right. exists c, args. split; [reflexivity | exact E].
Qed.

Lemma connect_cases k (t : tool) cfg :
  (exists e, fst (connect k t cfg) = (t, Failure e) /\
             (length (snd (connect k t cfg)) <= 1)%nat /\
             forall q, ~ In (Queried q) (snd (connect k t cfg))) \/
  (exists c args,
     connect k t cfg
     = ({| Connectors.conn := Some c; Connectors.config := config t |},
        Success tt, [Connected args]) /\
     driver_connect args = inr c).
Proof.
  unfold Queries.connect, Connectors.snowflake_connect, Connectors.sqlserver_connect.
  destruct k;
    match goal with
    | |- context [Connectors.connect_with _ _ _ ?r ?e ?n t cfg] =>
        destruct (connect_with_cases r e n t cfg) as [[err [H1 H2]]|[c [args [H1 H2]]]]
    end; cbv zeta in *.
  all: try (right; exists c, args; rewrite H1; split; [reflexivity | exact H2]).
  all: left; exists err; cbn [fst snd]; rewrite H1; cbn [fst snd];
    (split; [reflexivity|]); rewrite length_map; (split; [exact H2|]);
    intros q Hq; apply in_map_iff in Hq; destruct Hq as [? [? _]]; discriminate.
Qed.

Lemma fetch_cases (t : tool) query log c :
  conn t = Some c ->
  exists r,
    fetch t query log = (t, r, log ++ [Queried query]) /\
    match r with
    | Success rep =>
        driver_query c query = inr (q_data rep) /\
        q_row_count rep = df_len (q_data rep) /\
        q_columns rep = column_names (q_data rep)
    | Failure e => exists x, driver_query c query = inl x /\ e = Raised x
    end.
Proof.
  intros Hc. unfold Queries.fetch. rewrite Hc.
  destruct (driver_query c query) as [x|df] eqn:E; eexists; (split; [reflexivity|]).
  - now exists x.
  - simpl. auto.
Qed.

(** What one call of [execute_query] does, by the state of the
    connection it finds. *)
Lemma execute_query_cases k (t : tool) query :
  (exists c r,
     conn t = Some c /\
     execute_query k t query = (t, r, [Queried query]) /\
     match r with
     | Success rep =>
         driver_query c query = inr (q_data rep) /\
         q_row_count rep = df_len (q_data rep) /\
         q_columns rep = column_names (q_data rep)
     | Failure e => exists x, driver_query c query = inl x /\ e = Raised x
     end) \/
  (exists e,
     conn t = None /\
     fst (connect k t None) = (t, Failure e) /\
     execute_query k t query = (t, Failure e, snd (connect k t None)) /\
     (length (snd (connect k t None)) <= 1)%nat /\
     forall q, ~ In (Queried q) (snd (connect k t None))) \/
  (exists c args r,
     conn t = None /\
     connect k t None
     = ({| Connectors.conn := Some c; Connectors.config := config t |},
        Success tt, [Connected args]) /\
     driver_connect args = inr c /\
     execute_query k t query
     = ({| Connectors.conn := Some c; Connectors.config := config t |},
        r, [Connected args; Queried query]) /\
     match r with
     | Success rep =>
         driver_query c query = inr (q_data rep) /\
         q_row_count rep = df_len (q_data rep) /\
         q_columns rep = column_names (q_data rep)
     | Failure e => exists x, driver_query c query = inl x /\ e = Raised x
     end).
Proof.
  unfold Queries.execute_query.
  destruct (conn t) as [c|] eqn:Hc.
  - left. destruct (fetch_cases t query [] c Hc) as [r [Hf Hr]].
    exists c, r. split; [reflexivity|]. split; [exact Hf | exact Hr].
  - right. cbv zeta.
    destruct (connect_cases k t None) as [[e (H1 & H2 & H3)]|[c [args [H1 H2]]]].
    + left. exists e. split; [reflexivity|]. split; [exact H1|].
      split; [|split; [exact H2 | exact H3]].
      destruct (connect k t None) as [[t1 r1] l1]. simpl in *.
      injection H1 as -> ->. reflexivity.
    + right. rewrite H1. cbn [fst snd].
      destruct (fetch_cases {| Connectors.conn := Some c;
                               Connectors.config := config t |}
                  query [Connected args] c eq_refl) as [r [Hf Hr]].
      exists c, args, r. split; [reflexivity|]. split; [reflexivity|].
      split; [exact H2|]. split; [exact Hf | exact Hr].
Qed.

(** X13.  [execute_query] keeps the stored configuration.  It connects
    only when no connection is open, as [connect] without arguments
    does, and sends the query at most once, after which a connection is
    open, also when the query fails.  When connecting fails, the failure
    of [connect] is returned, the connector is unchanged and no query is
    sent.  On success the query was sent, [row_count] is the length of
    the frame and [columns] its labels. *)
Theorem query_connects_on_demand k (t : tool) query :
  let t' := fst (fst (execute_query k t query)) in
  let r := snd (fst (execute_query k t query)) in
  let log := snd (execute_query k t query) in
  config t' = config t /\
  (exists connects queries,
     log = connects ++ map Queried queries /\
     (queries = [] \/ queries = [query]) /\
     (conn t <> None -> connects = []) /\
     (conn t = None -> connects = snd (connect k t None)) /\
     (queries = [query] -> conn t' <> None)) /\
  (conn t = None ->
   forall e, snd (fst (connect k t None)) = Failure e ->
     t' = t /\ r = Failure e /\ forall q, ~ In (Queried q) log) /\
  (forall rep, r = Success rep ->
     In (Queried query) log /\
     q_row_count rep = df_len (q_data rep) /\
     q_columns rep = column_names (q_data rep) /\
     exists c, conn t' = Some c /\ driver_query c query = inr (q_data rep)).
Proof.
  cbv zeta.
  destruct (execute_query_cases k t query)
    as [(c & r & Hc & -> & Hr)|[(e & Hc & H1 & -> & H2 & H3)|
                                 (c & args & r & Hc & H1 & H2 & -> & Hr)]];
    cbn [fst snd Connectors.config Connectors.conn].
  - split; [reflexivity|]. split; [|split].
    + exists [], [query]. split; [reflexivity|]. split; [now right|].
      split; [reflexivity|]. split; [congruence|]. intros _. congruence.
    + congruence.
    + intros rep ->. destruct Hr as (Hq & Hn & Hcols).
      split; [now left|]. split; [exact Hn|]. split; [exact Hcols|].
      exists c. auto.
  - split; [reflexivity|]. split; [|split].
    + exists (snd (connect k t None)), []. rewrite app_nil_r.
      split; [reflexivity|]. split; [now left|]. split; [congruence|].
      split; [reflexivity | discriminate].
    + intros _ e' He'. rewrite H1 in He'. simpl in He'. injection He' as ->.
      split; [reflexivity|]. split; [reflexivity | exact H3].
    + discriminate.
  - split; [reflexivity|]. split; [|split].
    + exists [Connected args], [query]. split; [reflexivity|]. split; [now right|].
      split; [congruence|]. split; [now rewrite H1 | discriminate].
    + intros _ e He. rewrite H1 in He. discriminate.
    + intros rep ->. destruct Hr as (Hq & Hn & Hcols).
      split; [right; now left|]. split; [exact Hn|]. split; [exact Hcols|].
      exists c. auto.
Qed.

(** X14.  [disconnect] keeps the stored configuration.  Without an
    open connection it succeeds without calling the driver; otherwise it
    closes the connection once.  When closing raises, the failure leaves
    the connection in place.  After a success no connection is held,
    disconnecting again succeeds without a driver call, and the next
    query starts by connecting anew. *)
Theorem disconnect_closes_an_open_connection (t : tool) :
  let t' := fst (fst (disconnect t)) in
  let r := snd (fst (disconnect t)) in
  let log := snd (disconnect t) in
  config t' = config t /\
  (conn t = None -> t' = t /\ r = Success tt /\ log = []) /\
  (conn t <> None -> log = [Closed]) /\
  (success r = false -> t' = t /\ conn t <> None) /\
  (success r = true ->
   conn t' = None /\
   disconnect t' = (t', Success tt, []) /\
   forall k query,
     exists rest,
       snd (execute_query k t' query) = snd (connect k t' None) ++ rest).
Proof.
  cbv zeta.
  assert (Hquery : forall t0 : tool, conn t0 = None -> forall k query,
            exists rest,
              snd (execute_query k t0 query) = snd (connect k t0 None) ++ rest).
  { intros t0 H0 k query.
    destruct (execute_query_cases k t0 query)
      as [(c' & r & Hc' & _)|[(e & _ & _ & -> & _)|
                               (c' & args & r & _ & -> & _ & -> & _)]].
    - congruence.
    - exists []. now rewrite app_nil_r.
    - exists [Queried query]. reflexivity. }
  destruct (conn t) as [c|] eqn:Hc.
  - destruct (driver_close c) as [e|] eqn:He.
    + assert (Hd : disconnect t = (t, Failure (Raised e), [Closed]))
        by (unfold Queries.disconnect; now rewrite Hc, He).
      rewrite Hd. cbn [fst snd success].
      split; [reflexivity|]. split; [discriminate|]. split; [reflexivity|].
      split; [intros _; split; [reflexivity | congruence] | discriminate].
    + assert (Hd : disconnect t
                   = ({| Connectors.conn := None; Connectors.config := config t |},
                      Success tt, [Closed]))
        by (unfold Queries.disconnect; now rewrite Hc, He).
      rewrite Hd. cbn [fst snd success].
      split; [reflexivity|]. split; [discriminate|]. split; [reflexivity|].
      split; [discriminate|]. intros _. split; [reflexivity|].
      split; [reflexivity|]. now apply Hquery.
  - assert (Hd : disconnect t = (t, Success tt, []))
      by (unfold Queries.disconnect; now rewrite Hc).
    rewrite Hd. cbn [fst snd success]. split; [reflexivity|].
    split; [intros _; repeat split; reflexivity|]. split; [congruence|].
    split; [discriminate|]. intros _. split; [exact Hc|].
    split; [exact Hd|]. now apply Hquery.
Qed.

(** [tables], [schema] and [preview] are queries. *)
Lemma reads_are_queries k (t : tool) action a :
  In action ["query"; "tables"; "schema"; "preview"] ->
  run k t action a = (t, Failure (Raised KeyError), []) \/
  exists query, run k t action a = retrieved connection (execute_query k t query).
Proof.
  simpl. intros [<-|[<-|[<-|[<-|[]]]]].
  - right. eexists. reflexivity.
  - unfold Queries.run, Queries.actions. cbn [assoc String.eqb Ascii.eqb Bool.eqb].
    unfold Queries.get_tables. destruct k.
    + destruct (or_config _ _ _ _); [|now left].
      destruct (or_config _ _ _ _); [|now left].
      right. eexists. reflexivity.
    + right. eexists. reflexivity.
  - right. eexists. reflexivity.
  - right. eexists. reflexivity.
Qed.

Lemma execute_query_summary k (t : tool) query :
  let t' := fst (fst (execute_query k t query)) in
  let log := snd (execute_query k t query) in
  config t' = config t /\
  (~ In Closed log /\ (conn t <> None -> conn t' <> None)) /\
  exists connects queries,
    log = connects ++ map Queried queries /\
    (length queries <= 1)%nat /\
    (conn t <> None -> connects = []) /\
    (conn t = None -> connects = [] \/ connects = snd (connect k t None)).
Proof.
  cbv zeta.
  destruct (execute_query_cases k t query)
    as [(c & r & Hc & -> & _)|[(e & Hc & H1 & -> & H2 & H3)|
                                (c & args & r & Hc & H1 & _ & -> & _)]];
    cbn [fst snd Connectors.config Connectors.conn].
  - split; [reflexivity|]. split.
    + split; [intros [?|[]]; discriminate | auto].
    + exists [], [query]. repeat split; simpl; auto.
  - split; [reflexivity|]. split.
    + split; [|auto]. intros Hin.
      destruct (connect_cases k t None) as [[e' (_ & _ & _)]|[c [args [H _]]]].
      * unfold Queries.connect in Hin. cbn [snd] in Hin.
        apply in_map_iff in Hin. destruct Hin as [? [? _]]. discriminate.
      * rewrite H in H1. discriminate.
    + exists (snd (connect k t None)), []. rewrite app_nil_r.
      repeat split; simpl; auto; congruence.
  - split; [reflexivity|]. split.
    + split; [intros [?|[?|[]]]; discriminate | discriminate].
    + exists [Connected args], [query]. split; [reflexivity|].
      split; [simpl; lia|]. split; [congruence|]. intros _. right. now rewrite H1.
Qed.

(** X15.  Through [run] of either connector the stored configuration
    never changes.  An action outside the table is refused with an
    error naming it, with no driver call.  Only [disconnect] closes a
    connection: after any other action an open connection is still
    open.  The reading actions [query], [tables], [schema] and [preview]
    send at most one query, and connect only when no connection was
    open. *)
Theorem connector_run_keeps_the_configuration k (t : tool) action a :
  let t' := fst (fst (run k t action a)) in
  let log := snd (run k t action a) in
  config t' = config t /\
  (~ In action ["connect"; "disconnect"; "query"; "tables"; "schema"; "preview"] ->
   run k t action a = (t, Failure (Msg ("Unknown action: " +:+ action)), [])) /\
  (action <> "disconnect" -> ~ In Closed log /\ (conn t <> None -> conn t' <> None)) /\
  (In action ["query"; "tables"; "schema"; "preview"] ->
   exists connects queries,
     log = connects ++ map Queried queries /\
     (length queries <= 1)%nat /\
     (conn t <> None -> connects = []) /\
     (conn t = None -> connects = [] \/ connects = snd (connect k t None))).
Proof.
  cbv zeta.
  assert (Hreads : In action ["query"; "tables"; "schema"; "preview"] ->
            config (fst (fst (run k t action a))) = config t /\
            (~ In Closed (snd (run k t action a)) /\
             (conn t <> None -> conn (fst (fst (run k t action a))) <> None)) /\
            exists connects queries,
              snd (run k t action a) = connects ++ map Queried queries /\
              (length queries <= 1)%nat /\
              (conn t <> None -> connects = []) /\
              (conn t = None -> connects = [] \/ connects = snd (connect k t None))).
  { intros Hin. destruct (reads_are_queries k t action a Hin) as [->|[query ->]].
    - cbn [fst snd]. split; [reflexivity|]. split; [split; [intros []|auto]|].
      exists [], []. repeat split; simpl; auto.
    - unfold retrieved. cbn [fst snd]. apply execute_query_summary. }
  destruct (in_dec String.string_dec action ["query"; "tables"; "schema"; "preview"])
    as [Hin|Hout].
  - destruct (Hreads Hin) as (H1 & H2 & H3).
    split; [exact H1|]. split; [|split; [intros _; exact H2 | intros _; exact H3]].
    intros Hn. exfalso. apply Hn. simpl in *. tauto.
  - destruct (String.eqb_spec "connect" action) as [<-|Hc].
    + change (run k t "connect" a) with (acknowledged connection (connect k t None)).
      unfold acknowledged. cbn [fst snd].
      destruct (connect_cases k t None) as [[e (H1 & H2 & H3)]|[c [args [H1 H2]]]].
      * rewrite H1. cbn [fst snd]. split; [reflexivity|].
        split; [intros Hn; exfalso; apply Hn; now left|].
        split; [|tauto]. intros _. split; [|auto].
        unfold Queries.connect. cbn [snd]. intros Hin.
        apply in_map_iff in Hin. destruct Hin as [? [? _]]. discriminate.
      * rewrite H1. cbn [fst snd Connectors.config Connectors.conn].
        split; [reflexivity|].
        split; [intros Hn; exfalso; apply Hn; now left|].
        split; [|tauto]. intros _.
        split; [intros [?|[]]; discriminate | discriminate].
    + destruct (String.eqb_spec "disconnect" action) as [<-|Hd].
      * change (run k t "disconnect" a) with (acknowledged connection (disconnect t)).
        unfold acknowledged. cbn [fst snd].
        split; [|split; [intros Hn; exfalso; apply Hn; right; now left|
                         split; [congruence | tauto]]].
        unfold Queries.disconnect. destruct (conn t) as [c|]; [|reflexivity].
        destruct (driver_close c); reflexivity.
      * assert (Hrun : run k t action a
                       = (t, Failure (Msg ("Unknown action: " +:+ action)), [])).
        { unfold Queries.run, Queries.actions. cbn [assoc].
          destruct (String.eqb_spec "connect" action); [congruence|].
          destruct (String.eqb_spec "disconnect" action); [congruence|].
          repeat match goal with
                 | |- context [String.eqb ?s action] =>
                     destruct (String.eqb_spec s action);
                     [subst; exfalso; apply Hout; simpl; tauto|]
                 end.
          reflexivity. }
        rewrite Hrun. cbn [fst snd]. split; [reflexivity|].
        split; [reflexivity|]. split; [intros _; split; [intros [] | auto] | tauto].
Qed.

End Querying.

Lemma query_connects_on_demand_witness :
  exists rep,
    snd (fst (Queries.execute_query unit true connect_at_once answer_one_row
                Queries.Snowflake offline "SELECT 1")) = Success rep /\
    Queries.q_row_count rep = df_len (Queries.q_data rep) /\
    Connectors.config unit
      (fst (fst (Queries.execute_query unit true connect_at_once answer_one_row
                   Queries.Snowflake offline "SELECT 1"))) = settings.
Proof.
  destruct (query_connects_on_demand unit true connect_at_once answer_one_row
              Queries.Snowflake offline "SELECT 1") as (Hcfg & _ & _ & Hrep).
  destruct (snd (fst (Queries.execute_query unit true connect_at_once answer_one_row
                        Queries.Snowflake offline "SELECT 1"))) as [rep|e] eqn:E;
    [|vm_compute in E; discriminate].
  exists rep. split; [reflexivity|].
  destruct (Hrep rep eq_refl) as (_ & Hn & _). split; [exact Hn | exact Hcfg].
Defined.

Lemma disconnect_closes_an_open_connection_witness :
  Connectors.conn unit (fst (fst (Queries.disconnect unit close_quietly online))) = None /\
  snd (Queries.disconnect unit close_quietly online) = [Queries.Closed] /\
  snd (Queries.disconnect unit close_quietly offline) = [].
Proof.
  destruct (disconnect_closes_an_open_connection unit true connect_at_once
              answer_one_row close_quietly online) as (_ & _ & Hlog & _ & Hok).
  destruct (disconnect_closes_an_open_connection unit true connect_at_once
              answer_one_row close_quietly offline) as (_ & Hoff & _).
  split; [apply Hok; reflexivity|].
  split; [apply Hlog; discriminate|].
  apply Hoff. reflexivity.
Defined.

Lemma connector_run_keeps_the_configuration_witness :
  Queries.run unit true connect_at_once answer_one_row close_quietly
    Queries.SQLServer online "drop" query_kwargs
  = (online, Failure (Msg "Unknown action: drop"), []) /\
  ~ In Queries.Closed
      (snd (Queries.run unit true connect_at_once answer_one_row close_quietly
              Queries.SQLServer online "preview" query_kwargs)).
Proof.
  destruct (connector_run_keeps_the_configuration unit true connect_at_once
              answer_one_row close_quietly Queries.SQLServer online "drop" query_kwargs)
    as (_ & Hunknown & _).
  destruct (connector_run_keeps_the_configuration unit true connect_at_once
              answer_one_row close_quietly Queries.SQLServer online "preview"
              query_kwargs) as (_ & _ & Hclosed & _).
  split.
  - apply Hunknown. simpl. intros [?|[?|[?|[?|[?|[?|[]]]]]]]; discriminate.
  - apply Hclosed. discriminate.
Defined.

(** * The handlers *)

Section Serving.

Import Queries Handlers.

Variable connection : Type.
Variable driver_available : connector -> bool.
Variable driver_connect : connector -> list (string * pyval) -> exn + connection.
Variable driver_query : connector -> connection -> string -> exn + DataFrame.
Variable secure_filename : string -> string.
Variable read_csv read_excel read_json : string -> exn + DataFrame.
Variable parse_pdf : string -> exn + list string.

Local Abbreviation site := (Handlers.site connection).
Local Abbreviation app := (Handlers.app connection).
Local Abbreviation pdf_tool := (Handlers.pdf_tool connection).
Local Abbreviation the_tool := (Handlers.the_tool connection).
Local Abbreviation connect_route :=
  (Handlers.connect_route connection driver_available driver_connect).
Local Abbreviation query_route :=
  (Handlers.query_route connection driver_available driver_connect driver_query).
Local Abbreviation tables_route :=
  (Handlers.tables_route connection driver_available driver_connect driver_query).
Local Abbreviation pdf_upload :=
  (Handlers.pdf_upload connection secure_filename parse_pdf).
Local Abbreviation pdf_clear := (Handlers.pdf_clear connection).
Local Abbreviation data_upload :=
  (Handlers.data_upload connection secure_filename read_csv read_excel read_json).
Local Abbreviation data_current := (Handlers.data_current connection).
Local Abbreviation serve :=
  (Handlers.serve connection driver_available driver_connect driver_query
     secure_filename read_csv read_excel read_json parse_pdf).
Local Abbreviation start := (Handlers.start connection).

Local Abbreviation steady := (Handlers.steady connection).

Lemma connect_keeps_config k (t : Connectors.tool connection) cfg da dc :
  Connectors.config connection (fst (fst (Queries.connect connection da dc k t cfg)))
  = Connectors.config connection t.
Proof.
  destruct (connect_cases connection da dc k t cfg)
    as [[e (H1 & _)]|[c [args [H1 _]]]]; rewrite H1; reflexivity.
Qed.

Lemma execute_query_keeps_config k (t : Connectors.tool connection) query da dc dq :
  Connectors.config connection
    (fst (fst (Queries.execute_query connection da dc dq k t query)))
  = Connectors.config connection t.
Proof. apply (execute_query_summary connection da dc dq k t query). Qed.

Lemma get_tables_keeps_config k (t : Connectors.tool connection) db sch da dc dq :
  Connectors.config connection
    (fst (fst (Queries.get_tables connection da dc dq k t db sch)))
  = Connectors.config connection t.
Proof.
  unfold Queries.get_tables. destruct k; [|apply execute_query_keeps_config].
  destruct (or_config _ _ _ _); [|reflexivity].
  destruct (or_config _ _ _ _); [|reflexivity].
  apply execute_query_keeps_config.
Qed.

Lemma with_tool_steady e1 e2 k (s : site) t :
  Connectors.config connection t = Connectors.config connection (the_tool k s) ->
  steady e1 e2 s -> steady e1 e2 (Handlers.with_tool connection k s t).
Proof.
  intros Ht (H1 & H2 & H3 & H4). destruct k; simpl in Ht;
    (split; [exact H1|]); (split; [exact H2|]); simpl; split; congruence.
Qed.

Lemma load_tools_in_sync a df : in_sync (Routes.load_tools a df).
Proof. repeat split. Qed.

Lemma save_in_sync a path data : in_sync a -> in_sync (Routes.save a path data).
Proof. intros H. exact H. Qed.

Lemma routes_data_upload_in_sync a file :
  in_sync a ->
  in_sync (fst (Routes.data_upload secure_filename read_csv read_excel read_json a file)).
Proof.
  intros H. unfold Routes.data_upload.
  destruct file as [f|]; [|exact H].
  destruct (String.eqb _ _); [exact H|].
  destruct (negb _); [exact H|].
  destruct (Routes.parse _ _ _ _ _ _) as [e|[df|]]; simpl; try exact H;
    apply load_tools_in_sync.
Qed.

Lemma load_pdf_NoDup pe rp d path :
  List.NoDup (map fst d) ->
  List.NoDup (map fst (fst (Documents.load_pdf pe rp d path))).
Proof.
  intros H. destruct (load_pdf_cases pe rp d path) as [[e ->]|[text ->]]; simpl;
    [exact H | now apply store_NoDup].
Qed.

Lemma serve_steady e1 e2 (s : site) r : steady e1 e2 s -> steady e1 e2 (serve s r).
Proof.
  intros H. destruct r as [k data|k query|k|file| |file]; simpl.
  - apply with_tool_steady; [apply connect_keeps_config | exact H].
  - unfold Handlers.query_route. cbv zeta.
    set (res := Queries.execute_query _ _ _ _ _ _ _).
    assert (H1 : steady e1 e2 (Handlers.with_tool connection k s (fst (fst res))))
      by (apply with_tool_steady; [apply execute_query_keeps_config | exact H]).
    destruct (snd (fst res)); simpl; [|exact H1].
    destruct H1 as (_ & H2 & H3 & H4).
    split; [apply load_tools_in_sync|]. split; [exact H2|]. split; assumption.
  - apply with_tool_steady; [apply get_tables_keeps_config | exact H].
  - unfold Handlers.pdf_upload. destruct file as [f|]; [|exact H].
    destruct (String.eqb _ _); [exact H|].
    destruct (negb _); [exact H|]. simpl.
    destruct H as (H1 & H2 & H3 & H4).
    split; [exact H1|]. split; [now apply load_pdf_NoDup|]. split; assumption.
  - destruct H as (H1 & H2 & H3 & H4). split; [exact H1|].
    split; [constructor|]. split; assumption.
  - destruct H as (H1 & H2 & H3 & H4).
    split; [now apply routes_data_upload_in_sync|]. split; [exact H2|].
    split; assumption.
Qed.

(** X16.  Whatever requests the routes have served since start-up,
    the EDA, chart and report tools hold the frame the routes call
    current, no document name is listed twice, and each connector still
    has the configuration it started with: the one sent to a connect
    route is not remembered. *)
Theorem served_site_stays_steady snowflake_env sqlserver_env requests :
  let s := foldl serve (start snowflake_env sqlserver_env) requests in
  Routes.eda_data (app s) = Routes.current_dataframe (app s) /\
  Routes.chart_data (app s) = Routes.current_dataframe (app s) /\
  Routes.report_data (app s) = Routes.current_dataframe (app s) /\
  List.NoDup (map fst (pdf_tool s)) /\
  Connectors.config connection (the_tool Snowflake s) = snowflake_env /\
  Connectors.config connection (the_tool SQLServer s) = sqlserver_env.
Proof.
  cbv zeta.
  assert (H : steady snowflake_env sqlserver_env
                (foldl serve (start snowflake_env sqlserver_env) requests)).
  { assert (H0 : steady snowflake_env sqlserver_env (start snowflake_env sqlserver_env))
      by (repeat split; constructor).
    revert H0. generalize (start snowflake_env sqlserver_env).
    induction requests as [|r requests IH]; intros s Hs; simpl; [exact Hs|].
    apply IH. now apply serve_steady. }
  destruct H as ((H1 & H2 & H3) & H4 & H5 & H6). repeat split; assumption.
Qed.

Lemma execute_query_report k (t : Connectors.tool connection) query da dc dq rep :
  snd (fst (Queries.execute_query connection da dc dq k t query)) = Success rep ->
  q_row_count rep = df_len (q_data rep) /\
  q_columns rep = column_names (q_data rep).
Proof.
  destruct (execute_query_cases connection da dc dq k t query)
    as [(c & r & Hc & -> & Hr)|[(e & Hc & H1 & -> & H2 & H3)|
                                 (c & args & r & Hc & H1 & H2 & -> & Hr)]];
    cbn [fst snd]; intros E; try discriminate; subst r;
    destruct Hr as (_ & Hn & Hcols); split; assumption.
Qed.

(** X17.  A query route leaves the documents, the saved files and
    the other connector alone.  When the query fails the frames are as
    before.  When it succeeds the result becomes the current frame of
    the routes and of the three tools; the response carries its full row
    count, its labels and its first 100 rows at most, and [data_current]
    then answers with the same rows, labels and count. *)
Theorem query_route_publishes_its_frame k (s : site) query :
  let s' := fst (fst (query_route k s query)) in
  let resp := snd (fst (query_route k s query)) in
  pdf_tool s' = pdf_tool s /\
  Routes.disk (app s') = Routes.disk (app s) /\
  (forall k', k' <> k -> the_tool k' s' = the_tool k' s) /\
  match resp with
  | Json (Success r) =>
      exists df,
        Routes.current_dataframe (app s') = Some df /\
        Routes.eda_data (app s') = Some df /\
        Routes.chart_data (app s') = Some df /\
        Routes.report_data (app s') = Some df /\
        qs_row_count r = df_len df /\
        qs_columns r = column_names df /\
        qs_data r = head_records df 100 /\
        length (qs_data r) = Nat.min 100 (df_len df) /\
        data_current s'
        = Json (Success {| Routes.u_rows := qs_row_count r;
                           Routes.u_columns := qs_columns r;
                           Routes.u_data := qs_data r |})
  | Json (Failure _) => app s' = app s
  | Uncaught _ => False
  end.
Proof.
  cbv zeta. unfold Handlers.query_route. cbv zeta.
  pose proof (execute_query_report k (the_tool k s) (default "" query)
                (driver_available k) (driver_connect k) (driver_query k)) as Hrep.
  set (res := Queries.execute_query _ _ _ _ _ _ _) in Hrep |- *.
  destruct (snd (fst res)) as [rep|e]; cbn [fst snd].
  - destruct (Hrep rep eq_refl) as [Hn Hc].
    split; [destruct k; reflexivity|]. split; [destruct k; reflexivity|].
    split; [intros k' Hk; destruct k, k'; try congruence; reflexivity|].
    exists (q_data rep). cbn [qs_row_count qs_columns qs_data].
    split; [reflexivity|]. split; [reflexivity|]. split; [reflexivity|].
    split; [reflexivity|]. split; [exact Hn|]. split; [reflexivity|].
    split; [reflexivity|]. split.
    + unfold head_records. rewrite length_take, rows_length. reflexivity.
    + unfold Handlers.data_current. simpl. now rewrite Hn.
  - split; [destruct k; reflexivity|]. split; [destruct k; reflexivity|].
    split; [intros k' Hk; destruct k, k'; try congruence; reflexivity|].
    destruct k; reflexivity.
Qed.

Lemma connect_config_nonempty k data : connect_config k data <> ∅.
Proof. destruct k; apply insert_non_empty. Qed.

Lemma snowflake_keyword_args data :
  Connectors.keyword_args (connect_config Snowflake data)
    [("account", "account"); ("user", "user"); ("password", "password");
     ("warehouse", "warehouse"); ("database", "database"); ("schema", "schema")]
  = Some [("account", get_or data "account" (VStr ""));
          ("user", get_or data "user" (VStr ""));
          ("password", get_or data "password" (VStr ""));
          ("warehouse", get_or data "warehouse" (VStr ""));
          ("database", get_or data "database" (VStr ""));
          ("schema", get_or data "schema" (VStr ""))].
Proof. unfold connect_config. cbn [Connectors.keyword_args]. by simplify_map_eq. Qed.

Lemma sqlserver_keyword_args data :
  Connectors.keyword_args (connect_config SQLServer data)
    [("server", "host"); ("port", "port"); ("database", "database");
     ("user", "user"); ("password", "password")]
  = Some [("server", get_or data "host" (VStr ""));
          ("port", get_or data "port" (VStr "1433"));
          ("database", get_or data "database" (VStr ""));
          ("user", get_or data "user" (VStr ""));
          ("password", get_or data "password" (VStr ""))].
Proof. unfold connect_config. cbn [Connectors.keyword_args]. by simplify_map_eq. Qed.

Lemma connect_config_get k data key :
  In key (match k with
          | Snowflake => ["account"; "user"]
          | SQLServer => ["host"; "user"]
          end) ->
  get (connect_config k data) key = get_or data key (VStr "").
Proof.
  unfold get, get_or at 1, connect_config.
  destruct k; simpl; intros [<-|[<-|[]]]; by simplify_map_eq.
Qed.

Lemma with_tool_same k (s : site) : Handlers.with_tool connection k s (the_tool k s) = s.
Proof. destruct s, k; reflexivity. Qed.

(** X18.  A connect route changes neither the stored configuration
    nor the frames nor the documents.  With the driver installed: when
    the account (or host) and the user are given and not empty, the
    driver is called once, with every keyword argument of the
    connector, absent fields being empty strings and the SQL Server port
    1433, and the response is the driver's outcome; otherwise the driver
    is not called, nothing changes and the response is the
    missing-configuration failure. *)
Theorem connect_route_passes_a_complete_configuration k (s : site) data :
  let s' := fst (fst (connect_route k s data)) in
  let resp := snd (fst (connect_route k s data)) in
  let log := snd (connect_route k s data) in
  let field key := get_or data key (VStr "") in
  let required := match k with Snowflake => "account" | SQLServer => "host" end in
  let args :=
    match k with
    | Snowflake =>
        [("account", field "account"); ("user", field "user");
         ("password", field "password"); ("warehouse", field "warehouse");
         ("database", field "database"); ("schema", field "schema")]
    | SQLServer =>
        [("server", field "host"); ("port", get_or data "port" (VStr "1433"));
         ("database", field "database"); ("user", field "user");
         ("password", field "password")]
    end in
  Connectors.config connection (the_tool k s')
  = Connectors.config connection (the_tool k s) /\
  app s' = app s /\ pdf_tool s' = pdf_tool s /\
  (driver_available k = true ->
   if truthy (field required) && truthy (field "user")
   then log = [Connected args] /\
        match driver_connect k args with
        | inl e => resp = Json (Failure (Raised e)) /\ s' = s
        | inr c =>
            resp = Json (Success tt) /\
            Connectors.conn connection (the_tool k s') = Some c
        end
   else log = [] /\ s' = s /\
        resp = Json (Failure (Msg
                 match k with
                 | Snowflake => "Missing required Snowflake configuration (account, user)"
                 | SQLServer => "Missing required SQL Server configuration (host, user)"
                 end))).
Proof.
  cbv zeta. split; [|split; [|split]].
  - unfold Handlers.connect_route. cbv zeta. cbn [fst snd].
    destruct k; cbn [Handlers.the_tool Handlers.with_tool Handlers.snowflake_tool
                     Handlers.sqlserver_tool];
      apply (connect_keeps_config _ _ (Some _)).
  - destruct k; reflexivity.
  - destruct k; reflexivity.
  - intros Hav. unfold Handlers.connect_route, Queries.connect. cbv zeta.
    cbn [fst snd].
    assert (Hr : Connectors.missing (connect_config k data)
                   match k with Snowflake => "account" | SQLServer => "host" end
                 = negb (truthy (get_or data
                                   match k with Snowflake => "account"
                                              | SQLServer => "host" end (VStr "")))).
    { unfold Connectors.missing. rewrite connect_config_get; [reflexivity|].
      destruct k; now left. }
    assert (Hu : Connectors.missing (connect_config k data) "user"
                 = negb (truthy (get_or data "user" (VStr "")))).
    { unfold Connectors.missing. rewrite connect_config_get; [reflexivity|].
      destruct k; right; now left. }
    destruct k; unfold Connectors.snowflake_connect, Connectors.sqlserver_connect,
      Connectors.connect_with, Connectors.effective_config;
      rewrite Hav; cbn [negb];
      rewrite (bool_decide_eq_false_2 _ (connect_config_nonempty _ data));
      rewrite Hr, Hu, <- negb_andb;
      destruct (truthy _ && truthy _); cbn [negb];
      try (split; [reflexivity|]; split; [apply with_tool_same | reflexivity]).
    + rewrite snowflake_keyword_args.
      destruct (driver_connect Snowflake _) as [e|c]; cbn [fst snd map];
        (split; [reflexivity|]); (split; [reflexivity|]);
        [apply (with_tool_same Snowflake) | reflexivity].
    + rewrite sqlserver_keyword_args.
      destruct (driver_connect SQLServer _) as [e|c]; cbn [fst snd map];
        (split; [reflexivity|]); (split; [reflexivity|]);
        [apply (with_tool_same SQLServer) | reflexivity].
Qed.

(** X19.  [pdf_upload] never changes the current frame.  Without a
    file, with an empty name or with a name whose extension is not
    [pdf], nothing is saved or loaded and a failure is returned.
    Otherwise the file is saved under the upload directory and read back
    from there: the response depends on the uploaded contents only, and
    on success the document is listed and readable under the base name
    of the saved path. *)
Theorem pdf_upload_reads_the_saved_file (s : site) file :
  let s' := fst (pdf_upload s file) in
  let resp := snd (pdf_upload s file) in
  Routes.current_dataframe (app s') = Routes.current_dataframe (app s) /\
  match file with
  | None => s' = s /\ resp = Json (Failure (Msg "No file provided"))
  | Some f =>
      if String.eqb (Routes.filename f) ""
         || negb (Routes.allowed_file (Routes.filename f) ["pdf"])
      then s' = s /\ exists text, resp = Json (Failure (Msg text))
      else
        let path := "uploads/" +:+ secure_filename (Routes.filename f) in
        Routes.disk (app s') = <[path := Routes.content f]> (Routes.disk (app s)) /\
        match parse_pdf (Routes.content f) with
        | inl e => resp = Json (Failure (Raised e)) /\ pdf_tool s' = pdf_tool s
        | inr pages =>
            exists r,
              resp = Json (Success r) /\
              PDF.pr_filename r = PDF.basename path /\
              PDF.pr_page_count r = length pages /\
              In (PDF.pr_filename r) (map fst (pdf_tool s')) /\
              Documents.get_document_content (pdf_tool s') (PDF.pr_filename r)
              = Success {| Documents.c_filename := PDF.pr_filename r;
                           Documents.c_content := PDF.pr_content r;
                           Documents.c_character_count := PDF.pr_character_count r |}
        end
  end.
Proof.
  cbv zeta. unfold Handlers.pdf_upload.
  destruct file as [f|]; [|repeat split].
  destruct (String.eqb (Routes.filename f) "");
    [cbn [orb fst snd]; split; [reflexivity|]; split; eauto|].
  destruct (negb (Routes.allowed_file (Routes.filename f) ["pdf"]));
    [cbn [orb fst snd]; split; [reflexivity|]; split; eauto|].
  cbn [orb fst snd]. split; [reflexivity|]. split; [reflexivity|].
  unfold Documents.load_pdf, Handlers.on_disk, Handlers.read_from_disk, Routes.save.
  cbn [Routes.disk]. rewrite lookup_insert_eq.
  rewrite bool_decide_eq_true_2 by eauto. cbn [negb].
  destruct (parse_pdf (Routes.content f)) as [e|pages]; cbn [fst snd];
    [split; reflexivity|].
  eexists. split; [reflexivity|]. cbn [PDF.pr_filename PDF.pr_page_count
    PDF.pr_content PDF.pr_character_count Handlers.pdf_tool Handlers.with_documents].
  split; [reflexivity|]. split; [reflexivity|].
  unfold Documents.get_document_content. rewrite store_assoc_same.
  split; [|reflexivity].
  rewrite store_names. destruct (assoc _ _) eqn:E.
  - destruct (in_dec String.string_dec
                (PDF.basename ("uploads/" +:+ secure_filename (Routes.filename f)))
                (map fst (pdf_tool s))) as [Hi|Hi]; [exact Hi|].
    apply assoc_None_names in Hi. congruence.
  - apply in_or_app. right. now left.
Qed.


End Serving.

Lemma query_route_publishes_its_frame_witness :
  let served :=
    Handlers.query_route unit (fun _ => true) (fun _ => connect_at_once)
      (fun _ => answer_one_row) Queries.Snowflake fresh (Some "SELECT 1") in
  Routes.current_dataframe (Handlers.app unit (fst (fst served))) = Some one_row /\
  Handlers.the_tool unit Queries.SQLServer (fst (fst served))
  = Handlers.the_tool unit Queries.SQLServer fresh.
Proof.
  intros served.
  destruct (query_route_publishes_its_frame unit (fun _ => true)
              (fun _ => connect_at_once) (fun _ => answer_one_row)
              Queries.Snowflake fresh (Some "SELECT 1")) as (_ & _ & Hother & _).
  split; [reflexivity|]. apply Hother. discriminate.
Defined.

Lemma connect_route_passes_a_complete_configuration_witness :
  snd (Handlers.connect_route unit (fun _ => true) (fun _ => connect_at_once)
         Queries.SQLServer fresh
         {[ "host" := VStr "db.local"; "user" := VStr "analyst" ]})
  = [Queries.Connected
       [("server", VStr "db.local"); ("port", VStr "1433"); ("database", VStr "");
        ("user", VStr "analyst"); ("password", VStr "")]].
Proof.
  destruct (connect_route_passes_a_complete_configuration unit (fun _ => true)
              (fun _ => connect_at_once) Queries.SQLServer fresh
              {[ "host" := VStr "db.local"; "user" := VStr "analyst" ]})
    as (_ & _ & _ & H).
  specialize (H eq_refl). vm_compute in H. destruct H as [H _].
  vm_compute. exact H.
Defined.

Lemma pdf_upload_reads_the_saved_file_witness :
  let file := Some {| Routes.filename := "Notes.PDF"; Routes.content := "hello" |} in
  exists r,
    snd (Handlers.pdf_upload unit Routes.ascii_secure_filename one_page fresh file)
    = Json (Success r) /\
    PDF.pr_filename r = "Notes.PDF" /\
    PDF.pr_page_count r = 1.
Proof.
  intros file.
  pose proof (pdf_upload_reads_the_saved_file unit Routes.ascii_secure_filename
                one_page fresh file) as H.
  cbv zeta in H. destruct H as [_ H].
  unfold file in H.
  change (String.eqb (Routes.filename
                        {| Routes.filename := "Notes.PDF"; Routes.content := "hello" |}) ""
          || negb (Routes.allowed_file
                     (Routes.filename
                        {| Routes.filename := "Notes.PDF"; Routes.content := "hello" |})
                     ["pdf"])) with false in H.
  cbv iota in H. destruct H as [_ H].
  change (one_page (Routes.content
                      {| Routes.filename := "Notes.PDF"; Routes.content := "hello" |}))
    with (@inr exn (list string) ["hello"]) in H.
  cbv iota in H. destruct H as (r & Hr & Hn & Hp & _).
  exists r. split; [exact Hr|]. split; [exact Hn | exact Hp].
Defined.


(** * File names *)

Section Extensions.

Lemma extension_after_dot stem ext :
  Routes.extension ext = None ->
  Routes.extension (stem +:+ "." +:+ ext) = Some ext.
Proof.
  intros H. induction stem as [|c stem IH].
  - change ("" +:+ "." +:+ ext) with (String (Ascii.ascii_of_nat 46) ext).
    cbn [Routes.extension]. now rewrite H.
  - change (String c stem +:+ "." +:+ ext) with (String c (stem +:+ "." +:+ ext)).
    cbn [Routes.extension]. now rewrite IH.
Qed.

Lemma lower_char_dot c :
  Ascii.eqb (Routes.lower_char c) (Ascii.ascii_of_nat 46)
  = Ascii.eqb c (Ascii.ascii_of_nat 46).
Proof. destruct c as [[] [] [] [] [] [] [] []]; reflexivity. Qed.

Lemma lower_char_twice c :
  Routes.lower_char (Routes.lower_char c) = Routes.lower_char c.
Proof. destruct c as [[] [] [] [] [] [] [] []]; reflexivity. Qed.

Lemma lower_twice s : Routes.lower (Routes.lower s) = Routes.lower s.
Proof.
  induction s as [|c s IH]; simpl; [reflexivity|].
  now rewrite lower_char_twice, IH.
Qed.

Lemma extension_lower s :
  Routes.extension s = None -> Routes.extension (Routes.lower s) = None.
Proof.
  induction s as [|c s IH]; [reflexivity|].
  cbn [Routes.extension Routes.lower].
  destruct (Routes.extension s); [discriminate|].
  rewrite IH by reflexivity. rewrite lower_char_dot.
  destruct (Ascii.eqb c _); [discriminate | reflexivity].
Qed.

(** X21.  [allowed_file] judges a name by what follows its last dot,
    compared in lower case with the allowed extensions: neither what
    precedes the dot nor the case of the extension matters, and a name
    without a dot is refused. *)
Theorem allowed_file_judges_the_last_extension stem ext allowed :
  Routes.extension ext = None ->
  Routes.allowed_file (stem +:+ "." +:+ ext) allowed
  = existsb (String.eqb (Routes.lower ext)) allowed /\
  Routes.allowed_file (stem +:+ "." +:+ ext) allowed
  = Routes.allowed_file ("." +:+ Routes.lower ext) allowed /\
  Routes.allowed_file ext allowed = false.
Proof.
  intros H. unfold Routes.allowed_file.
  rewrite extension_after_dot by exact H.
  pose proof (extension_after_dot "" (Routes.lower ext) (extension_lower _ H)) as H'.
  change ("" +:+ "." +:+ Routes.lower ext) with ("." +:+ Routes.lower ext) in H'.
  rewrite H', lower_twice, H. repeat split.
Qed.

End Extensions.

Lemma allowed_file_judges_the_last_extension_witness :
  Routes.allowed_file "report.final.PDF" ["pdf"] = true /\
  Routes.allowed_file "report.pdf.exe" ["pdf"] = false /\
  Routes.allowed_file "PDF" ["pdf"] = false.
Proof.
  destruct (allowed_file_judges_the_last_extension "report.final" "PDF" ["pdf"]
              eq_refl) as (H1 & _ & H3).
  destruct (allowed_file_judges_the_last_extension "report.pdf" "exe" ["pdf"]
              eq_refl) as (H2 & _).
  split; [exact H1|]. split; [exact H2 | exact H3].
Defined.

(** * Three ways to ask for a chart *)

Section EntryPoints.

Variable plotly : Chart.px_call -> string -> DataFrame -> exn + (string * string).

Lemma binds_required params required optional key :
  Chart.binds params required optional = true ->
  In key required ->
  get_or params key (VStr "") = get params key /\ is_Some (params !! key).
Proof.
  unfold Chart.binds. intros H Hin. apply andb_true_iff in H. destruct H as [H _].
  rewrite forallb_forall in H. specialize (H key Hin).
  apply bool_decide_eq_true in H. destruct H as [v Hv].
  unfold get, get_or. rewrite Hv. split; [reflexivity | eauto].
Qed.

Lemma binds_only params required optional key :
  Chart.binds params required optional = true ->
  ~ In key (required ++ optional) ->
  params !! key = None.
Proof.
  unfold Chart.binds. intros H Hout. apply andb_true_iff in H. destruct H as [_ H].
  rewrite forallb_forall in H.
  destruct (params !! key) as [v|] eqn:E; [|reflexivity]. exfalso. apply Hout.
  assert (Hin : In key (map fst (map_to_list params))).
  { apply in_map_iff. exists (key, v). split; [reflexivity|].
    apply list_elem_of_In. now apply elem_of_map_to_list. }
  specialize (H key Hin). apply existsb_exists in H.
  destruct H as [x [Hx Heq]]. apply String.eqb_eq in Heq. now subst.
Qed.

Lemma get_typed params t key :
  key <> "type" -> get (<["type" := VStr t]> params) key = get params key.
Proof. intros H. unfold get, get_or. now rewrite lookup_insert_ne by congruence. Qed.

Lemma get_or_typed params t key dflt :
  key <> "type" ->
  get_or (<["type" := VStr t]> params) key dflt = get_or params key dflt.
Proof. intros H. unfold get_or. now rewrite lookup_insert_ne by congruence. Qed.

(** X22.  When the parameters bind to the signature of one of the
    seven chart types of [custom_chart], the three entry points agree:
    [custom_chart] with that type in the configuration, the
    [chart_create] route on the same body, and [run] with the type as
    action and the parameters as keywords return the same envelope after
    the same library calls, and [run] keeps the dataset. *)
Theorem chart_entry_points_agree st t params required optional k :
  assoc t Signatures.parameters = Some (required, optional) ->
  Chart.binds params required optional = true ->
  Chart.kw k = params ->
  let config := <["type" := VStr t]> params in
  let o := Chart.custom_chart plotly st config in
  Routes.chart_create plotly st config = (Json (fst o), snd o) /\
  Chart.run plotly st t k = (st, Chart.drawn o).
Proof.
  intros Hsig Hb Hk. cbv zeta.
  unfold Signatures.parameters in Hsig. cbn [assoc] in Hsig.
  repeat match type of Hsig with
         | (if String.eqb ?a t then _ else _) = _ =>
             destruct (String.eqb_spec a t) as [<-|?]
         end; try discriminate; injection Hsig as <- <-.
  all: assert (Htype : params !! "type" = None)
         by (apply (binds_only _ _ _ _ Hb); simpl; intuition discriminate).
  all: assert (Hdel : forall v : pyval, delete "type" (<["type" := v]> params) = params)
         by (intros; now apply delete_insert_id).
  all: assert (Hty : forall t', get_or (<["type" := VStr t']> params) "type" (VStr "bar")
                              = VStr t')
         by (intros; unfold get_or; now rewrite lookup_insert_eq).
  all: unfold Routes.chart_create, Chart.run, Chart.custom_chart, Chart.actions.
  all: rewrite !Hty, Hdel, Hk.
  all: cbn [assoc Routes.chart_methods Chart.chart_methods map fst snd
            String.eqb Ascii.eqb Bool.eqb Chart.hashable negb].
  all: unfold Chart.call_with; rewrite Hb.
  all: rewrite ?get_typed, ?get_or_typed by discriminate.
  all: repeat match goal with
              | Hb' : Chart.binds ?p _ _ = true
                |- context [get_or ?p ?key (VStr "")] =>
                  rewrite (proj1 (binds_required p _ _ key Hb'
                                    ltac:(simpl; tauto)))
              end.
  all: destruct st; split; reflexivity.
Qed.

End EntryPoints.

Lemma chart_entry_points_agree_witness :
  let params : gmap string pyval := {[ "x" := VStr "city"; "y" := VStr "qty" ]} in
  let k := {| Chart.kw_data := None; Chart.kw_config := None; Chart.kw := params |} in
  Chart.run draw_anything (Some prices) "bar" k
  = (Some prices,
     Chart.drawn (Chart.custom_chart draw_anything (Some prices)
                    (<["type" := VStr "bar"]> params))).
Proof.
  intros params k.
  destruct (chart_entry_points_agree draw_anything (Some prices) "bar" params
              ["x"; "y"] ["title"; "color"; "orientation"] k) as [_ H].
  - reflexivity.
  - vm_compute. reflexivity.
  - reflexivity.
  - exact H.
Defined.
